(** * Draw engine of the lottery server: a shallow embedding

    The development follows [src/server.js] and [src/blockchain.js]:
    - [Sha256]: the digest behind [crypto.createHash('sha256')];
    - [Json]: [JSON.stringify] on the values the audit chain serialises;
    - the object store: JS arrays and tier objects live in a heap and are
      addressed by reference, so that two names for one array stay one
      array;
    - [Blockchain]: [computeHash], [addBlock], [getLatestHash], [isValid];
    - [selectWinners] and the POST handlers of [requestListener];
    - [generateSeed] and what [getTianxuanSeed] makes of the gateway's
      answer.

    Modelling boundaries.  A JS string is represented by its UTF-8 bytes
    (a Rocq [string]); request fields that the handlers treat as strings
    are strings, counts are integers ([Z]) or absent, and a tier quota of
    /api/draw is the text [parseInt] reads from it; a lookup in an object
    used as a dictionary finds its own members and, failing that, the
    members it inherits from its prototype.  [Date.now()] is an input of
    every operation that reads the clock.  The server starts without a
    saved [data.json]; [saveState] only writes a snapshot to disk, does not
    fail and has no effect on the in-memory state. *)

From Stdlib Require Import ZArith Ascii Lia.
From stdpp Require Import base option list strings gmap pretty.

Local Open Scope Z_scope.

(** ** Bytes and text *)

Definition bytes := list Z.

(** A string as the byte sequence [Buffer.from(s)] / [update(s)] sees. *)
Fixpoint utf8 (s : string) : bytes :=
  match s with
  | EmptyString => []
  | String c s' => Z.of_N (N_of_ascii c) :: utf8 s'
  end.

Definition hex_digit (d : Z) : ascii :=
  ascii_of_N (Z.to_N (if d <? 10 then 48 + d else 87 + d)).

Definition hex_byte (b : Z) : list ascii :=
  [hex_digit (Z.shiftr b 4); hex_digit (Z.land b 15)].

(** [buf.toString('hex')] and [digest('hex')]. *)
Definition to_hex (b : bytes) : string :=
  String.string_of_list_ascii (flat_map hex_byte b).

(** ** SHA-256 (FIPS 180-4) on 32-bit words held in [Z] *)

Module Sha256.

Definition mask32 : Z := 0xffffffff.
Definition wrap (x : Z) : Z := Z.land x mask32.
Definition add32 (x y : Z) : Z := wrap (x + y).
Definition rotr (n x : Z) : Z :=
  Z.lor (Z.shiftr x n) (wrap (Z.shiftl x (32 - n))).
Definition not32 (x : Z) : Z := Z.lxor x mask32.

Definition Ch (x y z : Z) : Z := Z.lxor (Z.land x y) (Z.land (not32 x) z).
Definition Maj (x y z : Z) : Z :=
  Z.lxor (Z.lxor (Z.land x y) (Z.land x z)) (Z.land y z).
Definition bsig0 (x : Z) : Z := Z.lxor (Z.lxor (rotr 2 x) (rotr 13 x)) (rotr 22 x).
Definition bsig1 (x : Z) : Z := Z.lxor (Z.lxor (rotr 6 x) (rotr 11 x)) (rotr 25 x).
Definition ssig0 (x : Z) : Z := Z.lxor (Z.lxor (rotr 7 x) (rotr 18 x)) (Z.shiftr x 3).
Definition ssig1 (x : Z) : Z := Z.lxor (Z.lxor (rotr 17 x) (rotr 19 x)) (Z.shiftr x 10).

(** The constants of FIPS 180-4 are fractional parts of roots of the first
    primes: the first 32 bits of the fraction of the cube root for the round
    constants, of the square root for the initial hash value. *)
Fixpoint sieve (fuel : nat) (n : Z) (found : list Z) : list Z :=
  match fuel with
  | O => rev found
  | S fuel' =>
      if forallb (fun q => negb (n mod q =? 0)) found
      then sieve fuel' (n + 1) (n :: found)
      else sieve fuel' (n + 1) found
  end.

Definition primes : list Z := Eval vm_compute in sieve 310 2 [].

Fixpoint cube_root (bits : nat) (n r : Z) : Z :=
  match bits with
  | O => r
  | S bits' =>
      let r' := r + 2 ^ Z.of_nat bits' in
      cube_root bits' n (if r' * r' * r' <=? n then r' else r)
  end.

Definition cbrt_fraction (q : Z) : Z := cube_root 40 (q * 2 ^ 96) 0 mod 2 ^ 32.
Definition sqrt_fraction (q : Z) : Z := Z.sqrt (q * 2 ^ 64) mod 2 ^ 32.

Definition round_constants : list Z := Eval vm_compute in map cbrt_fraction primes.

(** The eight working variables a..h, also the running hash value. *)
Record regs := Regs { ra : Z; rb : Z; rc : Z; rd : Z; re : Z; rf : Z; rg : Z; rh : Z }.

Definition initial : regs :=
  Eval vm_compute in
    match map sqrt_fraction (take 8 primes) with
    | [a; b; c; d; e; f; g; h] => Regs a b c d e f g h
    | _ => Regs 0 0 0 0 0 0 0 0
    end.

(** Padding: the bit 1, zeros up to 56 mod 64, the bit length on 64 bits. *)
Definition be_bytes (width : nat) (x : Z) : bytes :=
  map (fun i => Z.land (Z.shiftr x (8 * Z.of_nat i)) 255) (rev (seq 0 width)).

Definition pad (msg : bytes) : bytes :=
  let len := Z.of_nat (length msg) in
  let zeros := Z.to_nat ((55 - len) mod 64) in
  msg ++ [128] ++ repeat 0 zeros ++ be_bytes 8 (8 * len).

Fixpoint be_value (b : bytes) (acc : Z) : Z :=
  match b with
  | [] => acc
  | x :: b' => be_value b' (Z.lor (Z.shiftl acc 8) x)
  end.

Fixpoint words_of (count : nat) (b : bytes) : list Z :=
  match count with
  | O => []
  | S count' => be_value (take 4 b) 0 :: words_of count' (drop 4 b)
  end.

(** The message schedule kept as a window of the last sixteen words. *)
Definition next_word (w : list Z) : Z :=
  add32 (add32 (ssig1 (w !!! 14%nat)) (w !!! 9%nat))
        (add32 (ssig0 (w !!! 1%nat)) (w !!! 0%nat)).

Definition step (k w : Z) (r : regs) : regs :=
  let t1 := add32 (add32 (add32 (add32 (rh r) (bsig1 (re r))) (Ch (re r) (rf r) (rg r))) k) w in
  let t2 := add32 (bsig0 (ra r)) (Maj (ra r) (rb r) (rc r)) in
  Regs (add32 t1 t2) (ra r) (rb r) (rc r) (add32 (rd r) t1) (re r) (rf r) (rg r).

Fixpoint rounds (ks : list Z) (w : list Z) (r : regs) : regs :=
  match ks with
  | [] => r
  | k :: ks' =>
      let r' := step k (w !!! 0%nat) r in
      rounds ks' (drop 1 w ++ [next_word w]) r'
  end.

Definition compress (h : regs) (block : bytes) : regs :=
  let r := rounds round_constants (words_of 16 block) h in
  Regs (add32 (ra h) (ra r)) (add32 (rb h) (rb r)) (add32 (rc h) (rc r))
       (add32 (rd h) (rd r)) (add32 (re h) (re r)) (add32 (rf h) (rf r))
       (add32 (rg h) (rg r)) (add32 (rh h) (rh r)).

Fixpoint blocks (count : nat) (b : bytes) (h : regs) : regs :=
  match count with
  | O => h
  | S count' => blocks count' (drop 64 b) (compress h (take 64 b))
  end.

Definition output (h : regs) : bytes :=
  flat_map (be_bytes 4) [ra h; rb h; rc h; rd h; re h; rf h; rg h; rh h].

(** [createHash('sha256').update(msg).digest()] *)
Definition digest (msg : bytes) : bytes :=
  let p := pad msg in
  output (blocks (length p / 64) p initial).

End Sha256.

Definition sha256 (msg : bytes) : bytes := Sha256.digest msg.

(** [createHash('sha256').update(s).digest('hex')] *)
Definition sha256_hex (s : string) : string := to_hex (sha256 (utf8 s)).

(** ** JavaScript values that occur in the engine *)

(** An array element is a string or [undefined]. *)
Abbreviation jsval := (option string).
Abbreviation undefined := (@None string).

Definition includes (a : list jsval) (x : jsval) : bool := bool_decide (x ∈ a).

(** Truthiness of a string field ([!s] holds for the empty string). *)
Definition truthy (s : string) : bool := negb (String.eqb s "").

(** An ordinary object used as a dictionary.  Own keys are enumerated with
    array-index keys first, in ascending numeric order, and the other keys
    after them in insertion order. *)
Definition object (V : Type) := list (string * V).

Fixpoint digits_value (s : string) (acc : N) : option N :=
  match s with
  | EmptyString => Some acc
  | String c s' =>
      let d := N_of_ascii c in
      if ((48 <=? d) && (d <=? 57))%N
      then digits_value s' (10 * acc + (d - 48))%N
      else None
  end.

(** The numeric value of a key that is a canonical array index. *)
Definition array_index (k : string) : option N :=
  match k with
  | EmptyString => None
  | _ =>
      match digits_value k 0%N with
      | Some n =>
          if String.eqb (pretty n) k && (n <=? 4294967294)%N then Some n else None
      | None => None
      end
  end.

Fixpoint obj_get {V} (o : object V) (k : string) : option V :=
  match o with
  | [] => None
  | (k', v) :: o' => if String.eqb k' k then Some v else obj_get o' k
  end.

Fixpoint obj_replace {V} (o : object V) (k : string) (v : V) : object V :=
  match o with
  | [] => []
  | (k', v') :: o' =>
      if String.eqb k' k then (k', v) :: o' else (k', v') :: obj_replace o' k v
  end.

Fixpoint obj_insert_index {V} (o : object V) (n : N) (k : string) (v : V) : object V :=
  match o with
  | [] => [(k, v)]
  | (k', v') :: o' =>
      match array_index k' with
      | Some n' =>
          if (n' <? n)%N then (k', v') :: obj_insert_index o' n k v
          else (k, v) :: o
      | None => (k, v) :: o
      end
  end.

(** [o[k] = v] *)
Definition obj_set {V} (o : object V) (k : string) (v : V) : object V :=
  match obj_get o k with
  | Some _ => obj_replace o k v
  | None =>
      match array_index k with
      | Some n => obj_insert_index o n k v
      | None => o ++ [(k, v)]
      end
  end.

(** [Object.keys(o)] *)
Definition obj_keys {V} (o : object V) : list string := o.*1.

(** The object [JSON.parse] builds from the members of an object literal:
    each becomes an own member, also one named [__proto__]. *)
Definition obj_of_members {V} (members : list (string * V)) : object V :=
  foldl (fun o kv => obj_set o kv.1 kv.2) [] members.

(** ** Inherited members

    An object made by a literal has [Object.prototype] as its prototype, so
    that [o[k]] finds a member of [Object.prototype] when [o] has no own
    member [k].  The string-keyed members of [Object.prototype] are the
    functions below, listed with their [length], and the accessor
    [__proto__], which reads and replaces the prototype. *)
Definition OBJECT_PROTOTYPE : object nat :=
  [("constructor", 1%nat); ("__defineGetter__", 2%nat); ("__defineSetter__", 2%nat);
   ("hasOwnProperty", 1%nat); ("__lookupGetter__", 1%nat); ("__lookupSetter__", 1%nat);
   ("isPrototypeOf", 1%nat); ("propertyIsEnumerable", 1%nat); ("toString", 0%nat);
   ("valueOf", 0%nat); ("toLocaleString", 0%nat)].

(** The string-keyed function members of [Array.prototype] (ECMAScript
    2023) with their [length]; an array has besides its elements and its
    own [length]. *)
Definition ARRAY_PROTOTYPE : object nat :=
  [("constructor", 1%nat); ("at", 1%nat); ("concat", 1%nat); ("copyWithin", 2%nat);
   ("entries", 0%nat); ("every", 1%nat); ("fill", 1%nat); ("filter", 1%nat);
   ("find", 1%nat); ("findIndex", 1%nat); ("findLast", 1%nat); ("findLastIndex", 1%nat);
   ("flat", 0%nat); ("flatMap", 1%nat); ("forEach", 1%nat); ("includes", 1%nat);
   ("indexOf", 1%nat); ("join", 1%nat); ("keys", 0%nat); ("lastIndexOf", 1%nat);
   ("map", 1%nat); ("pop", 0%nat); ("push", 1%nat); ("reduce", 1%nat);
   ("reduceRight", 1%nat); ("reverse", 0%nat); ("shift", 0%nat); ("slice", 2%nat);
   ("some", 1%nat); ("sort", 1%nat); ("splice", 2%nat); ("toLocaleString", 0%nat);
   ("toReversed", 0%nat); ("toSorted", 1%nat); ("toSpliced", 2%nat); ("toString", 0%nat);
   ("unshift", 1%nat); ("values", 0%nat); ("with", 2%nat)].

(** What a lookup finds in [Object.prototype]: one of its functions, or,
    under the key [__proto__], [Object.prototype] itself. *)
Inductive Inherited :=
  | BuiltinFunction (length : nat)
  | ObjectPrototype.

Definition object_prototype (k : string) : option Inherited :=
  if String.eqb k "__proto__" then Some ObjectPrototype
  else BuiltinFunction <$> obj_get OBJECT_PROTOTYPE k.

(** [v && v.length > 0] for an inherited [v]: a function has the number of
    its parameters as [length], [Object.prototype] has none. *)
Definition inherited_nonempty (i : option Inherited) : bool :=
  match i with
  | Some (BuiltinFunction n) => (0 <? n)%nat
  | _ => false
  end.

(** The outcome of [d[k]]. *)
Inductive Lookup (V : Type) :=
  | Own (v : V)
  | Inherits (i : Inherited)
  | Missing.
Arguments Own {V} v.
Arguments Inherits {V} i.
Arguments Missing {V}.

(** [d[k]] for one of the dictionaries [state.sessions],
    [state.participants] and [state.winners]. *)
Definition dict_get {V} (d : gmap string V) (k : string) : Lookup V :=
  match d !! k with
  | Some v => Own v
  | None =>
      match object_prototype k with
      | Some i => Inherits i
      | None => Missing
      end
  end.

(** ** JSON.stringify *)

Module Json.

Definition escape_char (c : ascii) : string :=
  let n := Z.of_N (N_of_ascii c) in
  if n =? 34 then "\" +:+ String c ""
  else if n =? 92 then "\\"
  else if n =? 8 then "\b"
  else if n =? 12 then "\f"
  else if n =? 10 then "\n"
  else if n =? 13 then "\r"
  else if n =? 9 then "\t"
  else if n <? 32 then "\u00" +:+ to_hex [n]
  else String c "".

Fixpoint escape (s : string) : string :=
  match s with
  | EmptyString => ""
  | String c s' => escape_char c +:+ escape s'
  end.

Definition quote : string := String (ascii_of_N 34) "".

Definition str (s : string) : string := quote +:+ escape s +:+ quote.

Definition num (n : Z) : string := pretty n.

Definition value (v : jsval) : string :=
  match v with
  | Some s => str s
  | None => "null"
  end.

Definition array (a : list jsval) : string :=
  "[" +:+ String.concat "," (map value a) +:+ "]".

(** An object whose member values are already serialised. *)
Definition obj (members : list (string * string)) : string :=
  "{" +:+ String.concat "," (map (fun kv => str kv.1 +:+ ":" +:+ kv.2) members) +:+ "}".

End Json.

(** ** The server state and its object store *)

(** A reference to an array or to a tier object of the store. *)
Abbreviation loc := nat.

(** [state.sessions[id]] *)
Record Session := mkSession {
  sess_id : string;
  sess_name : string;
  seedHash : string;
  revealedSeed : option string;   (* [null] until revealed *)
  drawn : bool
}.

(** [state.winners[id]]: the two fields are references, fixed when the
    record is created; the objects they point to are updated in place.
    [protos] below holds, for a tier object whose prototype an assignment
    to [__proto__] has replaced, the array that is its prototype; the
    other tier objects have [Object.prototype]. *)
Record WinnersRec := mkWinners { all : loc; tiers : loc }.

(** The payload of an audit block, one variant per object literal passed to
    [chain.addBlock].  Arrays and tier objects are held by reference. *)
Inductive Payload :=
  | GENESIS
  | SESSION_CREATED (sessionId name seedHash : string)
  | USER_ENTERED (sessionId user : string)
  | SEED_REVEALED (sessionId seed : string)
  | DRAWN (sessionId : string) (winners : loc) (tiers : loc) (randBase : string)
  | TIER_DRAWN (sessionId tier : string) (winners : loc) (randBase : string)
  | USERS_IMPORTED (sessionId : string) (users : loc).

Record Block := mkBlock {
  index : Z;
  timestamp : Z;
  data : Payload;
  previousHash : string;
  hash : string
}.

Record State := mkState {
  sessions : gmap string Session;
  participants : gmap string loc;
  winners : gmap string WinnersRec;
  arrays : list (list jsval);
  objects : list (object loc);
  chain : list Block;
  protos : gmap loc loc
}.

Definition set_sessions (f : gmap string Session -> gmap string Session) (st : State) : State :=
  mkState (f (sessions st)) (participants st) (winners st) (arrays st) (objects st) (chain st)
    (protos st).
Definition set_participants (f : gmap string loc -> gmap string loc) (st : State) : State :=
  mkState (sessions st) (f (participants st)) (winners st) (arrays st) (objects st) (chain st)
    (protos st).
Definition set_winners (f : gmap string WinnersRec -> gmap string WinnersRec) (st : State) : State :=
  mkState (sessions st) (participants st) (f (winners st)) (arrays st) (objects st) (chain st)
    (protos st).
Definition set_arrays (f : list (list jsval) -> list (list jsval)) (st : State) : State :=
  mkState (sessions st) (participants st) (winners st) (f (arrays st)) (objects st) (chain st)
    (protos st).
Definition set_objects (f : list (object loc) -> list (object loc)) (st : State) : State :=
  mkState (sessions st) (participants st) (winners st) (arrays st) (f (objects st)) (chain st)
    (protos st).
Definition set_chain (f : list Block -> list Block) (st : State) : State :=
  mkState (sessions st) (participants st) (winners st) (arrays st) (objects st) (f (chain st))
    (protos st).
Definition set_protos (f : gmap loc loc -> gmap loc loc) (st : State) : State :=
  mkState (sessions st) (participants st) (winners st) (arrays st) (objects st) (chain st)
    (f (protos st)).

(** The array a reference points to. *)
Definition array_at (st : State) (l : loc) : list jsval := default [] (arrays st !! l).
Definition object_at (st : State) (l : loc) : object loc := default [] (objects st !! l).

(** *** A state monad with exceptions

    [None] is a thrown exception; the state reached when it was thrown is
    kept, as nothing in the server rolls back. *)
Definition M (A : Type) : Type := State -> option A * State.

#[global] Instance M_ret : MRet M := fun A a st => (Some a, st).
#[global] Instance M_bind : MBind M := fun A B f m st =>
  match m st with
  | (Some a, st') => f a st'
  | (None, st') => (None, st')
  end.

Definition throw {A} : M A := fun st => (None, st).
Definition gets {A} (f : State -> A) : M A := fun st => (Some (f st), st).
Definition modify (f : State -> State) : M unit := fun st => (Some tt, f st).
Definition of_option {A} (o : option A) : M A :=
  match o with Some a => mret a | None => throw end.

(** [[...]] or [.slice()] or [.filter(..)]: a new array object. *)
Definition new_array (a : list jsval) : M loc := fun st =>
  (Some (length (arrays st)), set_arrays (fun h => h ++ [a]) st).
Definition get_array (l : loc) : M (list jsval) := gets (fun st => array_at st l).
Definition put_array (l : loc) (a : list jsval) : M unit :=
  modify (set_arrays (fun h => <[l := a]> h)).
(** [l.push(...xs)] *)
Definition push (l : loc) (xs : list jsval) : M unit :=
  a ← get_array l; put_array l (a ++ xs).

Definition new_object (o : object loc) : M loc := fun st =>
  (Some (length (objects st)), set_objects (fun h => h ++ [o]) st).
Definition get_object (l : loc) : M (object loc) := gets (fun st => object_at st l).
(** [o[k] = v] on the tier object at [l], where [v] is an array.  Under the
    key [__proto__] the assignment runs the setter of [Object.prototype]:
    [v] becomes the prototype of [o] and no member is made.  Under every
    other key it sets an own member, also when [o] inherits one of that
    name. *)
Definition assign (l : loc) (k : string) (v : loc) (st : State) : State :=
  if String.eqb k "__proto__" then set_protos (<[l := v]>) st
  else set_objects (fun h => <[l := obj_set (object_at st l) k v]> h) st.

Definition set_property (l : loc) (k : string) (v : loc) : M unit :=
  modify (assign l k v).

(** ** blockchain.js *)

Module Blockchain.

Definition stringify_tiers (st : State) (t : loc) : string :=
  Json.obj (map (fun kv => (kv.1, Json.array (array_at st kv.2))) (object_at st t)).

(** [JSON.stringify(block.data)], members in the order of the literal. *)
Definition stringify_data (st : State) (d : Payload) : string :=
  match d with
  | GENESIS => Json.obj [("message", Json.str "Genesis Block")]
  | SESSION_CREATED sid name sh =>
      Json.obj [("type", Json.str "SESSION_CREATED"); ("sessionId", Json.str sid);
                ("name", Json.str name); ("seedHash", Json.str sh)]
  | USER_ENTERED sid user =>
      Json.obj [("type", Json.str "USER_ENTERED"); ("sessionId", Json.str sid);
                ("user", Json.str user)]
  | SEED_REVEALED sid seed =>
      Json.obj [("type", Json.str "SEED_REVEALED"); ("sessionId", Json.str sid);
                ("seed", Json.str seed)]
  | DRAWN sid w t rb =>
      Json.obj [("type", Json.str "DRAWN"); ("sessionId", Json.str sid);
                ("winners", Json.array (array_at st w));
                ("tiers", stringify_tiers st t); ("randBase", Json.str rb)]
  | TIER_DRAWN sid tier w rb =>
      Json.obj [("type", Json.str "TIER_DRAWN"); ("sessionId", Json.str sid);
                ("tier", Json.str tier); ("winners", Json.array (array_at st w));
                ("randBase", Json.str rb)]
  | USERS_IMPORTED sid us =>
      Json.obj [("type", Json.str "USERS_IMPORTED"); ("sessionId", Json.str sid);
                ("users", Json.array (array_at st us))]
  end.

(** [JSON.stringify(clone)] where [clone] is the block without [hash]. *)
Definition stringify_clone (st : State) (b : Block) : string :=
  Json.obj [("index", Json.num (index b)); ("timestamp", Json.num (timestamp b));
            ("data", stringify_data st (data b));
            ("previousHash", Json.str (previousHash b))].

(** [computeHash(block)]: the [hash] field of the argument is not read. *)
Definition computeHash (st : State) (b : Block) : string :=
  sha256_hex (stringify_clone st b).

(** [block.hash = this.computeHash(block)] *)
Definition seal (st : State) (b : Block) : Block :=
  mkBlock (index b) (timestamp b) (data b) (previousHash b) (computeHash st b).

(** [createGenesisBlock()] at clock reading [now]. *)
Definition createGenesisBlock (now : Z) : M unit := fun st =>
  let genesis := seal st (mkBlock 0 now GENESIS "0" "") in
  (Some tt, set_chain (fun c => c ++ [genesis]) st).

(** [addBlock(data)] at clock reading [now].  Reading [lastBlock.index]
    throws on an empty chain. *)
Definition addBlock (now : Z) (d : Payload) : M Block :=
  c ← gets chain;
  lastBlock ← of_option (last c);
  st ← gets (fun st => st);
  let block := seal st (mkBlock (index lastBlock + 1) now d (hash lastBlock) "") in
  _ ← modify (set_chain (fun c => c ++ [block]));
  mret block.

(** [getLatestHash()] *)
Definition getLatestHash : M string :=
  c ← gets chain;
  lastBlock ← of_option (last c);
  mret (hash lastBlock).

(** The loop of [isValid()], from index 1, with [prev = chain[i - 1]]. *)
Fixpoint isValid_from (st : State) (prev : Block) (rest : list Block) : bool :=
  match rest with
  | [] => true
  | current :: rest' =>
      if negb (String.eqb (previousHash current) (hash prev)) then false
      else if negb (String.eqb (computeHash st current) (hash current)) then false
      else isValid_from st current rest'
  end.

(** [isValid()] *)
Definition isValid (st : State) : bool :=
  match chain st with
  | [] => true
  | b0 :: rest => isValid_from st b0 rest
  end.

End Blockchain.

(** ** server.js: selectWinners *)

(** [h.readUInt32BE(0)]; a buffer shorter than four bytes raises. *)
Definition readUInt32BE (h : bytes) : option Z :=
  match h with
  | b0 :: b1 :: b2 :: b3 :: _ => Some (Sha256.be_value [b0; b1; b2; b3] 0)
  | _ => None
  end.

(** [a % b] for an integer [a]: the sign follows the dividend, and the
    result is [NaN] (here [None]) when [b] is zero. *)
Definition js_rem (a b : Z) : option Z :=
  if b =? 0 then None else Some (Z.rem a b).

(** [x + i] where [x] may be [NaN]. *)
Definition js_add (x : option Z) (i : Z) : option Z := (fun v => v + i) <$> x.

(** The local array [arr] of [selectWinners]: its elements, and the value of
    its property ["NaN"], which [arr[j]] reads and writes when [j] is
    [NaN].  Integer subscripts below zero name further non-element
    properties; none is ever written, so they read as [undefined]. *)
Definition arr_get (a : list jsval) (nanp : jsval) (j : option Z) : jsval :=
  match j with
  | None => nanp
  | Some j => if j <? 0 then undefined else default undefined (a !! Z.to_nat j)
  end.

(** [a[i] = v] for an element subscript: in range it overwrites, beyond the
    end it extends the array, the gap reading as [undefined]. *)
Definition arr_write (a : list jsval) (i : nat) (v : jsval) : list jsval :=
  if decide (i < length a)%nat then <[i := v]> a
  else a ++ replicate (i - length a) undefined ++ [v].

Definition arr_set (a : list jsval) (nanp : jsval) (j : option Z) (v : jsval)
  : list jsval * jsval :=
  match j with
  | None => (a, v)
  | Some j => if j <? 0 then (a, nanp) else (arr_write a (Z.to_nat j) v, nanp)
  end.

(** [Buffer.from([i])]: one byte, the counter reduced modulo 256. *)
Definition counter_byte (i : Z) : bytes := [Z.land i 255].

(** The index drawn at step [i] among [n] candidates. *)
Definition draw_index (randBase : bytes) (n i : Z) : option (option Z) :=
  let h := sha256 (randBase ++ counter_byte i) in
  rnd ← readUInt32BE h;
  Some (js_add (js_rem rnd (n - i)) i).

(** One iteration of the loop body on the array at [arr]. *)
Definition swap_step (arr : loc) (n : Z) (randBase : bytes) (i : Z) (nanp : jsval)
  : M jsval :=
  j ← of_option (draw_index randBase n i);
  a ← get_array arr;
  let temp := arr_get a nanp (Some i) in
  let '(a1, nanp1) := arr_set a nanp (Some i) (arr_get a nanp j) in
  let '(a2, nanp2) := arr_set a1 nanp1 j temp in
  _ ← put_array arr a2;
  mret nanp2.

(** [for (let i = i0; i < k; i++) body], with [count] iterations left. *)
Fixpoint for_loop (count : nat) (i : Z) (body : Z -> jsval -> M jsval) (nanp : jsval)
  : M unit :=
  match count with
  | O => mret tt
  | S count' => nanp' ← body i nanp; for_loop count' (i + 1) body nanp'
  end.

(** [a.slice(0, k)]: a negative [k] counts from the end. *)
Definition slice0 (a : list jsval) (k : Z) : list jsval :=
  if k <? 0 then take (Z.to_nat (Z.of_nat (length a) + k)) a
  else take (Z.to_nat k) a.

Definition selectWinners (participants : loc) (k : Z) (randBase : bytes) : M loc :=
  src ← get_array participants;
  arr ← new_array src;
  let n := Z.of_nat (length src) in
  _ ← for_loop (Z.to_nat k) 0 (swap_step arr n randBase) undefined;
  final ← get_array arr;
  new_array (slice0 final k).

(** ** Built-in functions on strings *)

(** *** String.prototype.trim

    White space and line terminators of ECMAScript, as UTF-8 sequences. *)
Definition of_bytes (b : list N) : string :=
  String.string_of_list_ascii (map ascii_of_N b).

Definition white_space : list string :=
  map of_bytes
    [ [9]; [10]; [11]; [12]; [13]; [32];
      [0xC2; 0xA0]; [0xE1; 0x9A; 0x80];
      [0xE2; 0x80; 0x80]; [0xE2; 0x80; 0x81]; [0xE2; 0x80; 0x82];
      [0xE2; 0x80; 0x83]; [0xE2; 0x80; 0x84]; [0xE2; 0x80; 0x85];
      [0xE2; 0x80; 0x86]; [0xE2; 0x80; 0x87]; [0xE2; 0x80; 0x88];
      [0xE2; 0x80; 0x89]; [0xE2; 0x80; 0x8A];
      [0xE2; 0x80; 0xA8]; [0xE2; 0x80; 0xA9]; [0xE2; 0x80; 0xAF];
      [0xE2; 0x81; 0x9F]; [0xE3; 0x80; 0x80]; [0xEF; 0xBB; 0xBF] ]%N.

(** The rest of [s] after one leading white-space character, if any. *)
Definition skip_space (spaces : list string) (s : string) : option string :=
  let hit := filter (fun w => String.prefix w s = true) spaces in
  match hit with
  | w :: _ => Some (String.substring (String.length w) (String.length s - String.length w) s)
  | [] => None
  end.

Fixpoint trim_start (fuel : nat) (spaces : list string) (s : string) : string :=
  match fuel with
  | O => s
  | S fuel' =>
      match skip_space spaces s with
      | Some s' => trim_start fuel' spaces s'
      | None => s
      end
  end.

Definition trim (s : string) : string :=
  let s1 := trim_start (String.length s) white_space s in
  let r := String.rev s1 in
  String.rev (trim_start (String.length r) (map String.rev white_space) r).

(** *** parseInt(text, 10)

    Leading white space is skipped, an optional sign is read, and then the
    decimal digits that follow; without a digit the result is [NaN], here
    [None].  The number is the value of the digits rounded to a double,
    which changes neither its sign nor its minimum with the length of an
    array, the two things /api/draw makes of it; the value itself stands
    here. *)
Definition is_digit (c : ascii) : bool :=
  let d := N_of_ascii c in ((48 <=? d) && (d <=? 57))%N.

Fixpoint leading_digits (s : string) : string :=
  match s with
  | EmptyString => ""
  | String c s' => if is_digit c then String c (leading_digits s') else ""
  end.

Definition parseInt10 (text : string) : option Z :=
  let s := trim_start (String.length text) white_space text in
  let '(negative, s) :=
    match s with
    | String c s' =>
        if Ascii.eqb c "-" then (true, s')
        else if Ascii.eqb c "+" then (false, s')
        else (false, s)
    | EmptyString => (false, s)
    end in
  match leading_digits s with
  | EmptyString => None
  | z =>
      n ← digits_value z 0%N;
      Some (if negative : bool then - Z.of_N n else Z.of_N n)
  end.

(** ** server.js: the POST handlers of requestListener *)

(** What [sendJSON] is called with.  [ImportedOnto] is the answer of
    /api/importParticipants when [state.participants[sessionId]] is a
    member of [Object.prototype]: that member is what it sends as
    [participants]. *)
Inductive Response :=
  | Error (status : Z) (error : string)
  | SessionCreated (sessionId : string)
  | ParticipantList (participants : list jsval)
  | Revealed
  | DrawResult (winners : list jsval) (tiers : option (object (list jsval)))
  | TierResult (winners : list jsval) (tier : string)
  | ImportResult (participants added : list jsval)
  | ImportedOnto (participants : Inherited) (added : list jsval).

(** [x || y] on numbers that may be absent: zero and absent are falsy. *)
Definition js_or (x y : option Z) : option Z :=
  match x with
  | Some n => if n =? 0 then y else Some n
  | None => y
  end.

(** [x || d] with a number literal on the right. *)
Definition num_or (x : option Z) (d : Z) : Z := default d (js_or x (Some d)).

(** [!session.revealedSeed] is false exactly for a non-empty string. *)
Definition seed_of (s : Session) : option string :=
  match revealedSeed s with
  | Some seed => if truthy seed then Some seed else None
  | None => None
  end.

Definition DEFAULT_COUNTS : object Z :=
  [("special", 1); ("first", 5); ("second", 5); ("third", 20)].

(** A number of winners asked for, or a value that is not a number. *)
Inductive Target :=
  | Count (n : Z)
  | NotANumber.

(** [count || DEFAULT_COUNTS[tier] || 1].  When [count] is zero or absent
    and [tier] names a member of [Object.prototype], [DEFAULT_COUNTS[tier]]
    is that member, which is truthy and not a number. *)
Definition targetCount (tier : string) (count : option Z) : Target :=
  match js_or count (obj_get DEFAULT_COUNTS tier) with
  | Some n => Count (num_or (Some n) 1)
  | None =>
      match object_prototype tier with
      | Some _ => NotANumber
      | None => Count 1
      end
  end.

(** [Math.min(target, len)], [None] standing for [NaN]. *)
Definition min_target (target : Target) (len : Z) : option Z :=
  match target with
  | Count n => Some (Z.min n len)
  | NotANumber => None
  end.

(** The loop bound and slice end a tier draw among [len] remaining
    participants runs [selectWinners] with; a [NaN] acts as 0 there. *)
Definition tier_count (tier : string) (count : option Z) (len : nat) : Z :=
  default 0 (min_target (targetCount tier count) (Z.of_nat len)).

Definition update_session (sid : string) (f : Session -> Session) : M unit :=
  modify (set_sessions (alter f sid)).

Definition set_revealedSeed (seed : string) (s : Session) : Session :=
  mkSession (sess_id s) (sess_name s) (seedHash s) (Some seed) (drawn s).
Definition set_drawn (d : bool) (s : Session) : Session :=
  mkSession (sess_id s) (sess_name s) (seedHash s) (revealedSeed s) d.

(** [state.participants[sessionId] || []]: a reference to an array, or an
    inherited member, which is truthy. *)
Definition participants_or_new (sid : string) : M (loc + Inherited) :=
  p ← gets (fun st => dict_get (participants st) sid);
  match p with
  | Own l => mret (inl l)
  | Inherits i => mret (inr i)
  | Missing => l ← new_array []; mret (inl l)
  end.

(** POST /api/createSession; [nowId] is the clock reading that names the
    session, [now] the later one that stamps the block. *)
Definition createSession (nowId now : Z) (name seedHash : string) : M Response :=
  if negb (truthy name) || negb (truthy seedHash) then
    mret (Error 400 "name and seedHash are required")
  else
    let id : string := pretty nowId in
    _ ← modify (set_sessions (<[id := mkSession id name seedHash None false]>));
    p ← new_array [];
    _ ← modify (set_participants (<[id := p]>));
    a ← new_array [];
    t ← new_object [];
    _ ← modify (set_winners (<[id := mkWinners a t]>));
    _ ← Blockchain.addBlock now (SESSION_CREATED id name seedHash);
    mret (SessionCreated id).

(** POST /api/enter.  A member of [Object.prototype] found as
    [state.sessions[sessionId]] passes the test for the session; found as
    the list it has no [includes], and the call throws. *)
Definition enter (now : Z) (sessionId user : string) : M Response :=
  if negb (truthy sessionId) || negb (truthy user) then
    mret (Error 400 "sessionId and user are required")
  else
    s ← gets (fun st => dict_get (sessions st) sessionId);
    match s with
    | Missing => mret (Error 404 "session not found")
    | Own _ | Inherits _ =>
        list ← participants_or_new sessionId;
        match list with
        | inr _ => throw
        | inl list =>
            a ← get_array list;
            _ ← (if negb (includes a (Some user)) then
                   _ ← push list [Some user];
                   _ ← modify (set_participants (<[sessionId := list]>));
                   _ ← Blockchain.addBlock now (USER_ENTERED sessionId user);
                   mret tt
                 else mret tt);
            a' ← get_array list;
            mret (ParticipantList a')
        end
    end.

(** POST /api/revealSeed.  On a member of [Object.prototype] the field
    [seedHash] is [undefined], which no digest equals. *)
Definition revealSeed (now : Z) (sessionId seed : string) : M Response :=
  if negb (truthy sessionId) || negb (truthy seed) then
    mret (Error 400 "sessionId and seed are required")
  else
    s ← gets (fun st => dict_get (sessions st) sessionId);
    match s with
    | Missing => mret (Error 404 "session not found")
    | Inherits _ => mret (Error 400 "seed hash mismatch")
    | Own session =>
        let computedHash := sha256_hex seed in
        if negb (String.eqb computedHash (seedHash session)) then
          mret (Error 400 "seed hash mismatch")
        else
          _ ← update_session sessionId (set_revealedSeed seed);
          _ ← Blockchain.addBlock now (SEED_REVEALED sessionId seed);
          mret Revealed
    end.

(** The body of [for (const tier of Object.keys(tierCounts))] in /api/draw;
    [remaining] is the array the variable of that name points to, and
    [tierCounts] holds under each key the text [parseInt] reads from the
    member, that is [String(tierCounts[tier])]. *)
Fixpoint draw_tiers (keys : list string) (tierCounts : object string) (randBase : bytes)
    (tiers allWinners remaining : loc) : M unit :=
  match keys with
  | [] => mret tt
  | tier :: keys' =>
      rem ← get_array remaining;
      let count := Z.min (num_or (obj_get tierCounts tier ≫= parseInt10) 0)
                         (Z.of_nat (length rem)) in
      if 0 <? count then
        let tierRand := sha256 (randBase ++ utf8 tier) in
        winnersList ← selectWinners remaining count tierRand;
        _ ← set_property tiers tier winnersList;
        wl ← get_array winnersList;
        _ ← push allWinners wl;
        remaining' ← new_array (filter (fun u => negb (includes wl u)) rem);
        draw_tiers keys' tierCounts randBase tiers allWinners remaining'
      else
        e ← new_array [];
        _ ← set_property tiers tier e;
        draw_tiers keys' tierCounts randBase tiers allWinners remaining
  end.

(** The tier lists as [JSON.stringify] finds them when the response is sent. *)
Definition snapshot_tiers (st : State) (t : loc) : object (list jsval) :=
  map (fun kv => (kv.1, array_at st kv.2)) (object_at st t).

(** POST /api/draw; [tierCounts] holds the members of the request's
    [tierCounts] object when it is present, each with the text of its
    value.  A member of [Object.prototype] found as the session has neither
    [drawn] nor [revealedSeed]; found as the list, its [length] is that of
    the function, or [undefined], and it has no [slice]. *)
Definition draw (now : Z) (sessionId : string) (numWinners : option Z)
    (tierCounts : option (list (string * string))) : M Response :=
  s ← gets (fun st => dict_get (sessions st) sessionId);
  match s with
  | Missing => mret (Error 404 "session not found")
  | Inherits _ => mret (Error 400 "seed not revealed")
  | Own session =>
      if drawn session then mret (Error 400 "session already drawn") else
      match seed_of session with
      | None => mret (Error 400 "seed not revealed")
      | Some seed =>
          p ← gets (fun st => dict_get (participants st) sessionId);
          match p with
          | Missing => mret (Error 400 "no participants")
          | Inherits (BuiltinFunction O) => mret (Error 400 "no participants")
          | Inherits _ => _ ← Blockchain.getLatestHash; throw
          | Own list =>
              l ← get_array list;
              if (length l =? 0)%nat then mret (Error 400 "no participants") else
              tip ← Blockchain.getLatestHash;
              let randBase := sha256 (utf8 (tip +:+ seed +:+ pretty (length l))) in
              let tc := obj_of_members (default [] tierCounts) in
              if (0 <? length (obj_keys tc))%nat then
                remaining ← new_array l;
                tiers ← new_object [];
                allWinners ← new_array [];
                _ ← draw_tiers (obj_keys tc) tc randBase tiers allWinners remaining;
                _ ← update_session sessionId (set_drawn true);
                _ ← modify (set_winners (<[sessionId := mkWinners allWinners tiers]>));
                _ ← Blockchain.addBlock now
                      (DRAWN sessionId allWinners tiers (to_hex randBase));
                w ← get_array allWinners;
                ts ← gets (fun st => snapshot_tiers st tiers);
                mret (DrawResult w (Some ts))
              else
                let k := Z.min (num_or numWinners 1) (Z.of_nat (length l)) in
                winners ← selectWinners list k randBase;
                _ ← update_session sessionId (set_drawn true);
                t1 ← new_object [("default", winners)];
                _ ← modify (set_winners (<[sessionId := mkWinners winners t1]>));
                t2 ← new_object [("default", winners)];
                _ ← Blockchain.addBlock now
                      (DRAWN sessionId winners t2 (to_hex randBase));
                w ← get_array winners;
                mret (DrawResult w None)
          end
      end
  end.

(** [v && v.length > 0] for what [tiers[tier]] finds in an array that is
    the prototype of [tiers]: the array itself under [__proto__], an
    element (a string or [undefined]) under an index, a number under
    [length], and else a function of [Array.prototype] or what
    [Object.prototype] has. *)
Definition array_member_nonempty (a : list jsval) (tier : string) : bool :=
  if String.eqb tier "__proto__" then (0 <? length a)%nat
  else
    match array_index tier with
    | Some i =>
        match a !! N.to_nat i with
        | Some (Some s) => truthy s
        | _ => false
        end
    | None =>
        if String.eqb tier "length" then false
        else
          match obj_get ARRAY_PROTOTYPE tier with
          | Some n => (0 <? n)%nat
          | None => inherited_nonempty (object_prototype tier)
          end
    end.

(** [winnersObj.tiers[t] && winnersObj.tiers[t].length > 0]: an own member
    of the tier object is an array; without one the lookup goes on in the
    prototype. *)
Definition tier_drawn (st : State) (t : loc) (tier : string) : bool :=
  match obj_get (object_at st t) tier with
  | Some l => (0 <? length (array_at st l))%nat
  | None =>
      match protos st !! t with
      | Some p => array_member_nonempty (array_at st p) tier
      | None => inherited_nonempty (object_prototype tier)
      end
  end.

(** [selectWinners(participants, k, randBase)] for a [k] that may be [NaN]:
    then [i < k] fails at once and [slice(0, k)] is [slice(0, 0)], which is
    how the function runs for 0. *)
Definition selectWinners_num (participants : loc) (k : option Z) (randBase : bytes)
  : M loc :=
  selectWinners participants (default 0 k) randBase.

(** POST /api/drawTier.  A member of [Object.prototype] found as the session
    has no [revealedSeed]; found as the winners record it has no [tiers],
    and found as the list no [filter], so that the handler throws. *)
Definition drawTier (now : Z) (sessionId tier : string) (count : option Z) : M Response :=
  if negb (truthy sessionId) || negb (truthy tier) then
    mret (Error 400 "sessionId and tier are required")
  else
    s ← gets (fun st => dict_get (sessions st) sessionId);
    match s with
    | Missing => mret (Error 404 "session not found")
    | Inherits _ => mret (Error 400 "seed not revealed")
    | Own session =>
        match seed_of session with
        | None => mret (Error 400 "seed not revealed")
        | Some seed =>
            let target := targetCount tier count in
            w ← gets (fun st => dict_get (winners st) sessionId);
            winnersObj ← match w with
                         | Own r => mret r
                         | Inherits _ => throw
                         | Missing =>
                             a ← new_array [];
                             t ← new_object [];
                             _ ← modify (set_winners (<[sessionId := mkWinners a t]>));
                             mret (mkWinners a t)
                         end;
            already ← gets (fun st => tier_drawn st (tiers winnersObj) tier);
            if already : bool
            then mret (Error 400 ("tier " +:+ tier +:+ " already drawn")) else
            p ← gets (fun st => dict_get (participants st) sessionId);
            list ← match p with
                   | Own l => get_array l
                   | Inherits _ => throw
                   | Missing => mret []
                   end;
            drawnSet ← get_array (all winnersObj);
            remaining ← new_array (filter (fun u => negb (includes drawnSet u)) list);
            rem ← get_array remaining;
            if (length rem =? 0)%nat then mret (Error 400 "no participants remaining") else
            let n := min_target target (Z.of_nat (length rem)) in
            tip ← Blockchain.getLatestHash;
            let randBase := sha256 (utf8 (tip +:+ seed +:+ tier)) in
            winnersList ← selectWinners_num remaining n randBase;
            _ ← set_property (tiers winnersObj) tier winnersList;
            wl ← get_array winnersList;
            _ ← push (all winnersObj) wl;
            d ← gets (fun st => forallb (tier_drawn st (tiers winnersObj)) (obj_keys DEFAULT_COUNTS));
            _ ← update_session sessionId (set_drawn d);
            _ ← Blockchain.addBlock now
                  (TIER_DRAWN sessionId tier winnersList (to_hex randBase));
            wl' ← get_array winnersList;
            mret (TierResult wl' tier)
        end
    end.

(** The callback of [users.forEach] in /api/importParticipants. *)
Fixpoint import_each (users : list string) (list added : loc) : M unit :=
  match users with
  | [] => mret tt
  | user :: users' =>
      let u := trim user in
      a ← get_array list;
      _ ← (if truthy u && negb (includes a (Some u)) then
             _ ← push list [Some u]; push added [Some u]
           else mret tt);
      import_each users' list added
  end.

(** The same callback when [list] is a member of [Object.prototype]: it
    has no [includes], so the first user whose trimmed name is not empty
    makes the call throw. *)
Fixpoint import_each_onto (users : list string) : M unit :=
  match users with
  | [] => mret tt
  | user :: users' =>
      if truthy (trim user) then throw else import_each_onto users'
  end.

(** POST /api/importParticipants.  When [list] is a member of
    [Object.prototype] and no user made the loop throw, the assignment
    [state.participants[sessionId] = list] stores that member under its
    own name (or, under [__proto__], sets the prototype to what it is
    already): every read finds the same value as before and
    [JSON.stringify] leaves a function out, so the dictionary of arrays
    stays as it is. *)
Definition importParticipants (now : Z) (sessionId : string) (users : list string)
  : M Response :=
  if negb (truthy sessionId) then
    mret (Error 400 "sessionId and users array are required")
  else
    s ← gets (fun st => dict_get (sessions st) sessionId);
    match s with
    | Missing => mret (Error 404 "session not found")
    | Own _ | Inherits _ =>
        list ← participants_or_new sessionId;
        added ← new_array [];
        match list with
        | inr i =>
            _ ← import_each_onto users;
            ad ← get_array added;
            mret (ImportedOnto i ad)
        | inl list =>
            _ ← import_each users list added;
            _ ← modify (set_participants (<[sessionId := list]>));
            ad ← get_array added;
            _ ← (if (0 <? length ad)%nat then
                   _ ← Blockchain.addBlock now (USERS_IMPORTED sessionId added); mret tt
                 else mret tt);
            l ← get_array list;
            mret (ImportResult l ad)
        end
    end.

(** *** Requests and the engine *)

Inductive Request :=
  | CreateSession (nowId now : Z) (name seedHash : string)
  | Enter (now : Z) (sessionId user : string)
  | RevealSeed (now : Z) (sessionId seed : string)
  | Draw (now : Z) (sessionId : string) (numWinners : option Z)
         (tierCounts : option (list (string * string)))
  | DrawTier (now : Z) (sessionId tier : string) (count : option Z)
  | ImportParticipants (now : Z) (sessionId : string) (users : list string).

Definition handler (r : Request) : M Response :=
  match r with
  | CreateSession nowId now name sh => createSession nowId now name sh
  | Enter now sid user => enter now sid user
  | RevealSeed now sid seed => revealSeed now sid seed
  | Draw now sid nw tc => draw now sid nw tc
  | DrawTier now sid tier count => drawTier now sid tier count
  | ImportParticipants now sid users => importParticipants now sid users
  end.

(** The [try { .. } catch (err) { sendJSON(res, 500, ..) }] around the
    handlers. *)
Definition requestListener (r : Request) (st : State) : Response * State :=
  match handler r st with
  | (Some resp, st') => (resp, st')
  | (None, st') => (Error 500 "Server error", st')
  end.

(** The state after module initialisation: empty [state], and
    [new Blockchain()] at clock reading [now0]. *)
Definition empty_state : State := mkState ∅ ∅ ∅ [] [] [] ∅.
Definition initial_state (now0 : Z) : State :=
  (Blockchain.createGenesisBlock now0 empty_state).2.

Definition step (st : State) (r : Request) : State := (requestListener r st).2.
Definition run (now0 : Z) (rs : list Request) : State := foldl step (initial_state now0) rs.

(** States the server reaches from a fresh start. *)
Definition reachable (st : State) : Prop := exists now0 rs, st = run now0 rs.

(** * Definitions used in the statements *)

(** ** selectWinners as a function of the array contents *)

(** The random number of step [i]: total, as a digest has 32 bytes. *)
Definition rnd (randBase : bytes) (i : Z) : Z :=
  default 0 (readUInt32BE (sha256 (randBase ++ counter_byte i))).

(** The subscript [j] of step [i], [None] standing for [NaN]. *)
Definition pick (randBase : bytes) (n i : Z) : option Z :=
  js_add (js_rem (rnd randBase i) (n - i)) i.

(** The loop body on the contents of [arr] and its ["NaN"] property. *)
Definition swap_pure (n : Z) (randBase : bytes) (i : Z) (s : list jsval * jsval)
  : list jsval * jsval :=
  let j := pick randBase n i in
  let temp := arr_get s.1 s.2 (Some i) in
  let s1 := arr_set s.1 s.2 (Some i) (arr_get s.1 s.2 j) in
  arr_set s1.1 s1.2 j temp.

Fixpoint shuffle (count : nat) (i n : Z) (randBase : bytes) (s : list jsval * jsval)
  : list jsval * jsval :=
  match count with
  | O => s
  | S count' => shuffle count' (i + 1) n randBase (swap_pure n randBase i s)
  end.

(** The local array after the loop, and the slice that is returned. *)
Definition shuffled (src : list jsval) (k : Z) (randBase : bytes) : list jsval :=
  (shuffle (Z.to_nat k) 0 (Z.of_nat (length src)) randBase (src, undefined)).1.

Definition selected (src : list jsval) (k : Z) (randBase : bytes) : list jsval :=
  slice0 (shuffled src k randBase) k.

(** ** The selection algorithm in the words of the specification

    [select(candidates, material, k)]: a partial Fisher-Yates shuffle of the
    first [k] positions.  Step [i] draws
    [j = i + (uint32(H(material ++ encode(i))) mod (n - i))] and swaps
    positions [i] and [j]; the winners are the first [k] positions after all
    swaps.  [uint32] is the big-endian number in the first four bytes of the
    digest and [encode(i)] the counter as one byte. *)
Module Spec.

Definition uint32 (d : bytes) : Z :=
  match d with
  | b0 :: b1 :: b2 :: b3 :: _ => b0 * 16777216 + b1 * 65536 + b2 * 256 + b3
  | _ => 0
  end.

Definition encode (i : nat) : bytes := [Z.of_nat i mod 256].

Definition position (material : bytes) (n i : nat) : nat :=
  Z.to_nat (Z.of_nat i
            + uint32 (sha256 (material ++ encode i)) mod (Z.of_nat n - Z.of_nat i)).

Definition swap (c : list string) (i j : nat) : list string :=
  match c !! i, c !! j with
  | Some x, Some y => <[j := x]> (<[i := y]> c)
  | _, _ => c
  end.

Fixpoint steps (count i : nat) (material : bytes) (c : list string) : list string :=
  match count with
  | O => c
  | S count' => steps count' (S i) material (swap c i (position material (length c) i))
  end.

Definition select (candidates : list string) (material : bytes) (k : nat) : list string :=
  take k (steps k 0 material candidates).

End Spec.

(** ** What a session looks like from outside *)

(** [state.participants[id]], [state.winners[id].all] and
    [state.winners[id].tiers] with the arrays read from the store. *)
Definition participants_of (st : State) (sid : string) : list jsval :=
  match participants st !! sid with
  | Some p => array_at st p
  | None => []
  end.

Definition allWinners_of (st : State) (sid : string) : list jsval :=
  match winners st !! sid with
  | Some w => array_at st (all w)
  | None => []
  end.

Definition tierWinners_of (st : State) (sid : string) : object (list jsval) :=
  match winners st !! sid with
  | Some w => snapshot_tiers st (tiers w)
  | None => []
  end.

(** The list that an assignment to the key [__proto__] has made the
    prototype of the tier object [t]: it is no member of the object, and
    [JSON.stringify] leaves it out. *)
Definition proto_tier (st : State) (t : loc) : list jsval :=
  match protos st !! t with
  | Some p => array_at st p
  | None => []
  end.

Definition protoWinners_of (st : State) (sid : string) : list jsval :=
  match winners st !! sid with
  | Some w => proto_tier st (tiers w)
  | None => []
  end.

(** Among tier lists drawn in turn, the one that ends as the prototype: the
    last one drawn for the key [__proto__]. *)
Definition proto_entry (ts : list (string * list jsval)) : option (list jsval) :=
  last (filter (fun kv => kv.1 = "__proto__") ts).*2.

(** ** Concrete inputs: two small stores and a session played from a fresh
    start *)

Definition three_candidates : State :=
  mkState ∅ ∅ ∅ [[Some "a"; Some "b"; Some "c"]] [] [] ∅.

Definition one_candidate : State := mkState ∅ ∅ ∅ [[Some "a"]] [] [] ∅.

Definition committed : string := sha256_hex "s3cr3t".

Definition enrolled : list Request :=
  [ CreateSession 2000 2001 "gala" committed;
    Enter 2002 "2000" "a"; Enter 2003 "2000" "b"; Enter 2004 "2000" "c" ].

Definition revealed : list Request := enrolled ++ [RevealSeed 2005 "2000" "s3cr3t"].

Definition single_drawn : list Request := revealed ++ [Draw 2006 "2000" (Some 1) None].

Definition then_first_tier : list Request :=
  single_drawn ++ [DrawTier 2007 "2000" "first" (Some 1)].


(** ** Well-formed stores *)

(** [String(n)] starts with a digit or a minus sign, so that it names no
    member of [Object.prototype]. *)
Definition numeric_head (s : string) : bool :=
  match s with
  | String c _ => is_digit c || Ascii.eqb c "-"
  | EmptyString => false
  end.

(** What holds of every state the server reaches: the chain has its genesis
    block, stored references point into the store, no participants array is
    the [all] array of a winners record, every session has a non-empty
    id, a winners record and a participants array, and no key of the three
    dictionaries names a member of [Object.prototype]. *)
Record wf (st : State) : Prop := mk_wf {
  wf_chain : chain st <> [];
  wf_participants : forall sid p,
    participants st !! sid = Some p -> (p < length (arrays st))%nat;
  wf_winners : forall sid w,
    winners st !! sid = Some w ->
    (all w < length (arrays st))%nat /\ (tiers w < length (objects st))%nat;
  wf_separate : forall sid sid' p w,
    participants st !! sid = Some p -> winners st !! sid' = Some w -> p <> all w;
  wf_session_winners : forall sid,
    is_Some (sessions st !! sid) -> is_Some (winners st !! sid);
  wf_session_participants : forall sid,
    is_Some (sessions st !! sid) -> is_Some (participants st !! sid);
  wf_ids : forall sid, is_Some (sessions st !! sid) -> sid <> "";
  wf_plain : forall sid,
    is_Some (sessions st !! sid) \/ is_Some (participants st !! sid)
    \/ is_Some (winners st !! sid) ->
    object_prototype sid = None
}.

(** What a draw request may do to the state: *)
Record effect (sid : string) (st st' : State) : Prop := mk_effect {
  eff_participants : participants st' = participants st;
  eff_sessions : set_drawn false <$> sessions st' = set_drawn false <$> sessions st;
  eff_winners :
    winners st' = winners st
    \/ exists w', winners st' = <[sid := w']> (winners st)
                  /\ (length (arrays st) <= all w' < length (arrays st'))%nat
                  /\ (tiers w' < length (objects st'))%nat
                  /\ is_Some (sessions st !! sid);
  eff_objects : (length (objects st) <= length (objects st'))%nat;
  eff_arrays_len : (length (arrays st) <= length (arrays st'))%nat;
  eff_arrays : forall l,
    (l < length (arrays st))%nat ->
    (forall w, winners st !! sid = Some w -> l <> all w) ->
    arrays st' !! l = arrays st !! l;
  eff_chain : chain st' = chain st \/ exists b, chain st' = chain st ++ [b]
}.

(** The conditions under which a tier draw goes through. *)
Definition drawTier_ready (st : State) (sid tier : string)
    (session : Session) (seed : string) (w : WinnersRec) (lastBlock : Block) : Prop :=
  sid <> "" /\ tier <> ""
  /\ sessions st !! sid = Some session
  /\ seed_of session = Some seed
  /\ winners st !! sid = Some w
  /\ tier_drawn st (tiers w) tier = false
  /\ last (chain st) = Some lastBlock
  /\ filter (fun u => negb (includes (array_at st (all w)) u)) (participants_of st sid) <> [].

(** The tier loop of /api/draw: it leaves the arrays below [base] alone when
    the array it pushes to lies at or above [base]. *)
Record loop_frame (base : nat) (st st' : State) : Prop := mk_loop_frame {
  lf_sessions : sessions st' = sessions st;
  lf_participants : participants st' = participants st;
  lf_winners : winners st' = winners st;
  lf_chain : chain st' = chain st;
  lf_objects : length (objects st') = length (objects st);
  lf_len : (length (arrays st) <= length (arrays st'))%nat;
  lf_arrays : forall l, (l < base)%nat -> arrays st' !! l = arrays st !! l
}.

(** ** The links of the chain *)

(** Block 0 has index 0 and previous hash "0"; every later block carries the
    hash stored in the block before it, and the next index. *)
Fixpoint linked_from (prev : Block) (rest : list Block) : Prop :=
  match rest with
  | [] => True
  | b :: rest' =>
      previousHash b = hash prev /\ index b = index prev + 1 /\ linked_from b rest'
  end.

Definition linked (c : list Block) : Prop :=
  match c with
  | [] => False
  | b0 :: rest => previousHash b0 = "0" /\ index b0 = 0 /\ linked_from b0 rest
  end.

Definition keeps_linked {A} (m : M A) : Prop :=
  forall st, linked (chain st) -> linked (chain (m st).2).

(** ** Draw requests *)

Definition draw_request (r : Request) : bool :=
  match r with
  | Draw _ _ _ _ | DrawTier _ _ _ _ => true
  | _ => false
  end.

Definition session_of (r : Request) : string :=
  match r with
  | CreateSession nowId _ _ _ => pretty nowId
  | Enter _ sid _ | RevealSeed _ sid _ | Draw _ sid _ _
  | DrawTier _ sid _ _ | ImportParticipants _ sid _ => sid
  end.

(** [participants - allWinners], in the order of enrolment. *)
Definition remaining_of (st : State) (sid : string) : list jsval :=
  filter (fun u => negb (includes (allWinners_of st sid) u)) (participants_of st sid).

(** The material of a tier draw: the digest of tip, seed and tier name. *)
Definition tier_material (tip seed tier : string) : bytes :=
  sha256 (utf8 (tip +:+ seed +:+ tier)).

(** * Definitions used in the further properties *)

(** ** Blocks a computation appends *)

(** [m] leaves the blocks of the chain in place and appends at most [k]. *)
Definition appends (k : nat) {A} (m : M A) : Prop :=
  forall st, exists more,
    chain (m st).2 = chain st ++ more /\ (length more <= k)%nat.

(** ** server.js: generateSeed *)

(** [generateSeed()], where [random] is what [crypto.randomBytes(32)]
    returns: the seed is its hexadecimal text, the hash is taken of that
    text. *)
Definition generateSeed (random : bytes) : string * string :=
  let seed := to_hex random in
  let seedHash := sha256_hex seed in
  (seed, seedHash).

(** ** Refused requests *)

(** A request that was refused left the dictionaries, the tier objects with
    their prototypes and the chain as they were, and the arrays that
    existed as well. *)
Definition unchanged (st st' : State) : Prop :=
  sessions st' = sessions st /\ participants st' = participants st
  /\ winners st' = winners st /\ objects st' = objects st /\ chain st' = chain st
  /\ protos st' = protos st
  /\ exists unused, arrays st' = arrays st ++ unused.

(** How a request ends that is not carried out, for a session id [sid]: with
    an error of status 400 or 404; or, when [sid] names a member of
    [Object.prototype], with an exception or with the answer of an import
    that added nobody. *)
Definition stopped (sid : string) (res : option Response) : Prop :=
  match res with
  | Some (Error status _) => status = 400 \/ status = 404
  | Some (ImportedOnto _ added) => is_Some (object_prototype sid) /\ added = []
  | Some _ => False
  | None => is_Some (object_prototype sid)
  end.


(** ** Rosters *)

(** A list of participants is sound when it holds names only, each once,
    none of them empty. *)
Definition roster_ok (a : list jsval) : Prop :=
  exists c : list string, a = Some <$> c /\ NoDup c /\ "" ∉ c.

(** The loop of /api/importParticipants on the contents of [list] and
    [added]. *)
Fixpoint import_pure (users : list string) (l a : list jsval) : list jsval * list jsval :=
  match users with
  | [] => (l, a)
  | user :: users' =>
      let u := trim user in
      if truthy u && negb (includes l (Some u))
      then import_pure users' (l ++ [Some u]) (a ++ [Some u])
      else import_pure users' l a
  end.

Definition rosters_ok (st : State) : Prop :=
  forall sid, roster_ok (participants_of st sid).

(** ** Whole-session draws *)

(** The material of a whole-session draw: the digest of tip, seed and the
    number of participants in decimal. *)
Definition draw_material (tip seed : string) (n : nat) : bytes :=
  sha256 (utf8 (tip +:+ seed +:+ pretty n)).

(** How many winners [selectWinners] returns for a count [k] that does not
    exceed the [n] candidates. *)
Definition selected_count (n : nat) (k : Z) : nat :=
  Z.to_nat (if k <? 0 then Z.of_nat n + k else k).

(** ** What a block refers to *)

(** The arrays and the tier objects the payload of a block holds by
    reference; the arrays include those its tier object points to. *)
Definition block_arrays (st : State) (d : Payload) : list loc :=
  match d with
  | DRAWN _ w t _ => w :: (object_at st t).*2
  | TIER_DRAWN _ _ w _ => [w]
  | USERS_IMPORTED _ us => [us]
  | _ => []
  end.

Definition block_objects (d : Payload) : list loc :=
  match d with
  | DRAWN _ _ t _ => [t]
  | _ => []
  end.

(** The tier loop of /api/draw on contents: the winners of each tier in
    turn, drawn from what the tiers before it left. *)
Fixpoint tiers_pure (keys : list string) (tc : object string) (randBase : bytes)
    (rem : list jsval) : list (string * list jsval) :=
  match keys with
  | [] => []
  | tier :: keys' =>
      let count := Z.min (num_or (obj_get tc tier ≫= parseInt10) 0)
                         (Z.of_nat (length rem)) in
      if 0 <? count then
        let ws := selected rem count (sha256 (randBase ++ utf8 tier)) in
        (tier, ws) :: tiers_pure keys' tc randBase (filter (fun u => negb (includes ws u)) rem)
      else (tier, []) :: tiers_pure keys' tc randBase rem
  end.

(** [o[k] = v] for each pair in turn. *)
Definition obj_set_all {V} (o : object V) (kvs : list (string * V)) : object V :=
  foldl (fun o kv => obj_set o kv.1 kv.2) o kvs.

(** The members of a tier object after [o[k] = v]: under the key
    [__proto__] they are as before. *)
Definition obj_assign {V} (o : object V) (k : string) (v : V) : object V :=
  if String.eqb k "__proto__" then o else obj_set o k v.

(** The tier lists that become members of the tier object: all but the one
    drawn for a key [__proto__]. *)
Definition member_tiers {V} (ts : list (string * V)) : list (string * V) :=
  filter (fun kv => kv.1 <> "__proto__") ts.

(** ** Blocks whose content can no longer change *)

(** The arrays and objects later requests write to: the participants
    arrays, and, where tier draws are made ([tiered]), the [all] arrays and
    the tier objects of the winners records. *)
Definition may_change_array (tiered : bool) (st : State) (l : loc) : Prop :=
  (exists sid, participants st !! sid = Some l)
  \/ (tiered = true /\ exists sid w, winners st !! sid = Some w /\ all w = l).

Definition may_change_object (tiered : bool) (st : State) (t : loc) : Prop :=
  tiered = true /\ exists sid w, winners st !! sid = Some w /\ tiers w = t.

(** Every block carries the hash of its content, and refers to nothing that
    may change. *)
Record sealed (tiered : bool) (st : State) : Prop := mk_sealed {
  sealed_hash : forall b, b ∈ chain st -> Blockchain.computeHash st b = hash b;
  sealed_arrays : forall b l, b ∈ chain st -> l ∈ block_arrays st (data b) ->
    (l < length (arrays st))%nat /\ ~ may_change_array tiered st l;
  sealed_objects : forall b t, b ∈ chain st -> t ∈ block_objects (data b) ->
    (t < length (objects st))%nat /\ ~ may_change_object tiered st t
}.

Definition is_draw (r : Request) : bool :=
  match r with Draw _ _ _ _ => true | _ => false end.

Definition is_drawTier (r : Request) : bool :=
  match r with DrawTier _ _ _ _ => true | _ => false end.

(** A tier draw for the name [__proto__]. *)
Definition names_proto (r : Request) : bool :=
  match r with DrawTier _ _ tier _ => String.eqb tier "__proto__" | _ => false end.

(** The requests made where [tiered] says which kind of draw is in use. *)
Definition allowed (tiered : bool) (r : Request) : bool :=
  if tiered then negb (is_draw r) else negb (is_drawTier r).

(** ** Tier objects and their prototypes *)

(** The winners stored for a tier of a session: the member of that name of
    the tier object, and for the name [__proto__] the list that replaced the
    prototype of the tier object. *)
Definition stored_tier (st : State) (sid tier : string) : option (list jsval) :=
  match winners st !! sid with
  | Some w =>
      if String.eqb tier "__proto__" then array_at st <$> protos st !! tiers w
      else obj_get (snapshot_tiers st (tiers w)) tier
  | None => None
  end.

(** What every request keeps of the tier objects: a prototype has been
    replaced only on an object of the store; a winners record belongs to a
    session; no tier object has a member named [__proto__]; two sessions do
    not share their tier object; and as long as the seed of a session is not
    revealed, its tier object has no members and the prototype it was made
    with. *)
Record settled (st : State) : Prop := mk_settled {
  settled_protos : forall t,
    is_Some (protos st !! t) -> (t < length (objects st))%nat;
  settled_sessions : forall sid,
    is_Some (winners st !! sid) -> is_Some (sessions st !! sid);
  settled_members : forall sid w,
    winners st !! sid = Some w -> obj_get (object_at st (tiers w)) "__proto__" = None;
  settled_apart : forall sid sid' w w',
    sid <> sid' -> winners st !! sid = Some w -> winners st !! sid' = Some w' ->
    tiers w <> tiers w';
  settled_revealed : forall sid w session,
    winners st !! sid = Some w -> sessions st !! sid = Some session ->
    seed_of session = None ->
    object_at st (tiers w) = [] /\ protos st !! tiers w = None
}.

(** ** Winners records in good order *)

(** What tier draws keep of every winners record: [all] lists nobody twice
    and holds exactly the members of the tier lists and of the list that
    replaced the prototype of the tier object; these lists are arrays of
    their own, which nothing writes to; two sessions share neither their
    [all] array nor their tier object. *)
Record tidy (st : State) : Prop := mk_tidy {
  tidy_distinct : forall sid w,
    winners st !! sid = Some w -> NoDup (array_at st (all w));
  tidy_union : forall sid w,
    winners st !! sid = Some w ->
    concat (snapshot_tiers st (tiers w)).*2 ++ proto_tier st (tiers w)
    ≡ₚ array_at st (all w);
  tidy_tier_arrays : forall sid w l,
    winners st !! sid = Some w ->
    l ∈ (object_at st (tiers w)).*2 \/ protos st !! tiers w = Some l ->
    (l < length (arrays st))%nat /\ ~ may_change_array true st l;
  tidy_apart : forall sid sid' w w',
    sid <> sid' -> winners st !! sid = Some w -> winners st !! sid' = Some w' ->
    all w <> all w' /\ tiers w <> tiers w'
}.

(** ** server.js: getTianxuanSeed *)

(** A value that [JSON.parse] returns; a number is held as a fraction. *)
#[warnings="-register-all"] Inductive json :=
  | JNull
  | JBool (b : bool)
  | JNum (q : QArith_base.Q)
  | JStr (s : string)
  | JArr (items : list json)
  | JObj (members : object json).

(** [v.k] for the keys the function reads ([result], [seed], [random],
    [randomSeed]) on a value other than [null]: the member of an object,
    [undefined] on an array, a string, a number or a boolean. *)
Definition member (v : json) (k : string) : option json :=
  match v with
  | JObj members => obj_get members k
  | _ => None
  end.

(** Truthiness; [None] is [undefined]. *)
Definition js_truthy (v : option json) : bool :=
  match v with
  | None | Some JNull => false
  | Some (JBool b) => b
  | Some (JNum q) => negb (QArith_base.Qnum q =? 0)
  | Some (JStr s) => truthy s
  | Some (JArr _) | Some (JObj _) => true
  end.

(** [a || b]. *)
Definition json_or (a b : option json) : option json := if js_truthy a then a else b.

(** [typeof v === 'object']. *)
Definition is_object (v : json) : bool :=
  match v with
  | JNull | JArr _ | JObj _ => true
  | _ => false
  end.

(** How the request to the gateway ends: with its [error] event, or with
    the [end] of an answer whose body [JSON.parse] reads as [parsed], [None]
    when it throws. *)
Inductive RpcOutcome :=
  | RpcError
  | RpcEnd (parsed : option json).

(** What the promise of [getTianxuanSeed()] resolves with; [random] is what
    [crypto.randomBytes(32)] returns if the fallback asks for it.  On
    [null] the access [json.result] throws, which the [catch] turns into
    the fallback. *)
Definition getTianxuanSeed (outcome : RpcOutcome) (random : bytes) : string * string :=
  match outcome with
  | RpcError => generateSeed random
  | RpcEnd None => generateSeed random
  | RpcEnd (Some JNull) => generateSeed random
  | RpcEnd (Some json) =>
      let result := member json "result" in
      let seed :=
        match result with
        | Some (JStr s) => Some (JStr s)
        | Some r =>
            if js_truthy (Some r) && is_object r
            then json_or (json_or (member r "seed") (member r "random")) (member r "randomSeed")
            else None
        | None => None
        end in
      match seed with
      | Some (JStr s) =>
          if js_truthy seed && (0 <? String.length s)%nat
          then (s, sha256_hex s)
          else generateSeed random
      | _ => generateSeed random
      end
  end.

(** * Properties *)

(** ** Test vectors *)

Example sha256_empty :
  sha256_hex "" = "e3b0c44298fc1c149afbf4c8996fb92427ae41e4649b934ca495991b7852b855".
Proof. vm_compute. reflexivity. Qed.

Example sha256_abc :
  sha256_hex "abc" = "ba7816bf8f01cfea414140de5dae2223b00361a396177a9cb410ff61f20015ad".
Proof. vm_compute. reflexivity. Qed.

Example sha256_two_blocks :
  sha256_hex "abcdbcdecdefdefgefghfghighijhijkijkljklmklmnlmnomnopnopq"
  = "248d6a61d20638b8e5c026930c3e6039a33ce45964ff2167f6ecedd419db06c1".
Proof. vm_compute. reflexivity. Qed.

Example json_obj_example :
  Json.obj [("a", Json.num 12); ("b", Json.array [Some "x"; undefined])]
  = "{" +:+ Json.quote +:+ "a" +:+ Json.quote +:+ ":12,"
        +:+ Json.quote +:+ "b" +:+ Json.quote +:+ ":["
        +:+ Json.quote +:+ "x" +:+ Json.quote +:+ ",null]}".
Proof. vm_compute. reflexivity. Qed.

Example obj_set_order :
  obj_keys (obj_of_members [("b", 1); ("10", 2); ("a", 3); ("2", 4); ("b", 5); ("02", 6)])
  = ["2"; "10"; "b"; "a"; "02"].
Proof. vm_compute. reflexivity. Qed.

Example trim_example :
  trim (of_bytes [32; 9; 0xE3; 0x80; 0x80; 97; 32; 98; 0xC2; 0xA0; 10]%N) = "a b".
Proof. vm_compute. reflexivity. Qed.

(** ** Digests *)

Lemma be_bytes_length w x : length (Sha256.be_bytes w x) = w.
Proof.
  unfold Sha256.be_bytes.
  by rewrite length_map, length_rev, length_seq.
Qed.

Lemma be_bytes_range w x : Forall (fun b => 0 <= b < 256) (Sha256.be_bytes w x).
Proof.
  unfold Sha256.be_bytes. apply Forall_map, Forall_forall. intros i _. simpl.
  change 255 with (Z.ones 8). rewrite Z.land_ones by lia.
  by apply Z.mod_pos_bound.
Qed.

Lemma sha256_length msg : length (sha256 msg) = 32%nat.
Proof.
  unfold sha256, Sha256.digest, Sha256.output. cbn [flat_map].
  rewrite !length_app, !be_bytes_length. reflexivity.
Qed.

Lemma sha256_range msg : Forall (fun b => 0 <= b < 256) (sha256 msg).
Proof.
  unfold sha256, Sha256.digest, Sha256.output.
  apply Forall_flat_map, Forall_forall. intros x _. apply be_bytes_range.
Qed.

Lemma lor_shiftl_byte acc x :
  0 <= x < 256 -> Z.lor (Z.shiftl acc 8) x = acc * 256 + x.
Proof.
  intros Hx.
  assert (Hland : Z.land (Z.shiftl acc 8) x = 0).
  { apply Z.bits_inj'. intros n Hn. rewrite Z.land_spec, Z.bits_0.
    destruct (Z.ltb_spec n 8).
    - by rewrite Z.shiftl_spec_low.
    - replace x with (x mod 2 ^ 8) by (apply Z.mod_small; lia).
      rewrite Z.mod_pow2_bits_high by lia. apply andb_false_r. }
  pose proof (Z.add_lor_land (Z.shiftl acc 8) x) as H.
  rewrite Hland in H. rewrite Z.add_0_r in H. rewrite H.
  rewrite Z.shiftl_mul_pow2 by lia. reflexivity.
Qed.

(** The 32-bit value the source decodes is the big-endian number. *)
Lemma be_value_four b0 b1 b2 b3 :
  0 <= b0 < 256 -> 0 <= b1 < 256 -> 0 <= b2 < 256 -> 0 <= b3 < 256 ->
  Sha256.be_value [b0; b1; b2; b3] 0
  = b0 * 16777216 + b1 * 65536 + b2 * 256 + b3.
Proof.
  intros. cbn [Sha256.be_value].
  rewrite !lor_shiftl_byte by lia. lia.
Qed.

Lemma readUInt32BE_sha256 msg :
  exists v, readUInt32BE (sha256 msg) = Some v /\ 0 <= v < 4294967296.
Proof.
  pose proof (sha256_length msg) as Hlen.
  pose proof (sha256_range msg) as Hr.
  destruct (sha256 msg) as [|b0 [|b1 [|b2 [|b3 rest]]]]; try discriminate.
  eexists. split; [reflexivity|].
  repeat (apply Forall_cons in Hr as [? Hr]).
  rewrite be_value_four by lia. lia.
Qed.

Lemma rnd_range randBase i : 0 <= rnd randBase i < 4294967296.
Proof.
  unfold rnd. destruct (readUInt32BE_sha256 (randBase ++ counter_byte i)) as (v & -> & ?).
  done.
Qed.

Lemma draw_index_pick randBase n i :
  draw_index randBase n i = Some (pick randBase n i).
Proof.
  unfold draw_index, pick, rnd.
  destruct (readUInt32BE_sha256 (randBase ++ counter_byte i)) as (v & -> & ?).
  reflexivity.
Qed.

Lemma pick_in_range randBase n i :
  0 <= i < n ->
  exists j, pick randBase n i = Some j /\ i <= j < n
            /\ j = i + rnd randBase i mod (n - i).
Proof.
  intros Hi. unfold pick, js_rem.
  destruct (Z.eqb_spec (n - i) 0); [lia|].
  pose proof (rnd_range randBase i).
  rewrite Z.rem_mod_nonneg by lia. simpl.
  eexists. split; [reflexivity|].
  pose proof (Z.mod_pos_bound (rnd randBase i) (n - i)). lia.
Qed.

(** ** Running the monad *)

Lemma bind_run {A B} (m : M A) (f : A -> M B) st :
  (m ≫= f) st = match m st with
                | (Some a, st') => f a st'
                | (None, st') => (None, st')
                end.
Proof. reflexivity. Qed.

Lemma state_eta st :
  mkState (sessions st) (participants st) (winners st) (arrays st) (objects st) (chain st)
    (protos st) = st.
Proof. by destruct st. Qed.

Lemma array_at_app_l st l (more : list (list jsval)) :
  (l < length (arrays st))%nat ->
  default [] ((arrays st ++ more) !! l) = array_at st l.
Proof. intros. unfold array_at. by rewrite lookup_app_l. Qed.

Lemma array_at_alloc st a :
  array_at (set_arrays (fun h => h ++ [a]) st) (length (arrays st)) = a.
Proof.
  unfold array_at, set_arrays. cbn [arrays].
  by rewrite lookup_app_r, Nat.sub_diag by lia.
Qed.

(** ** selectWinners as a function of the array contents *)

Lemma swap_step_run arr n randBase i nanp st :
  swap_step arr n randBase i nanp st
  = (Some (swap_pure n randBase i (array_at st arr, nanp)).2,
     set_arrays (fun h => <[arr := (swap_pure n randBase i (array_at st arr, nanp)).1]> h) st).
Proof.
  unfold swap_step. rewrite bind_run, draw_index_pick. cbn [of_option mret M_ret].
  unfold swap_pure. cbn [fst snd].
  rewrite bind_run. cbn [get_array gets].
  destruct (arr_set (array_at st arr) nanp (Some i)
              (arr_get (array_at st arr) nanp (pick randBase n i))) as [a1 nanp1].
  cbn [fst snd].
  destruct (arr_set a1 nanp1 (pick randBase n i)
              (arr_get (array_at st arr) nanp (Some i))) as [a2 nanp2].
  reflexivity.
Qed.

Lemma array_at_insert st l a :
  (l < length (arrays st))%nat ->
  array_at (set_arrays (fun h => <[l := a]> h) st) l = a.
Proof.
  intros. unfold array_at, set_arrays. cbn [arrays].
  by rewrite list_lookup_insert_eq.
Qed.

Lemma for_loop_run count : forall i arr n randBase nanp st,
  (arr < length (arrays st))%nat ->
  for_loop count i (swap_step arr n randBase) nanp st
  = (Some tt,
     set_arrays (fun h => <[arr := (shuffle count i n randBase (array_at st arr, nanp)).1]> h) st).
Proof.
  induction count as [|count IH]; intros i arr n randBase nanp st Harr.
  - cbn [for_loop shuffle fst mret M_ret]. f_equal.
    unfold set_arrays, array_at.
    destruct (lookup_lt_is_Some_2 (arrays st) arr Harr) as [a Ha].
    rewrite Ha. cbn [default]. rewrite list_insert_id by done. by rewrite state_eta.
  - cbn [for_loop shuffle]. rewrite bind_run, swap_step_run.
    rewrite IH by (unfold set_arrays; cbn [arrays]; by rewrite length_insert).
    rewrite array_at_insert by done.
    f_equal. unfold set_arrays. cbn [sessions participants winners arrays objects chain].
    rewrite list_insert_insert_eq.
    by destruct (swap_pure n randBase i (array_at st arr, nanp)).
Qed.

Lemma selectWinners_run p k randBase st :
  selectWinners p k randBase st
  = (Some (S (length (arrays st))),
     set_arrays (fun h => h ++ [shuffled (array_at st p) k randBase;
                                selected (array_at st p) k randBase]) st).
Proof.
  unfold selectWinners.
  rewrite bind_run. cbn [get_array gets].
  rewrite bind_run. cbn [new_array].
  rewrite bind_run, for_loop_run
    by (unfold set_arrays; cbn [arrays]; rewrite length_app; simpl; lia).
  rewrite bind_run. cbn [get_array gets new_array].
  rewrite array_at_insert
    by (unfold set_arrays; cbn [arrays]; rewrite length_app; simpl; lia).
  unfold set_arrays. cbn [sessions participants winners arrays objects chain protos].
  assert (Hsrc : array_at
            {| sessions := sessions st; participants := participants st;
               winners := winners st; arrays := arrays st ++ [array_at st p];
               objects := objects st; chain := chain st; protos := protos st |}
            (length (arrays st))
          = array_at st p).
  { unfold array_at at 1. cbn [arrays].
    by rewrite lookup_app_r, Nat.sub_diag by lia. }
  rewrite Hsrc.
  fold (shuffled (array_at st p) k randBase).
  fold (selected (array_at st p) k randBase).
  unfold new_array, set_arrays.
  cbn [sessions participants winners arrays objects chain protos].
  rewrite length_insert, length_app. cbn [length].
  replace (length (arrays st) + 1)%nat with (S (length (arrays st))) by lia.
  f_equal. f_equal.
  replace (length (arrays st)) with (length (arrays st) + 0)%nat at 1 by lia.
  rewrite insert_app_r. cbn. by rewrite <- app_assoc.
Qed.

(** ** The source function against the specified selection *)

Lemma spec_swap_length c i j : length (Spec.swap c i j) = length c.
Proof.
  unfold Spec.swap. destruct (c !! i), (c !! j); try done.
  by rewrite !length_insert.
Qed.

Lemma spec_swap_perm c i j : Spec.swap c i j ≡ₚ c.
Proof.
  unfold Spec.swap. destruct (c !! i) eqn:Hi, (c !! j) eqn:Hj; try done.
  by apply Permutation_insert_swap.
Qed.

Lemma spec_steps_perm count : forall i material c, Spec.steps count i material c ≡ₚ c.
Proof.
  induction count as [|count IH]; intros i material c; [done|].
  cbn [Spec.steps]. rewrite IH. apply spec_swap_perm.
Qed.

Lemma spec_steps_length count i material c :
  length (Spec.steps count i material c) = length c.
Proof. apply Permutation_length, spec_steps_perm. Qed.

Lemma rnd_spec randBase i :
  rnd randBase (Z.of_nat i) = Spec.uint32 (sha256 (randBase ++ Spec.encode i)).
Proof.
  unfold rnd, Spec.encode, counter_byte.
  change 255 with (Z.ones 8). rewrite Z.land_ones by lia. change (2 ^ 8) with 256.
  set (d := sha256 _).
  pose proof (sha256_length (randBase ++ [Z.of_nat i mod 256])) as Hlen.
  pose proof (sha256_range (randBase ++ [Z.of_nat i mod 256])) as Hr.
  fold d in Hlen, Hr.
  destruct d as [|b0 [|b1 [|b2 [|b3 rest]]]]; try discriminate.
  repeat (apply Forall_cons in Hr as [? Hr]).
  cbn [readUInt32BE default Spec.uint32]. by apply be_value_four.
Qed.

(** One step of the source loop, on an array of strings and inside its
    bounds, is the swap of the specification. *)
Lemma swap_pure_spec randBase (c : list string) (i : nat) :
  (i < length c)%nat ->
  swap_pure (Z.of_nat (length c)) randBase (Z.of_nat i) (Some <$> c, undefined)
  = (Some <$> Spec.swap c i (Spec.position randBase (length c) i), undefined).
Proof.
  intros Hi.
  destruct (pick_in_range randBase (Z.of_nat (length c)) (Z.of_nat i)) as (j & Hj & Hr & Hjv);
    [lia|].
  assert (Hpos : Spec.position randBase (length c) i = Z.to_nat j).
  { unfold Spec.position. by rewrite <- rnd_spec, <- Hjv. }
  rewrite Hpos. unfold swap_pure. rewrite Hj. cbn [fst snd].
  destruct (lookup_lt_is_Some_2 c i Hi) as [x Hx].
  destruct (lookup_lt_is_Some_2 c (Z.to_nat j)) as [y Hy]; [lia|].
  unfold Spec.swap. rewrite Hx, Hy.
  unfold arr_get, arr_set.
  destruct (Z.ltb_spec (Z.of_nat i) 0); [lia|].
  destruct (Z.ltb_spec j 0); [lia|].
  rewrite Nat2Z.id, !list_lookup_fmap, Hx, Hy. cbn [fmap option_fmap option_map default fst snd].
  unfold arr_write.
  pose proof (length_fmap Some c) as Hlen.
  destruct (decide (i < length (Some <$> c))%nat); [|lia].
  rewrite decide_True by (rewrite length_insert; lia).
  by rewrite !list_fmap_insert.
Qed.

Lemma shuffle_spec randBase count : forall (i : nat) (c : list string),
  (i + count <= length c)%nat ->
  shuffle count (Z.of_nat i) (Z.of_nat (length c)) randBase (Some <$> c, undefined)
  = (Some <$> Spec.steps count i randBase c, undefined).
Proof.
  induction count as [|count IH]; intros i c Hle; [done|].
  cbn [shuffle Spec.steps].
  rewrite swap_pure_spec by lia.
  replace (Z.of_nat i + 1) with (Z.of_nat (S i)) by lia.
  rewrite <- (spec_swap_length c i (Spec.position randBase (length c) i)) at 1.
  rewrite IH by (rewrite spec_swap_length; lia).
  reflexivity.
Qed.

(** Within its domain the source function computes the specified one. *)
Lemma selected_spec (c : list string) (k : nat) randBase :
  (k <= length c)%nat ->
  selected (Some <$> c) (Z.of_nat k) randBase = Some <$> Spec.select c randBase k.
Proof.
  intros Hk. unfold selected, shuffled, Spec.select.
  rewrite length_fmap, Nat2Z.id.
  change 0 with (Z.of_nat 0).
  rewrite (shuffle_spec randBase k 0 c) by lia. cbn [fst].
  unfold slice0. destruct (Z.ltb_spec (Z.of_nat k) 0); [lia|].
  by rewrite Nat2Z.id, fmap_take.
Qed.

Lemma spec_select_length c material k :
  (k <= length c)%nat -> length (Spec.select c material k) = k.
Proof.
  intros. unfold Spec.select. rewrite length_take, spec_steps_length. lia.
Qed.

Lemma spec_select_subseteq c material k : Spec.select c material k ⊆ c.
Proof.
  intros x Hx. unfold Spec.select in Hx.
  apply subseteq_take in Hx. by rewrite spec_steps_perm in Hx.
Qed.

Lemma spec_select_NoDup c material k : NoDup c -> NoDup (Spec.select c material k).
Proof.
  intros Hc. unfold Spec.select.
  eapply sublist_NoDup; [|apply sublist_take].
  by rewrite spec_steps_perm.
Qed.

(** ** Assignments to a tier object *)

Lemma assign_sessions l k v st : sessions (assign l k v st) = sessions st.
Proof. unfold assign. by destruct (String.eqb k "__proto__"). Qed.

Lemma assign_participants l k v st : participants (assign l k v st) = participants st.
Proof. unfold assign. by destruct (String.eqb k "__proto__"). Qed.

Lemma assign_winners l k v st : winners (assign l k v st) = winners st.
Proof. unfold assign. by destruct (String.eqb k "__proto__"). Qed.

Lemma assign_arrays l k v st : arrays (assign l k v st) = arrays st.
Proof. unfold assign. by destruct (String.eqb k "__proto__"). Qed.

Lemma assign_chain l k v st : chain (assign l k v st) = chain st.
Proof. unfold assign. by destruct (String.eqb k "__proto__"). Qed.

Lemma assign_objects l k v st :
  objects (assign l k v st)
  = if String.eqb k "__proto__" then objects st
    else <[l := obj_set (object_at st l) k v]> (objects st).
Proof. unfold assign. by destruct (String.eqb k "__proto__"). Qed.

Lemma assign_protos l k v st :
  protos (assign l k v st)
  = if String.eqb k "__proto__" then <[l := v]> (protos st) else protos st.
Proof. unfold assign. by destruct (String.eqb k "__proto__"). Qed.

Lemma assign_objects_length l k v st :
  length (objects (assign l k v st)) = length (objects st).
Proof.
  rewrite assign_objects. destruct (String.eqb k "__proto__"); [done|].
  by rewrite length_insert.
Qed.

Lemma array_at_assign l k v st a : array_at (assign l k v st) a = array_at st a.
Proof. unfold array_at. by rewrite assign_arrays. Qed.

Lemma assign_objects_insert l k v st :
  (l < length (objects st))%nat ->
  objects (assign l k v st) = <[l := obj_assign (object_at st l) k v]> (objects st).
Proof.
  intros Hl. rewrite assign_objects. unfold obj_assign.
  destruct (String.eqb k "__proto__"); [|done].
  unfold object_at. destruct (objects st !! l) as [o|] eqn:Ho; cbn.
  - symmetry. by apply list_insert_id.
  - apply lookup_ge_None in Ho. exfalso. apply (Nat.lt_irrefl l).
    eapply Nat.lt_le_trans; [exact Hl|exact Ho].
Qed.

Lemma object_at_assign l k v st :
  (l < length (objects st))%nat ->
  object_at (assign l k v st) l = obj_assign (object_at st l) k v.
Proof.
  intros Hl. unfold object_at at 1. rewrite assign_objects_insert by done.
  by rewrite list_lookup_insert_eq.
Qed.

Lemma object_at_assign_ne l k v st t :
  t <> l -> object_at (assign l k v st) t = object_at st t.
Proof.
  intros Hne. unfold object_at. rewrite assign_objects.
  destruct (String.eqb k "__proto__"); [done|].
  by rewrite list_lookup_insert_ne.
Qed.

(** ** Lookups in the dictionaries *)

Lemma dict_get_own {V} (d : gmap string V) k v : d !! k = Some v -> dict_get d k = Own v.
Proof. intros H. unfold dict_get. by rewrite H. Qed.

Lemma dict_get_Own {V} (d : gmap string V) k v : dict_get d k = Own v <-> d !! k = Some v.
Proof.
  unfold dict_get. destruct (d !! k); [|destruct (object_prototype k)]; split; congruence.
Qed.

Lemma dict_get_Missing {V} (d : gmap string V) k :
  dict_get d k = Missing <-> d !! k = None /\ object_prototype k = None.
Proof.
  unfold dict_get. destruct (d !! k); [|destruct (object_prototype k)].
  - split; [congruence|]. intros [? _]. congruence.
  - split; [congruence|]. intros [_ ?]. congruence.
  - by split.
Qed.

Lemma dict_get_Inherits {V} (d : gmap string V) k i :
  dict_get d k = Inherits i <-> d !! k = None /\ object_prototype k = Some i.
Proof.
  unfold dict_get. destruct (d !! k); [|destruct (object_prototype k)].
  - split; [congruence|]. intros [? _]. congruence.
  - split; [intros [= ->]; by split|]. intros [_ ?]. congruence.
  - split; [congruence|]. intros [_ ?]. congruence.
Qed.

(** ** Claims about selectWinners *)

(** C1.  For a list of distinct candidates held in the array [p], any
    material and any [k] with [0 <= k <= n], [selectWinners] returns a new
    array holding exactly the result of the partial Fisher-Yates shuffle of
    the specification: at step [i] the index is
    [i + uint32(SHA-256(material ++ encode i)) mod (n - i)], positions [i]
    and [j] are swapped, and the first [k] positions after all swaps are
    returned in that order.  The result has [k] elements, all distinct and
    all candidates; the array of candidates itself is left as it was. *)
Theorem selectWinners_partial_fisher_yates
    (st : State) (p : loc) (candidates : list string) (material : bytes) (k : Z) :
  NoDup candidates ->
  arrays st !! p = Some (Some <$> candidates) ->
  0 <= k <= Z.of_nat (length candidates) ->
  exists r st',
    selectWinners p k material st = (Some r, st')
    /\ array_at st' r = Some <$> Spec.select candidates material (Z.to_nat k)
    /\ length (Spec.select candidates material (Z.to_nat k)) = Z.to_nat k
    /\ NoDup (Spec.select candidates material (Z.to_nat k))
    /\ Spec.select candidates material (Z.to_nat k) ⊆ candidates
    /\ array_at st' p = Some <$> candidates.
Proof.
  intros Hnd Hp Hk. rewrite selectWinners_run.
  eexists _, _. split; [reflexivity|].
  assert (Hat : array_at st p = Some <$> candidates) by (unfold array_at; by rewrite Hp).
  split; [|split; [|split; [|split]]];
    [| | | |unfold array_at, set_arrays; cbn [arrays];
            by rewrite (lookup_app_l_Some _ _ _ _ Hp)].
  - unfold array_at at 1, set_arrays. cbn [arrays].
    rewrite lookup_app_r by lia.
    replace (S (length (arrays st)) - length (arrays st))%nat with 1%nat by lia.
    cbn [lookup list_lookup default]. rewrite Hat.
    rewrite <- (Z2Nat.id k) at 1 by lia.
    apply selected_spec. lia.
  - apply spec_select_length. lia.
  - by apply spec_select_NoDup.
  - apply spec_select_subseteq.
Qed.

Lemma selectWinners_partial_fisher_yates_witness :
  exists r st',
    selectWinners 0 2 [1; 2; 3] three_candidates = (Some r, st')
    /\ array_at st' r = Some <$> Spec.select ["a"; "b"; "c"] [1; 2; 3] (Z.to_nat 2)
    /\ length (Spec.select ["a"; "b"; "c"] [1; 2; 3] (Z.to_nat 2)) = Z.to_nat 2
    /\ NoDup (Spec.select ["a"; "b"; "c"] [1; 2; 3] (Z.to_nat 2))
    /\ Spec.select ["a"; "b"; "c"] [1; 2; 3] (Z.to_nat 2) ⊆ ["a"; "b"; "c"]
    /\ array_at st' 0 = Some <$> ["a"; "b"; "c"].
Proof.
  apply (selectWinners_partial_fisher_yates three_candidates 0%nat ["a"; "b"; "c"] [1; 2; 3] 2).
  - apply (bool_decide_unpack _). vm_compute. exact I.
  - reflexivity.
  - simpl. lia.
Defined.

Example select_draw_order :
  Spec.select ["a"; "b"; "c"; "d"; "e"] [1; 2; 3] 3 = ["d"; "a"; "c"].
Proof. vm_compute. reflexivity. Qed.

(** C8, as the code has it.  [selectWinners] never raises, whatever [k] is;
    and with [k = 0] it returns a new empty array and the same state for
    every material: no digest takes part. *)
Theorem selectWinners_never_raises (st : State) (p : loc) (k : Z) (material : bytes) :
  (exists r st', selectWinners p k material st = (Some r, st'))
  /\ (exists r st', array_at st' r = []
        /\ forall material', selectWinners p 0 material' st = (Some r, st')).
Proof.
  split.
  - rewrite selectWinners_run. eauto.
  - exists (S (length (arrays st))),
      (set_arrays (fun h => h ++ [array_at st p; []]) st).
    split; [|intros material'; rewrite selectWinners_run; reflexivity].
    unfold array_at, set_arrays. cbn [arrays].
    rewrite lookup_app_r by lia.
    replace (S (length (arrays st)) - length (arrays st))%nat with 1%nat by lia.
    reflexivity.
Qed.

(** C8 as stated fails: with one candidate and [k = 2] the call is not an
    error.  Step 1 computes [rnd % 0], which is [NaN], and the function
    returns two entries, the second one [undefined]. *)
Lemma selectWinners_beyond_length_returns :
  (selectWinners 0 2 [] one_candidate).1 = Some 2%nat
  /\ array_at (selectWinners 0 2 [] one_candidate).2 2 = [Some "a"; undefined].
Proof. vm_compute. split; reflexivity. Qed.

(** ** Single requests *)

Lemma truthy_true s : s <> "" -> truthy s = true.
Proof. intros H. unfold truthy. by apply negb_true_iff, String.eqb_neq. Qed.

Lemma truthy_true_iff s : truthy s = true <-> s <> "".
Proof. unfold truthy. rewrite negb_true_iff. apply String.eqb_neq. Qed.

Lemma truthy_false_iff s : truthy s = false <-> s = "".
Proof. unfold truthy. rewrite negb_false_iff. apply String.eqb_eq. Qed.

Lemma addBlock_run now d st lastBlock :
  last (chain st) = Some lastBlock ->
  Blockchain.addBlock now d st
  = (Some (Blockchain.seal st (mkBlock (index lastBlock + 1) now d (hash lastBlock) "")),
     set_chain (fun c => c ++ [Blockchain.seal st
                                 (mkBlock (index lastBlock + 1) now d (hash lastBlock) "")]) st).
Proof.
  intros Hl. unfold Blockchain.addBlock.
  rewrite bind_run. cbn [gets]. rewrite Hl. reflexivity.
Qed.

Lemma addBlock_empty now d st :
  chain st = [] -> Blockchain.addBlock now d st = (None, st).
Proof.
  intros Hl. unfold Blockchain.addBlock.
  rewrite bind_run. cbn [gets]. rewrite Hl. reflexivity.
Qed.

(** A mismatching secret is refused and nothing changes. *)
Lemma revealSeed_mismatch st now sessionId seed session :
  sessionId <> "" -> seed <> "" ->
  sessions st !! sessionId = Some session ->
  sha256_hex seed <> seedHash session ->
  requestListener (RevealSeed now sessionId seed) st
  = (Error 400 "seed hash mismatch", st).
Proof.
  intros Hsid Hseed Hs Hne.
  unfold requestListener, handler, revealSeed.
  rewrite (truthy_true _ Hsid), (truthy_true _ Hseed). cbn [negb orb].
  rewrite bind_run. cbn [gets]. unfold dict_get. rewrite Hs.
  apply String.eqb_neq in Hne. rewrite Hne. reflexivity.
Qed.

(** ** The session played from a fresh start *)

Lemma reachable_run now0 rs : reachable (run now0 rs).
Proof. by exists now0, rs. Qed.

(** C2 at a failing input.  After a whole-session draw the chain verifies;
    a tier draw on the same session then pushes onto the array that the
    DRAWN block holds as [winners], and [isValid()] is false. *)
Theorem chain_invalid_after_draw_then_drawTier :
  Blockchain.isValid (run 1000 single_drawn) = true
  /\ (requestListener (DrawTier 2007 "2000" "first" (Some 1)) (run 1000 single_drawn)).1
     = TierResult [Some "a"] "first"
  /\ Blockchain.isValid (run 1000 then_first_tier) = false.
Proof. vm_compute. repeat split; reflexivity. Qed.

(** C6 at a failing input.  After the same two draws the tier list
    [default] and the list of all winners are one array, so the winner of
    tier [first] is also listed under [default]. *)
Theorem winner_in_two_tiers_after_draw_then_drawTier :
  winners (run 1000 then_first_tier) !! "2000" = Some (mkWinners 3 1)
  /\ object_at (run 1000 then_first_tier) 1 = [("default", 3%nat); ("first", 6%nat)]
  /\ allWinners_of (run 1000 then_first_tier) "2000" = [Some "b"; Some "a"]
  /\ tierWinners_of (run 1000 then_first_tier) "2000"
     = [("default", [Some "b"; Some "a"]); ("first", [Some "a"])].
Proof. vm_compute. repeat split; reflexivity. Qed.

(** C4 as stated fails: a second reveal of the same secret is accepted
    and appends a second SEED_REVEALED block. *)
Lemma second_reveal_accepted :
  (requestListener (RevealSeed 2006 "2000" "s3cr3t") (run 1000 revealed)).1 = Revealed
  /\ map data (drop 5 (chain (run 1000 (revealed ++ [RevealSeed 2006 "2000" "s3cr3t"]))))
     = [SEED_REVEALED "2000" "s3cr3t"; SEED_REVEALED "2000" "s3cr3t"].
Proof. vm_compute. split; reflexivity. Qed.

(** C5 as stated fails: enrolling after the reveal is accepted and
    changes both the participants and the chain. *)
Lemma enter_after_reveal_accepted :
  (requestListener (Enter 2006 "2000" "d") (run 1000 revealed)).1
  = ParticipantList [Some "a"; Some "b"; Some "c"; Some "d"]
  /\ participants_of (run 1000 revealed) "2000" = [Some "a"; Some "b"; Some "c"]
  /\ participants_of (run 1000 (revealed ++ [Enter 2006 "2000" "d"])) "2000"
     = [Some "a"; Some "b"; Some "c"; Some "d"]
  /\ length (chain (run 1000 (revealed ++ [Enter 2006 "2000" "d"])))
     = S (length (chain (run 1000 revealed))).
Proof. vm_compute. repeat split; reflexivity. Qed.

(** ** Symbolic execution of the handlers *)

Lemma ret_run {A} (a : A) (st : State) : (mret a : M A) st = (Some a, st).
Proof. reflexivity. Qed.

Ltac mcbn :=
  cbn [gets modify new_array new_object get_array get_object
       put_array throw of_option
       sessions participants winners arrays objects chain protos
       set_sessions set_participants set_winners set_arrays set_objects set_chain
       set_protos
       all tiers fst snd negb orb andb].

Ltac msimpl :=
  rewrite ?ret_run;
  try unfold dict_get;
  mcbn;
  repeat (progress rewrite ?assign_sessions, ?assign_participants, ?assign_winners,
                           ?assign_arrays, ?assign_chain, ?array_at_assign;
          mcbn).

Ltac mstep :=
  first [ rewrite bind_run
        | progress unfold push, set_property, update_session, participants_or_new,
                          Blockchain.getLatestHash ];
  msimpl.

Ltac msteps := repeat first [ mstep | progress msimpl ].

(** A successful tier draw, spelled out: what is read, what is computed and
    every field of the state afterwards. *)
Lemma drawTier_run st now sid tier count session seed w lastBlock :
  sid <> "" -> tier <> "" ->
  sessions st !! sid = Some session ->
  seed_of session = Some seed ->
  winners st !! sid = Some w ->
  tier_drawn st (tiers w) tier = false ->
  last (chain st) = Some lastBlock ->
  let remaining := filter (fun u => negb (includes (array_at st (all w)) u))
                          (participants_of st sid) in
  let material := sha256 (utf8 (hash lastBlock +:+ seed +:+ tier)) in
  let n := tier_count tier count (length remaining) in
  let ws := selected remaining n material in
  let wl := S (S (length (arrays st))) in
  remaining <> [] ->
  (all w < length (arrays st))%nat ->
  exists st' d b,
    drawTier now sid tier count st = (Some (TierResult ws tier), st')
    /\ sessions st' = alter (set_drawn d) sid (sessions st)
    /\ participants st' = participants st
    /\ winners st' = winners st
    /\ arrays st' = <[all w := array_at st (all w) ++ ws]>
                      (arrays st ++ [remaining; shuffled remaining n material; ws])
    /\ objects st' = objects (assign (tiers w) tier wl st)
    /\ chain st' = chain st ++ [b]
    /\ data b = TIER_DRAWN sid tier wl (to_hex material)
    /\ previousHash b = hash lastBlock
    /\ protos st' = protos (assign (tiers w) tier wl st).
Proof.
  intros Hsid Htier Hs Hseed Hw Hnot Hlast remaining material n ws wl Hrem Hall.
  unfold drawTier.
  rewrite (truthy_true _ Hsid), (truthy_true _ Htier).
  msimpl. mstep. rewrite Hs, Hseed. msteps. rewrite Hw. msteps. rewrite Hnot. msteps.
  assert (Hlist : exists p, participants st !! sid = Some p
                            /\ participants_of st sid = array_at st p).
  { unfold remaining, participants_of in *.
    destruct (participants st !! sid) as [p|]; [eauto|done]. }
  destruct Hlist as (p & Hp & Hpo). rewrite Hp. msteps. rewrite <- Hpo.
  rewrite array_at_alloc. fold remaining.
  destruct (Nat.eqb_spec (length remaining) 0) as [Hz|Hz].
  { destruct remaining; [done|discriminate]. }
  msteps. rewrite Hlast. msteps.
  unfold selectWinners_num. fold (tier_count tier count (length remaining)). fold n.
  rewrite selectWinners_run. msteps.
  rewrite array_at_alloc. fold remaining material n ws.
  rewrite (addBlock_run _ _ _ lastBlock) by (msimpl; exact Hlast).
  msteps.
  assert (Hidx : forall (h : list (list jsval)) a b c, (h ++ [a]) ++ [b; c] = h ++ [a; b; c])
    by (intros; by rewrite <- app_assoc).
  assert (Hlenr : length (arrays st ++ [remaining]) = S (length (arrays st)))
    by (rewrite length_app; simpl; lia).
  match goal with
  | |- exists st' d b, (Some (TierResult ?x tier), _) = _ /\ _ =>
      assert (Hx : x = ws)
  end.
  { unfold array_at. msimpl. rewrite Hlenr, Hidx.
    rewrite list_lookup_insert_ne by lia.
    rewrite lookup_app_r by lia.
    replace (S (S (length (arrays st))) - length (arrays st))%nat with 2%nat by lia.
    reflexivity. }
  rewrite Hx. eexists _, _, _. split; [reflexivity|]. msimpl.
  rewrite Hlenr, Hidx.
  repeat split; try reflexivity.
  unfold array_at. msimpl. rewrite Hidx.
  rewrite lookup_app_l by lia.
  rewrite (lookup_app_r (arrays st)) by lia.
  replace (S (S (length (arrays st))) - length (arrays st))%nat with 2%nat by lia.
  reflexivity.
  all: rewrite ?assign_objects, ?assign_protos; msimpl; unfold object_at; msimpl;
    reflexivity.
Qed.

(** ** Well-formed stores and the effect of a draw *)

Lemma effect_refl sid st : effect sid st st.
Proof. split; auto. Qed.

Lemma sessions_dom_drawn (m m' : gmap string Session) sid :
  set_drawn false <$> m' = set_drawn false <$> m ->
  is_Some (m' !! sid) -> is_Some (m !! sid).
Proof.
  intros Heq Hs.
  assert (H : (set_drawn false <$> m') !! sid = (set_drawn false <$> m) !! sid)
    by (by rewrite Heq).
  rewrite !lookup_fmap in H. destruct Hs as [s Hs]. rewrite Hs in H.
  destruct (m !! sid); [eauto|discriminate].
Qed.

Lemma effect_wf sid st st' : wf st -> effect sid st st' -> wf st'.
Proof.
  intros [Hc Hp Hw Hsep Hsw Hsp Hid Hplain] [Ep Es Ew Eo El Ea Ech].
  split.
  - destruct Ech as [->|[b ->]]; [done|]. by destruct (chain st).
  - intros s p. rewrite Ep. intros H%Hp. lia.
  - intros s w Hl. destruct Ew as [Ew|(w' & Ew & Hb & Ht & Hsid)]; rewrite Ew in Hl.
    + apply Hw in Hl. lia.
    + apply lookup_insert_Some in Hl as [[_ <-]|[_ Hl]]; [lia|].
      apply Hw in Hl. lia.
  - intros s s' p w. rewrite Ep. intros Hpl Hl.
    destruct Ew as [Ew|(w' & Ew & Hb & Ht & Hsid)]; rewrite Ew in Hl.
    + eauto.
    + apply lookup_insert_Some in Hl as [[_ <-]|[_ Hl]]; [|eauto].
      apply Hp in Hpl. lia.
  - intros s Hs. apply (sessions_dom_drawn _ _ _ Es), Hsw in Hs.
    destruct Ew as [Ew|(w' & Ew & _)]; rewrite Ew; [done|].
    destruct (decide (sid = s)) as [->|Hne].
    + rewrite lookup_insert_eq. eauto.
    + by rewrite lookup_insert_ne.
  - intros s Hs. rewrite Ep. by apply Hsp, (sessions_dom_drawn _ _ _ Es).
  - intros s Hs. by apply Hid, (sessions_dom_drawn _ _ _ Es).
  - intros s [Hs|[Hs|Hs]].
    + apply Hplain. left. by apply (sessions_dom_drawn _ _ _ Es).
    + apply Hplain. right. left. by rewrite <- Ep.
    + destruct Ew as [Ew|(w' & Ew & _ & _ & Hsid)]; rewrite Ew in Hs.
      * apply Hplain. by right; right.
      *
        apply lookup_insert_is_Some in Hs as [<-|[_ Hs]].
        -- apply Hplain. by left.
        -- apply Hplain. by right; right.
Qed.

Lemma effect_participants_of sid st st' :
  wf st -> effect sid st st' ->
  forall sid', participants_of st' sid' = participants_of st sid'.
Proof.
  intros Hwf Heff sid'. unfold participants_of.
  rewrite (eff_participants _ _ _ Heff).
  destruct (participants st !! sid') as [p|] eqn:Hp; [|done].
  unfold array_at. f_equal. apply (eff_arrays _ _ _ Heff).
  - by eapply wf_participants.
  - intros w Hw. by eapply wf_separate.
Qed.

Lemma fmap_alter_drawn (m : gmap string Session) sid d :
  set_drawn false <$> alter (set_drawn d) sid m = set_drawn false <$> m.
Proof.
  apply map_eq. intros i. rewrite !lookup_fmap.
  destruct (decide (sid = i)) as [->|Hne].
  - rewrite lookup_alter_eq. by destruct (m !! i).
  - by rewrite lookup_alter_ne.
Qed.

Lemma filter_nil_length {A} (P : A -> Prop) `{forall x, Decision (P x)} (l : list A) :
  (length (filter P l) =? 0)%nat = true -> filter P l = [].
Proof. intros Hz%Nat.eqb_eq. by destruct (filter P l). Qed.

(** A tier already drawn is refused and nothing changes. *)
Lemma drawTier_already_drawn st now sid tier count session seed w :
  sid <> "" -> tier <> "" ->
  sessions st !! sid = Some session ->
  seed_of session = Some seed ->
  winners st !! sid = Some w ->
  tier_drawn st (tiers w) tier = true ->
  drawTier now sid tier count st
  = (Some (Error 400 ("tier " +:+ tier +:+ " already drawn")), st).
Proof.
  intros Hsid Htier Hs Hseed Hw Hdrawn.
  unfold drawTier. rewrite (truthy_true _ Hsid), (truthy_true _ Htier).
  msimpl. mstep. rewrite Hs, Hseed.
  msteps. rewrite Hw. msteps. by rewrite Hdrawn.
Qed.

(** Every outcome of a tier draw in a well-formed state: an error that
    changes nothing in the session, or a draw that was ready. *)
Lemma drawTier_outcome st now sid tier count :
  wf st ->
  (exists status msg st',
     drawTier now sid tier count st = (Some (Error status msg), st')
     /\ effect sid st st')
  \/ (exists session seed w lastBlock, drawTier_ready st sid tier session seed w lastBlock).
Proof.
  intros Hwf.
  destruct (truthy sid) eqn:Hsid;
    [|left; unfold drawTier; rewrite Hsid;
      eexists _, _, _; split; [reflexivity|apply effect_refl]].
  destruct (truthy tier) eqn:Htier;
    [|left; unfold drawTier; rewrite Hsid, Htier;
      eexists _, _, _; split; [reflexivity|apply effect_refl]].
  destruct (sessions st !! sid) as [session|] eqn:Hs;
    [|left; unfold drawTier; rewrite Hsid, Htier; msimpl; mstep; rewrite Hs;
      destruct (object_prototype sid);
      (eexists _, _, _; split; [reflexivity|apply effect_refl])].
  destruct (seed_of session) as [seed|] eqn:Hseed;
    [|left; unfold drawTier; rewrite Hsid, Htier; msimpl; mstep; rewrite Hs, Hseed;
      eexists _, _, _; split; [reflexivity|apply effect_refl]].
  destruct (wf_session_winners st Hwf sid) as [w Hw]; [by rewrite Hs|].
  apply truthy_true_iff in Hsid, Htier.
  destruct (tier_drawn st (tiers w) tier) eqn:Hdrawn.
  { left. erewrite drawTier_already_drawn by eauto.
    eexists _, _, _; split; [reflexivity|apply effect_refl]. }
  destruct (last_is_Some (chain st)) as [_ Hl].
  destruct (Hl (wf_chain st Hwf)) as [lastBlock Hlast]. clear Hl.
  set (remaining := filter (fun u => negb (includes (array_at st (all w)) u))
                           (participants_of st sid)).
  destruct remaining as [|x rest] eqn:Hrem.
  - left. unfold drawTier.
    rewrite (truthy_true _ Hsid), (truthy_true _ Htier).
    msimpl; mstep; rewrite Hs, Hseed.
    msteps. rewrite Hw. msteps. rewrite Hdrawn. msteps.
    destruct (wf_session_participants st Hwf sid) as [p Hp]; [by rewrite Hs|].
    assert (Hpo : participants_of st sid = array_at st p)
      by (unfold participants_of; by rewrite Hp).
    rewrite Hp. msteps. rewrite <- Hpo. rewrite array_at_alloc.
    fold remaining. rewrite Hrem. cbn [length Nat.eqb].
    eexists _, _, _. split; [reflexivity|].
    split; msimpl; auto.
    + rewrite length_app. lia.
    + intros l Hlt _. by rewrite lookup_app_l.
  - right. exists session, seed, w, lastBlock.
    unfold drawTier_ready. fold remaining. rewrite Hrem. done.
Qed.

Lemma drawTier_effect st now sid tier count :
  wf st ->
  exists resp st',
    drawTier now sid tier count st = (Some resp, st') /\ effect sid st st'.
Proof.
  intros Hwf.
  destruct (drawTier_outcome st now sid tier count Hwf)
    as [(status & msg & st' & Hrun & Heff)
       |(session & seed & w & lastBlock & Hsid & Htier & Hs & Hseed & Hw & Hdrawn & Hlast & Hrem)].
  { eauto. }
  pose proof (wf_winners st Hwf sid w Hw) as [Hall Htiers].
  destruct (drawTier_run st now sid tier count session seed w lastBlock
              Hsid Htier Hs Hseed Hw Hdrawn Hlast Hrem Hall)
    as (st' & d & b & Hrun & Es & Ep & Ew & Ea & Eo & Ec & _).
  eexists _, st'. split; [exact Hrun|].
  split; auto.
  - rewrite Es. apply fmap_alter_drawn.
  - rewrite Eo, assign_objects_length. lia.
  - rewrite Ea, length_insert, length_app. lia.
  - intros l Hlt Hne. rewrite Ea.
    rewrite list_lookup_insert_ne by (by apply not_eq_sym, Hne).
    by rewrite lookup_app_l.
  - right. eauto.
Qed.

Lemma loop_frame_refl base st : loop_frame base st st.
Proof. split; auto. Qed.

Lemma loop_frame_trans base st1 st2 st3 :
  loop_frame base st1 st2 -> loop_frame base st2 st3 -> loop_frame base st1 st3.
Proof.
  intros [S1 P1 W1 C1 O1 L1 A1] [S2 P2 W2 C2 O2 L2 A2].
  split; try congruence; try lia.
  intros l Hl. rewrite A2 by done. by apply A1.
Qed.

Lemma draw_tiers_run keys : forall tc randBase T A remaining st base,
  (base <= A)%nat -> (base <= length (arrays st))%nat ->
  exists st',
    draw_tiers keys tc randBase T A remaining st = (Some tt, st')
    /\ loop_frame base st st'.
Proof.
  induction keys as [|tier keys IH]; intros tc randBase T A remaining st base HA Hb.
  - eexists. split; [reflexivity|apply loop_frame_refl].
  - cbn [draw_tiers]. mstep.
    destruct (0 <? _) eqn:Hcount.
    + mstep. rewrite selectWinners_run. msteps.
      match goal with
      | |- exists st', draw_tiers keys tc randBase T A ?r ?s = _ /\ _ =>
          destruct (IH tc randBase T A r s base HA) as (st' & Hrun & Hf)
      end.
      { msimpl. rewrite length_app, length_insert, length_app. lia. }
      exists st'. split; [exact Hrun|].
      eapply loop_frame_trans; [|exact Hf].
      split; msimpl; auto.
      * by rewrite assign_objects_length.
      * rewrite length_app, length_insert, length_app. lia.
      * intros l Hl. rewrite lookup_app_l by (rewrite length_insert, length_app; lia).
        rewrite list_lookup_insert_ne by lia.
        by rewrite lookup_app_l by lia.
    + msteps.
      match goal with
      | |- exists st', draw_tiers keys tc randBase T A ?r ?s = _ /\ _ =>
          destruct (IH tc randBase T A r s base HA) as (st' & Hrun & Hf)
      end.
      { msimpl. rewrite length_app. lia. }
      exists st'. split; [exact Hrun|].
      eapply loop_frame_trans; [|exact Hf].
      split; msimpl; auto.
      * by rewrite assign_objects_length.
      * rewrite length_app. lia.
      * intros l Hl. by rewrite lookup_app_l by lia.
Qed.

(** Every outcome of a whole-session draw in a well-formed state. *)
Lemma draw_effect st now sid numWinners tierCounts :
  wf st ->
  exists resp st',
    draw now sid numWinners tierCounts st = (Some resp, st') /\ effect sid st st'.
Proof.
  intros Hwf. unfold draw. mstep.
  destruct (sessions st !! sid) as [session|] eqn:Hs;
    [|destruct (object_prototype sid);
      (eexists _, _; split; [reflexivity|apply effect_refl])].
  destruct (drawn session);
    [eexists _, _; split; [reflexivity|apply effect_refl]|].
  destruct (seed_of session) as [seed|];
    [|eexists _, _; split; [reflexivity|apply effect_refl]].
  mstep.
  destruct (wf_session_participants st Hwf sid) as [list Hp]; [by rewrite Hs|].
  rewrite Hp. mstep.
  destruct (length (array_at st list) =? 0)%nat;
    [eexists _, _; split; [reflexivity|apply effect_refl]|].
  destruct (last_is_Some (chain st)) as [_ Hl].
  destruct (Hl (wf_chain st Hwf)) as [lastBlock Hlast]. clear Hl.
  msteps. rewrite Hlast. msteps.
  destruct (0 <? _)%nat.
  - msteps.
    match goal with
    | |- context [draw_tiers ?keys ?tc ?rb ?T ?A ?r ?s] =>
        destruct (draw_tiers_run keys tc rb T A r s (length (arrays st)))
          as (st2 & Hrun & [S2 P2 W2 C2 O2 L2 A2])
    end.
    { rewrite length_app. simpl. lia. }
    { msimpl. rewrite !length_app. simpl. lia. }
    rewrite Hrun. msteps.
    rewrite (addBlock_run _ _ _ lastBlock) by (msimpl; by rewrite C2).
    msteps. eexists _, _. split; [reflexivity|].
    revert S2 P2 W2 C2 O2 L2 A2. msimpl. rewrite !length_app. cbn [length].
    intros S2 P2 W2 C2 O2 L2 A2.
    split; msimpl.
    + done.
    + rewrite S2. apply fmap_alter_drawn.
    + right. eexists. split; [by rewrite W2|]. cbn [all tiers].
      split; [lia|]. split; [lia|]. by rewrite Hs.
    + lia.
    + lia.
    + intros l Hlt _. rewrite A2 by done.
      rewrite lookup_app_l by (rewrite length_app; simpl; lia).
      by rewrite lookup_app_l.
    + right. rewrite C2. eauto.
  - mstep. rewrite selectWinners_run. msteps.
    rewrite (addBlock_run _ _ _ lastBlock) by (msimpl; exact Hlast).
    msteps. eexists _, _. split; [reflexivity|].
    split; msimpl.
    + done.
    + apply fmap_alter_drawn.
    + right. eexists. split; [reflexivity|]. cbn [all tiers].
      rewrite !length_app. cbn [length]. split; [lia|]. split; [lia|]. by rewrite Hs.
    + rewrite !length_app. lia.
    + rewrite !length_app. lia.
    + intros l Hlt _. by rewrite lookup_app_l.
    + right. eauto.
Qed.

(** ** Every request preserves well-formedness *)

(** A later state is well-formed when the store only grew and every
    reference in the two dictionaries is an old entry or a fresh array. *)
Lemma wf_update st st' :
  wf st ->
  chain st' <> [] ->
  (length (arrays st) <= length (arrays st'))%nat ->
  (length (objects st) <= length (objects st'))%nat ->
  (forall sid p, participants st' !! sid = Some p ->
     participants st !! sid = Some p
     \/ (length (arrays st) <= p < length (arrays st'))%nat) ->
  (forall sid w, winners st' !! sid = Some w ->
     winners st !! sid = Some w
     \/ ((length (arrays st) <= all w < length (arrays st'))%nat
         /\ (tiers w < length (objects st'))%nat)) ->
  (forall sid sid' p w,
     participants st' !! sid = Some p -> winners st' !! sid' = Some w ->
     (length (arrays st) <= p)%nat -> (length (arrays st) <= all w)%nat ->
     p <> all w) ->
  (forall sid, is_Some (sessions st' !! sid) ->
     is_Some (winners st' !! sid) /\ is_Some (participants st' !! sid) /\ sid <> "") ->
  (forall sid,
     is_Some (sessions st' !! sid) \/ is_Some (participants st' !! sid)
     \/ is_Some (winners st' !! sid) ->
     object_prototype sid = None) ->
  wf st'.
Proof.
  intros [Hc Hp Hw Hsep Hsw Hsp Hid Hplain] Hc' Hla Hlo Hp' Hw' Hfresh Hsw' Hplain'.
  split; [done| | | |intros sid Hs; by apply Hsw'..|done].
  - intros sid p [H|H]%Hp'; [apply Hp in H|]; lia.
  - intros sid w [H|H]%Hw'; [apply Hw in H|]; lia.
  - intros sid sid' p w Hpl Hwl.
    destruct (Hp' _ _ Hpl) as [Hpo|Hpn], (Hw' _ _ Hwl) as [Hwo|Hwn].
    + eauto.
    + apply Hp in Hpo. lia.
    + apply Hw in Hwo. lia.
    + apply (Hfresh sid sid'); auto; lia.
Qed.

Lemma snoc_not_nil {A} (l : list A) x : l ++ [x] <> [].
Proof. by destruct l. Qed.

Lemma wf_session_facts st sid :
  wf st -> is_Some (sessions st !! sid) ->
  is_Some (winners st !! sid) /\ is_Some (participants st !! sid) /\ sid <> "".
Proof.
  intros Hwf Hs. split; [|split].
  - by apply wf_session_winners.
  - by apply wf_session_participants.
  - by apply (wf_ids st).
Qed.

Lemma is_Some_insert_mono {A} (m : gmap string A) i j x :
  is_Some (m !! j) -> is_Some (<[i := x]> m !! j).
Proof.
  intros H. apply lookup_insert_is_Some.
  destruct (decide (i = j)); auto.
Qed.

(** [String(n)] is never the empty string. *)
Lemma pretty_N_go_nonempty x : forall s, s <> "" -> pretty_N_go x s <> "".
Proof.
  induction (N.lt_wf_0 x) as [x _ IH]; intros s Hs.
  assert (x = 0 \/ 0 < x)%N as [->|Hpos] by lia.
  - by rewrite pretty_N_go_0.
  - rewrite pretty_N_go_step by done. apply IH; [by apply N.div_lt|done].
Qed.

Lemma pretty_N_nonempty (n : N) : pretty n <> "".
Proof.
  unfold pretty, pretty_N. destruct (decide (n = 0%N)); [done|].
  rewrite pretty_N_go_step by lia. by apply pretty_N_go_nonempty.
Qed.

Lemma pretty_Z_nonempty (z : Z) : pretty z <> "".
Proof.
  destruct z as [|q|q]; [done| |done].
  apply (pretty_N_nonempty (Npos q)).
Qed.

Lemma pretty_N_char_digit x : (x < 10)%N -> is_digit (pretty_N_char x) = true.
Proof.
  intros Hx.
  destruct x as [|[[[|[]|]|[[]|[]|]|]|[[|[]|]|[[]|[]|]|]|]]; try lia; reflexivity.
Qed.

Lemma pretty_N_go_head x : forall s, numeric_head s = true ->
  numeric_head (pretty_N_go x s) = true.
Proof.
  induction (N.lt_wf_0 x) as [x _ IH]; intros s Hs.
  assert (x = 0 \/ 0 < x)%N as [->|Hpos] by lia.
  - by rewrite pretty_N_go_0.
  - rewrite pretty_N_go_step by done. apply IH; [by apply N.div_lt|].
    cbn [numeric_head]. rewrite pretty_N_char_digit; [done|].
    by apply N.mod_lt.
Qed.

Lemma pretty_N_head (n : N) : numeric_head (pretty n) = true.
Proof.
  unfold pretty, pretty_N. destruct (decide (n = 0%N)); [done|].
  rewrite pretty_N_go_step by lia. apply pretty_N_go_head.
  cbn [numeric_head]. rewrite pretty_N_char_digit; [done|]. by apply N.mod_lt.
Qed.

Lemma pretty_Z_head (z : Z) : numeric_head (pretty z) = true.
Proof.
  destruct z as [|q|q]; [done| |done].
  apply (pretty_N_head (Npos q)).
Qed.

Lemma numeric_head_plain s : numeric_head s = true -> object_prototype s = None.
Proof.
  destruct s as [|c s]; [done|]. cbn [numeric_head]. intros Hc.
  destruct c as [[] [] [] [] [] [] [] []]; try discriminate Hc; reflexivity.
Qed.

Lemma pretty_Z_plain (z : Z) : object_prototype (pretty z) = None.
Proof. apply numeric_head_plain, pretty_Z_head. Qed.

Lemma createSession_wf st nowId now name sh :
  wf st -> wf (createSession nowId now name sh st).2.
Proof.
  intros Hwf. unfold createSession.
  destruct (negb (truthy name) || negb (truthy sh)); [done|].
  destruct (last_is_Some (chain st)) as [_ Hl].
  destruct (Hl (wf_chain st Hwf)) as [lastBlock Hlast]. clear Hl.
  msteps. rewrite (addBlock_run _ _ _ lastBlock) by (msimpl; exact Hlast).
  msteps. cbn [snd].
  apply (wf_update st); msimpl; try done.
  - apply snoc_not_nil.
  - rewrite !length_app. lia.
  - rewrite !length_app. lia.
  - intros sid p [[_ <-]|[_ H]]%lookup_insert_Some; [right|by left].
    rewrite !length_app. cbn [length]. lia.
  - intros sid w [[_ <-]|[_ H]]%lookup_insert_Some; [right|by left].
    cbn [all tiers]. rewrite !length_app. cbn [length]. lia.
  - intros sid sid' p w [[_ <-]|[_ Hp]]%lookup_insert_Some
                         [[_ <-]|[_ Hw]]%lookup_insert_Some; cbn [all]; intros.
    + rewrite length_app. cbn [length]. lia.
    + apply (wf_winners st Hwf) in Hw. lia.
    + apply (wf_participants st Hwf) in Hp. lia.
    + apply (wf_participants st Hwf) in Hp. lia.
  - intros sid [<-|[Hne Hs]]%lookup_insert_is_Some.
    + rewrite !lookup_insert_eq. split; [eauto|split; [eauto|apply pretty_Z_nonempty]].
    + rewrite !lookup_insert_ne by done. by apply wf_session_facts.
  - intros sid [Hs|[Hs|Hs]]; apply lookup_insert_is_Some in Hs as [<-|[_ Hs]];
      try apply pretty_Z_plain; apply (wf_plain st Hwf); auto.
Qed.

Lemma revealSeed_wf st now sid seed :
  wf st -> wf (revealSeed now sid seed st).2.
Proof.
  intros Hwf. unfold revealSeed.
  destruct (negb (truthy sid) || negb (truthy seed)); [done|].
  mstep. destruct (sessions st !! sid) as [session|] eqn:Hs;
    [|by destruct (object_prototype sid)].
  destruct (negb _); [done|].
  destruct (last_is_Some (chain st)) as [_ Hl].
  destruct (Hl (wf_chain st Hwf)) as [lastBlock Hlast]. clear Hl.
  msteps. rewrite (addBlock_run _ _ _ lastBlock) by (msimpl; exact Hlast).
  msteps. cbn [snd].
  apply (wf_update st); msimpl; auto.
  - apply snoc_not_nil.
  - intros; apply (wf_winners st Hwf) in H0; lia.
  - intros s Hx%lookup_alter_is_Some. by apply wf_session_facts.
  - intros s [Hx%lookup_alter_is_Some|Hx]; apply (wf_plain st Hwf); auto.
Qed.

Lemma enter_wf st now sid user :
  wf st -> wf (enter now sid user st).2.
Proof.
  intros Hwf. unfold enter.
  destruct (negb (truthy sid) || negb (truthy user)); [done|].
  mstep.
  match goal with
  | |- wf (match _ with Own _ => ?body | Inherits _ => _ | Missing => _ end st).2 =>
      assert (Hbody : wf (body st).2)
  end.
  { destruct (last_is_Some (chain st)) as [_ Hl].
    destruct (Hl (wf_chain st Hwf)) as [lastBlock Hlast]. clear Hl.
    msteps.
    destruct (participants st !! sid) as [p|] eqn:Hp;
      [|destruct (object_prototype sid) eqn:Hpr; [done|]]; msteps.
    - destruct (includes (array_at st p) (Some user)); msteps; [done|].
      rewrite (addBlock_run _ _ _ lastBlock) by (msimpl; exact Hlast).
      msteps. cbn [snd].
      apply (wf_update st); msimpl; auto.
      + apply snoc_not_nil.
      + by rewrite length_insert.
      + intros s q. rewrite insert_id by done. auto.
      + intros; apply (wf_winners st Hwf) in H0; lia.
      + intros s Hx. destruct (wf_session_facts st s Hwf Hx) as (? & ? & ?).
        repeat split; auto. by apply is_Some_insert_mono.
      + intros s [Hx|[Hx|Hx]]; [apply (wf_plain st Hwf); auto| |apply (wf_plain st Hwf); auto].
        apply lookup_insert_is_Some in Hx as [<-|[_ Hx]]; apply (wf_plain st Hwf);
          [right; left; by rewrite Hp|auto].
    - rewrite array_at_alloc. unfold includes at 1.
      rewrite bool_decide_eq_false_2 by (apply not_elem_of_nil).
      msteps.
      rewrite (addBlock_run _ _ _ lastBlock) by (msimpl; exact Hlast).
      msteps. cbn [snd].
      apply (wf_update st); msimpl; auto.
      + apply snoc_not_nil.
      + rewrite length_insert, length_app. lia.
      + intros s q [[_ <-]|[_ H]]%lookup_insert_Some; [right|by left].
        rewrite length_insert, length_app. cbn [length]. lia.
      + intros; apply (wf_winners st Hwf) in H0; lia.
      + intros s Hx. destruct (wf_session_facts st s Hwf Hx) as (? & ? & ?).
        repeat split; auto. by apply is_Some_insert_mono.
      + intros s [Hx|[Hx|Hx]]; [apply (wf_plain st Hwf); auto| |apply (wf_plain st Hwf); auto].
        apply lookup_insert_is_Some in Hx as [<-|[_ Hx]]; [done|].
        apply (wf_plain st Hwf); auto. }
  destruct (sessions st !! sid); [exact Hbody|].
  destruct (object_prototype sid); [exact Hbody|done].
Qed.

Lemma import_each_run users : forall list added st,
  exists st',
    import_each users list added st = (Some tt, st')
    /\ sessions st' = sessions st /\ participants st' = participants st
    /\ winners st' = winners st /\ objects st' = objects st
    /\ chain st' = chain st /\ length (arrays st') = length (arrays st).
Proof.
  induction users as [|user users IH]; intros list added st.
  - eexists. split; [reflexivity|]. auto 10.
  - cbn [import_each]. mstep.
    destruct (truthy (trim user) && negb (includes (array_at st list) (Some (trim user)))).
    + msteps.
      match goal with
      | |- exists st', import_each users list added ?s = _ /\ _ =>
          destruct (IH list added s) as (st' & Hrun & S' & P' & W' & O' & C' & L')
      end.
      exists st'. split; [exact Hrun|].
      revert S' P' W' O' C' L'. msimpl. rewrite !length_insert. auto 10.
    + msteps. apply IH.
Qed.

Lemma import_each_onto_run users st :
  import_each_onto users st = (Some tt, st) \/ import_each_onto users st = (None, st).
Proof.
  induction users as [|user users IH]; [by left|].
  cbn [import_each_onto]. destruct (truthy (trim user)); [by right|exact IH].
Qed.

Lemma importParticipants_wf st now sid users :
  wf st -> wf (importParticipants now sid users st).2.
Proof.
  intros Hwf. unfold importParticipants.
  destruct (negb (truthy sid)); [done|].
  mstep.
  match goal with
  | |- wf (match _ with Own _ => ?body | Inherits _ => _ | Missing => _ end st).2 =>
      assert (Hbody : wf (body st).2)
  end.
  2:{ destruct (sessions st !! sid); [exact Hbody|].
      destruct (object_prototype sid); [exact Hbody|done]. }
  destruct (last_is_Some (chain st)) as [_ Hl].
  destruct (Hl (wf_chain st Hwf)) as [lastBlock Hlast]. clear Hl.
  msteps.
  assert (Hadded : forall st0, wf st0 -> wf (set_arrays (fun h => h ++ [[]]) st0)).
  { intros st0 Hwf0. apply (wf_update st0); msimpl; auto.
    - by apply wf_chain.
    - rewrite length_app. lia.
    - intros s s' q w Hq _ Hge. apply (wf_participants st0 Hwf0) in Hq. lia.
    - intros s Hx. by apply wf_session_facts.
    - intros s Hx. by apply (wf_plain st0 Hwf0). }
  destruct (participants st !! sid) as [p|] eqn:Hp;
    [|destruct (object_prototype sid) as [i|] eqn:Hpr].
  2:{ msteps.
      match goal with
      | |- context [import_each_onto users ?s] =>
          destruct (import_each_onto_run users s) as [->| ->]
      end; msteps; cbn [snd]; by apply Hadded. }
  all: msteps.
  all: match goal with
       | |- context [import_each ?us ?list ?added ?s] =>
           destruct (import_each_run us list added s)
             as (st2 & Hrun & S2 & P2 & W2 & O2 & C2 & L2)
       end.
  all: rewrite Hrun; msteps.
  all: revert S2 P2 W2 O2 C2 L2; msimpl; rewrite ?length_app; cbn [length];
       intros S2 P2 W2 O2 C2 L2.
  all: match type of Hrun with
       | import_each _ ?list _ _ = _ =>
           assert (Hfinal : forall st3,
             sessions st3 = sessions st2 ->
             participants st3 = <[sid := list]> (participants st2) ->
             winners st3 = winners st2 -> objects st3 = objects st2 ->
             arrays st3 = arrays st2 -> chain st3 <> [] -> wf st3)
       end.
  1,3: intros st3 S3 P3 W3 O3 A3 C3; apply (wf_update st); auto;
       [ rewrite A3; lia
       | rewrite O3, O2; lia
       | intros s q; rewrite P3, P2;
         intros [[<- <-]|[_ H]]%lookup_insert_Some; [|by left];
         first [ by left | right; rewrite A3; lia ]
       | intros s w; rewrite W3, W2; auto
       | intros s s' q w _; rewrite W3, W2; intros Hw%(wf_winners st Hwf); lia
       | intros s; rewrite S3, S2, W3, W2, P3, P2; intros Hx;
         destruct (wf_session_facts st s Hwf Hx) as (? & ? & ?);
         repeat split; auto; by apply is_Some_insert_mono
       | intros s; rewrite S3, S2, W3, W2, P3, P2; intros [Hx|[Hx|Hx]];
         [apply (wf_plain st Hwf); auto| |apply (wf_plain st Hwf); auto];
         apply lookup_insert_is_Some in Hx as [<-|[_ Hx]];
         [first [done | apply (wf_plain st Hwf); right; left; by rewrite Hp]
         |apply (wf_plain st Hwf); auto] ].
  all: destruct (0 <? _)%nat; msteps.
  all: try (rewrite (addBlock_run _ _ _ lastBlock) by (msimpl; by rewrite C2);
            msteps; cbn [snd]; apply Hfinal; msimpl; auto; apply snoc_not_nil).
  all: cbn [snd]; apply Hfinal; msimpl; auto; rewrite C2; by apply wf_chain.
Qed.

(** ** Reachable states are well-formed *)

Lemma requestListener_state r st : (requestListener r st).2 = (handler r st).2.
Proof. unfold requestListener. by destruct (handler r st) as [[resp|] st']. Qed.

Lemma requestListener_handler r st resp st' :
  handler r st = (Some resp, st') -> requestListener r st = (resp, st').
Proof. unfold requestListener. by intros ->. Qed.

Lemma initial_state_wf now0 : wf (initial_state now0).
Proof.
  split; cbn.
  - done.
  - intros sid p H. by rewrite lookup_empty in H.
  - intros sid w H. by rewrite lookup_empty in H.
  - intros sid sid' p w H. by rewrite lookup_empty in H.
  - intros sid [x H]. by rewrite lookup_empty in H.
  - intros sid [x H]. by rewrite lookup_empty in H.
  - intros sid [x H]. by rewrite lookup_empty in H.
  - intros sid [[x H]|[[x H]|[x H]]]; by rewrite lookup_empty in H.
Qed.

Lemma step_wf st r : wf st -> wf (step st r).
Proof.
  intros Hwf. unfold step. rewrite requestListener_state.
  destruct r as [nowId now name sh|now sid user|now sid seed
                |now sid nw tc|now sid tier count|now sid users]; cbn [handler].
  - by apply createSession_wf.
  - by apply enter_wf.
  - by apply revealSeed_wf.
  - destruct (draw_effect st now sid nw tc Hwf) as (resp & st' & -> & Heff).
    by apply (effect_wf sid st).
  - destruct (drawTier_effect st now sid tier count Hwf) as (resp & st' & -> & Heff).
    by apply (effect_wf sid st).
  - by apply importParticipants_wf.
Qed.

Lemma run_wf now0 rs : wf (run now0 rs).
Proof.
  unfold run. induction rs as [|r rs IH] using rev_ind.
  - apply initial_state_wf.
  - rewrite foldl_app. cbn [foldl]. by apply step_wf.
Qed.

Lemma reachable_wf st : reachable st -> wf st.
Proof. intros (now0 & rs & ->). apply run_wf. Qed.

(** ** Claims about the draw requests *)

Lemma draw_request_effect st r :
  wf st -> draw_request r = true ->
  effect (session_of r) st (requestListener r st).2.
Proof.
  intros Hwf Hr. rewrite requestListener_state.
  destruct r as [| | |now sid nw tc|now sid tier count|]; try discriminate; cbn [handler session_of].
  - by destruct (draw_effect st now sid nw tc Hwf) as (resp & st' & -> & Heff).
  - by destruct (drawTier_effect st now sid tier count Hwf) as (resp & st' & -> & Heff).
Qed.

(** C10.  In every state the server reaches, a draw request ([/api/draw]
    or [/api/drawTier]) leaves every participants list as it was: the same
    array reference and the same elements in the same order, for every
    session.  The sessions differ from before in their [drawn] flags at
    most. *)
Theorem draw_keeps_participants (st : State) (r : Request) :
  reachable st ->
  draw_request r = true ->
  participants (requestListener r st).2 = participants st
  /\ (forall sid, participants_of (requestListener r st).2 sid = participants_of st sid)
  /\ set_drawn false <$> sessions (requestListener r st).2 = set_drawn false <$> sessions st.
Proof.
  intros Hwf%reachable_wf Hr.
  pose proof (draw_request_effect st r Hwf Hr) as Heff.
  split; [|split].
  - apply (eff_participants _ _ _ Heff).
  - by apply (effect_participants_of (session_of r)).
  - apply (eff_sessions _ _ _ Heff).
Qed.

Lemma draw_keeps_participants_witness :
  participants (requestListener (Draw 2006 "2000" (Some 2) None) (run 1000 revealed)).2
  = participants (run 1000 revealed)
  /\ (forall sid,
        participants_of
          (requestListener (Draw 2006 "2000" (Some 2) None) (run 1000 revealed)).2 sid
        = participants_of (run 1000 revealed) sid)
  /\ set_drawn false
       <$> sessions (requestListener (Draw 2006 "2000" (Some 2) None) (run 1000 revealed)).2
     = set_drawn false <$> sessions (run 1000 revealed).
Proof.
  apply (draw_keeps_participants (run 1000 revealed) (Draw 2006 "2000" (Some 2) None)).
  - exists 1000, revealed. reflexivity.
  - reflexivity.
Defined.

(** *** Reading back a property that was just set *)

Lemma obj_get_replace {V} (o : object V) k v :
  is_Some (obj_get o k) -> obj_get (obj_replace o k v) k = Some v.
Proof.
  induction o as [|[k' v'] o IH]; cbn [obj_get obj_replace]; intros [x Hx]; [done|].
  destruct (String.eqb k' k) eqn:He; cbn [obj_get]; rewrite He; [done|].
  apply IH. eauto.
Qed.

Lemma obj_get_snoc {V} (o : object V) k v :
  obj_get o k = None -> obj_get (o ++ [(k, v)]) k = Some v.
Proof.
  induction o as [|[k' v'] o IH]; cbn [obj_get app]; intros Hx.
  - by rewrite String.eqb_refl.
  - destruct (String.eqb k' k); [done|]. by apply IH.
Qed.

Lemma obj_get_insert_index {V} (o : object V) n k v :
  obj_get o k = None -> obj_get (obj_insert_index o n k v) k = Some v.
Proof.
  induction o as [|[k' v'] o IH]; cbn [obj_get obj_insert_index]; intros Hx.
  - by rewrite String.eqb_refl.
  - destruct (String.eqb k' k) eqn:He; [done|].
    destruct (array_index k') as [n'|].
    + destruct (n' <? n)%N; cbn [obj_get].
      * rewrite He. by apply IH.
      * by rewrite String.eqb_refl.
    + cbn [obj_get]. by rewrite String.eqb_refl.
Qed.

Lemma obj_get_set {V} (o : object V) k v : obj_get (obj_set o k v) k = Some v.
Proof.
  unfold obj_set. destruct (obj_get o k) eqn:Hg.
  - apply obj_get_replace. eauto.
  - destruct (array_index k); [by apply obj_get_insert_index|by apply obj_get_snoc].
Qed.

Lemma obj_get_map {V W} (f : V -> W) (o : object V) k :
  obj_get (map (fun kv => (kv.1, f kv.2)) o) k = f <$> obj_get o k.
Proof.
  induction o as [|[k' v'] o IH]; cbn [obj_get map fst snd]; [done|].
  by destruct (String.eqb k' k).
Qed.

Lemma seed_of_revealed session seed :
  seed_of session = Some seed -> revealedSeed session = Some seed /\ seed <> "".
Proof.
  unfold seed_of. destruct (revealedSeed session) as [s|]; [|done].
  destruct (truthy s) eqn:Ht; [|done]. intros [= ->].
  split; [done|]. by apply truthy_true_iff.
Qed.

(** *** A successful tier draw *)

Lemma drawTier_success st now sid tier count ws tier' st' :
  wf st ->
  requestListener (DrawTier now sid tier count) st = (TierResult ws tier', st') ->
  exists session seed w lastBlock d b wl,
    drawTier_ready st sid tier session seed w lastBlock
    /\ ws = selected (remaining_of st sid)
              (tier_count tier count (length (remaining_of st sid)))
              (tier_material (hash lastBlock) seed tier)
    /\ sessions st' = alter (set_drawn d) sid (sessions st)
    /\ participants st' = participants st
    /\ winners st' = winners st
    /\ objects st' = objects (assign (tiers w) tier wl st)
    /\ array_at st' wl = ws
    /\ chain st' = chain st ++ [b]
    /\ data b = TIER_DRAWN sid tier wl (to_hex (tier_material (hash lastBlock) seed tier))
    /\ previousHash b = hash lastBlock
    /\ protos st' = protos (assign (tiers w) tier wl st)
    /\ tier' = tier.
Proof.
  intros Hwf Hreq.
  destruct (drawTier_outcome st now sid tier count Hwf)
    as [(status & msg & st'' & Hrun & _)
       |(session & seed & w & lastBlock & Hready)].
  { rewrite (requestListener_handler (DrawTier now sid tier count) _ _ _ Hrun) in Hreq.
    discriminate. }
  pose proof Hready as (Hsid & Htier & Hs & Hseed & Hw & Hdrawn & Hlast & Hrem).
  pose proof (wf_winners st Hwf sid w Hw) as [Hall Htiers].
  destruct (drawTier_run st now sid tier count session seed w lastBlock
              Hsid Htier Hs Hseed Hw Hdrawn Hlast Hrem Hall)
    as (st1 & d & b & Hrun & Es & Ep & Ew & Ea & Eo & Ec & Ed & Eprev & Epr).
  rewrite (requestListener_handler (DrawTier now sid tier count) _ _ _ Hrun) in Hreq.
  injection Hreq as <- <- <-.
  exists session, seed, w, lastBlock, d, b, (S (S (length (arrays st)))).
  unfold remaining_of, allWinners_of, tier_material. rewrite Hw.
  repeat split; try done.
  unfold array_at at 1. rewrite Ea.
  rewrite list_lookup_insert_ne by lia.
  rewrite lookup_app_r by lia.
  replace (S (S (length (arrays st))) - length (arrays st))%nat with 2%nat by lia.
  reflexivity.
Qed.

Lemma targetCount_supplied tier c : c <> 0 -> targetCount tier (Some c) = Count c.
Proof.
  intros Hc. unfold targetCount, num_or, js_or.
  destruct (Z.eqb_spec c 0); [done|]. cbn. by rewrite (proj2 (Z.eqb_neq c 0)).
Qed.

Example targetCount_defaults :
  targetCount "special" None = Count 1 /\ targetCount "first" None = Count 5
  /\ targetCount "second" (Some 0) = Count 5 /\ targetCount "third" None = Count 20
  /\ targetCount "bonus" None = Count 1 /\ targetCount "bonus" (Some 0) = Count 1
  /\ targetCount "first" (Some 2) = Count 2
  /\ targetCount "toString" None = NotANumber
  /\ targetCount "__proto__" (Some 0) = NotANumber
  /\ targetCount "toString" (Some 2) = Count 2.
Proof. vm_compute. repeat split; reflexivity. Qed.

(** ** Claims about reveal and enrolment *)

(** A matching secret is accepted whatever [revealedSeed] and [drawn] are. *)
Lemma revealSeed_matching st now sid seed session lastBlock :
  sid <> "" -> seed <> "" ->
  sessions st !! sid = Some session ->
  sha256_hex seed = seedHash session ->
  last (chain st) = Some lastBlock ->
  exists st' b,
    requestListener (RevealSeed now sid seed) st = (Revealed, st')
    /\ sessions st' = <[sid := set_revealedSeed seed session]> (sessions st)
    /\ chain st' = chain st ++ [b]
    /\ data b = SEED_REVEALED sid seed
    /\ previousHash b = hash lastBlock
    /\ participants st' = participants st
    /\ winners st' = winners st
    /\ arrays st' = arrays st
    /\ objects st' = objects st.
Proof.
  intros Hsid Hseed Hs Heq Hlast.
  unfold requestListener, handler, revealSeed.
  rewrite (truthy_true _ Hsid), (truthy_true _ Hseed). msimpl.
  mstep. rewrite Hs, Heq, String.eqb_refl. msteps.
  rewrite (addBlock_run _ _ _ lastBlock) by (msimpl; exact Hlast).
  msteps. eexists _, _. split; [reflexivity|]. msimpl.
  repeat split; try reflexivity.
  apply map_eq. intros i. destruct (decide (sid = i)) as [<-|Hne].
  - by rewrite lookup_alter_eq, lookup_insert_eq, Hs.
  - by rewrite lookup_alter_ne, lookup_insert_ne.
Qed.

(** An empty seed field is refused before any hashing, also without change. *)
Lemma revealSeed_missing_field st now sessionId :
  requestListener (RevealSeed now sessionId "") st
  = (Error 400 "sessionId and seed are required", st).
Proof.
  unfold requestListener, handler, revealSeed.
  change (truthy "") with false. by rewrite orb_true_r.
Qed.

(** C3, as the code has it.  In every state the server reaches, for every
    session and every secret whose SHA-256 digest differs from the committed
    hash, [revealSeed] answers with status 400 and the whole state is left
    as it was: [revealedSeed] keeps its value (unset if it was unset), the
    chain gets no block, the session is unchanged.  The error is "seed hash
    mismatch" for a secret that is not empty and "sessionId and seed are
    required" for the empty one. *)
Theorem revealSeed_mismatch_rejected
    (st : State) (now : Z) (sessionId seed : string) (session : Session) :
  reachable st ->
  sessions st !! sessionId = Some session ->
  sha256_hex seed <> seedHash session ->
  requestListener (RevealSeed now sessionId seed) st
  = (Error 400 (if truthy seed then "seed hash mismatch"
                else "sessionId and seed are required"), st).
Proof.
  intros Hwf%reachable_wf Hs Hne.
  destruct (truthy seed) eqn:Hseed.
  - apply (revealSeed_mismatch st now sessionId seed session); try done.
    + apply (wf_ids st Hwf). by rewrite Hs.
    + by apply truthy_true_iff.
  - apply truthy_false_iff in Hseed as ->. apply revealSeed_missing_field.
Qed.

Lemma revealSeed_mismatch_rejected_witness :
  requestListener (RevealSeed 2005 "2000" "guess") (run 1000 enrolled)
  = (Error 400 (if truthy "guess" then "seed hash mismatch"
                else "sessionId and seed are required"), run 1000 enrolled).
Proof.
  eapply (revealSeed_mismatch_rejected (run 1000 enrolled) 2005 "2000" "guess").
  - exists 1000, enrolled. reflexivity.
  - vm_compute. reflexivity.
  - vm_compute. discriminate.
Defined.

(** C3 as stated fails for the empty secret: its digest differs from the
    committed hash, and the request is refused, but with the error for a
    missing field, not with the mismatch. *)
Lemma revealSeed_empty_secret_not_mismatch :
  seedHash <$> sessions (run 1000 enrolled) !! "2000" = Some committed
  /\ sha256_hex "" <> committed
  /\ requestListener (RevealSeed 2005 "2000" "") (run 1000 enrolled)
     = (Error 400 "sessionId and seed are required", run 1000 enrolled).
Proof.
  split; [vm_compute; reflexivity|].
  split; [vm_compute; discriminate|apply revealSeed_missing_field].
Qed.

(** C4, as the code has it.  In every state the server reaches,
    [revealSeed] with a non-empty secret whose digest equals the committed
    hash is accepted in every state of the session, whether or not a secret
    was accepted before and whether or not the session is drawn: the secret
    is stored as [revealedSeed] and one SEED_REVEALED block is appended.
    Nothing else changes. *)
Theorem revealSeed_matching_accepted
    (st : State) (now : Z) (sid seed : string) (session : Session) :
  reachable st ->
  seed <> "" ->
  sessions st !! sid = Some session ->
  sha256_hex seed = seedHash session ->
  exists st' b lastBlock,
    requestListener (RevealSeed now sid seed) st = (Revealed, st')
    /\ sessions st' = <[sid := set_revealedSeed seed session]> (sessions st)
    /\ last (chain st) = Some lastBlock
    /\ chain st' = chain st ++ [b]
    /\ data b = SEED_REVEALED sid seed
    /\ previousHash b = hash lastBlock
    /\ participants st' = participants st
    /\ winners st' = winners st
    /\ arrays st' = arrays st
    /\ objects st' = objects st.
Proof.
  intros Hwf%reachable_wf Hseed Hs Heq.
  destruct (last_is_Some (chain st)) as [_ Hl].
  destruct (Hl (wf_chain st Hwf)) as [lastBlock Hlast]. clear Hl.
  assert (Hsid : sid <> "") by (apply (wf_ids st Hwf); by rewrite Hs).
  destruct (revealSeed_matching st now sid seed session lastBlock Hsid Hseed Hs Heq Hlast)
    as (st' & b & Hrun & H1 & H2 & H3 & H4 & H5 & H6 & H7 & H8).
  exists st', b, lastBlock. auto 12.
Qed.

Lemma revealSeed_matching_accepted_witness :
  exists st' b lastBlock,
    requestListener (RevealSeed 2008 "2000" "s3cr3t") (run 1000 single_drawn) = (Revealed, st')
    /\ sessions st'
       = <[ "2000" := set_revealedSeed "s3cr3t"
                        (mkSession "2000" "gala" committed (Some "s3cr3t") true) ]>
           (sessions (run 1000 single_drawn))
    /\ last (chain (run 1000 single_drawn)) = Some lastBlock
    /\ chain st' = chain (run 1000 single_drawn) ++ [b]
    /\ data b = SEED_REVEALED "2000" "s3cr3t"
    /\ previousHash b = hash lastBlock
    /\ participants st' = participants (run 1000 single_drawn)
    /\ winners st' = winners (run 1000 single_drawn)
    /\ arrays st' = arrays (run 1000 single_drawn)
    /\ objects st' = objects (run 1000 single_drawn).
Proof.
  apply (revealSeed_matching_accepted (run 1000 single_drawn) 2008 "2000" "s3cr3t"
           (mkSession "2000" "gala" committed (Some "s3cr3t") true)).
  - exists 1000, single_drawn. reflexivity.
  - discriminate.
  - vm_compute. reflexivity.
  - vm_compute. reflexivity.
Defined.

(** [enter] reads neither [revealedSeed] nor [drawn]. *)
Lemma enter_accepted st now sid user session p lastBlock :
  sid <> "" -> user <> "" ->
  sessions st !! sid = Some session ->
  participants st !! sid = Some p ->
  (p < length (arrays st))%nat ->
  last (chain st) = Some lastBlock ->
  exists st',
    requestListener (Enter now sid user) st = (ParticipantList (participants_of st' sid), st')
    /\ sessions st' = sessions st
    /\ (((Some user ∈ participants_of st sid) /\ st' = st)
        \/ ((Some user ∉ participants_of st sid)
            /\ participants_of st' sid = participants_of st sid ++ [Some user]
            /\ exists b, chain st' = chain st ++ [b] /\ data b = USER_ENTERED sid user)).
Proof.
  intros Hsid Huser Hs Hp Hlt Hlast.
  unfold requestListener, handler, enter.
  rewrite (truthy_true _ Hsid), (truthy_true _ Huser). msimpl.
  mstep. rewrite Hs. msteps. rewrite Hp. msteps.
  assert (Hpo : participants_of st sid = array_at st p)
    by (unfold participants_of; by rewrite Hp).
  rewrite !Hpo.
  unfold includes. destruct (bool_decide_reflect (Some user ∈ array_at st p)) as [Hin|Hin].
  - msteps. exists st. rewrite Hpo.
    split; [reflexivity|]. split; [reflexivity|]. by left.
  - msteps. rewrite (addBlock_run _ _ _ lastBlock) by (msimpl; exact Hlast).
    msteps.
    match goal with |- exists st', (_, ?s) = _ /\ _ => exists s end.
    assert (Hnew : forall s : State,
              participants s = <[sid := p]> (participants st) ->
              arrays s = <[p := array_at st p ++ [Some user]]> (arrays st) ->
              participants_of s sid = array_at st p ++ [Some user]
              /\ array_at s p = array_at st p ++ [Some user]).
    { intros s Ps As. unfold participants_of, array_at at 1 3.
      by rewrite Ps, As, lookup_insert_eq, list_lookup_insert_eq. }
    match goal with |- (_, ?s) = _ /\ _ =>
      destruct (Hnew s) as [Hn1 Hn2]; [reflexivity|reflexivity|]
    end.
    rewrite Hn1, Hn2. split; [reflexivity|]. split; [reflexivity|right].
    split; [done|]. split; [done|]. eexists. split; reflexivity.
Qed.

(** C5, as the code has it.  In every state the server reaches, [enter]
    with a non-empty participant is accepted whenever the session exists,
    whatever its state (seed revealed or not, drawn or not): a participant
    already enrolled changes nothing, a new one is appended to the
    participants list and a USER_ENTERED block is appended.  The answer is
    the current list. *)
Theorem enter_accepted_in_any_state
    (st : State) (now : Z) (sid user : string) (session : Session) :
  reachable st ->
  user <> "" ->
  sessions st !! sid = Some session ->
  exists st',
    requestListener (Enter now sid user) st = (ParticipantList (participants_of st' sid), st')
    /\ sessions st' = sessions st
    /\ (((Some user ∈ participants_of st sid) /\ st' = st)
        \/ ((Some user ∉ participants_of st sid)
            /\ participants_of st' sid = participants_of st sid ++ [Some user]
            /\ exists b, chain st' = chain st ++ [b] /\ data b = USER_ENTERED sid user)).
Proof.
  intros Hwf%reachable_wf Huser Hs.
  destruct (last_is_Some (chain st)) as [_ Hl].
  destruct (Hl (wf_chain st Hwf)) as [lastBlock Hlast]. clear Hl.
  assert (Hsome : is_Some (sessions st !! sid)) by (by rewrite Hs).
  destruct (wf_session_facts st sid Hwf Hsome) as (_ & [p Hp] & Hsid).
  apply (enter_accepted st now sid user session p lastBlock); try done.
  by apply (wf_participants st Hwf sid).
Qed.

Lemma enter_accepted_in_any_state_witness :
  exists st',
    requestListener (Enter 2008 "2000" "d") (run 1000 single_drawn)
    = (ParticipantList (participants_of st' "2000"), st')
    /\ sessions st' = sessions (run 1000 single_drawn)
    /\ (((Some "d" ∈ participants_of (run 1000 single_drawn) "2000")
         /\ st' = run 1000 single_drawn)
        \/ ((Some "d" ∉ participants_of (run 1000 single_drawn) "2000")
            /\ participants_of st' "2000"
               = participants_of (run 1000 single_drawn) "2000" ++ [Some "d"]
            /\ exists b, chain st' = chain (run 1000 single_drawn) ++ [b]
                         /\ data b = USER_ENTERED "2000" "d")).
Proof.
  apply (enter_accepted_in_any_state (run 1000 single_drawn) 2008 "2000" "d"
           (mkSession "2000" "gala" committed (Some "s3cr3t") true)).
  - exists 1000, single_drawn. reflexivity.
  - discriminate.
  - vm_compute. reflexivity.
Defined.

(** Requests that [enter] refuses, in both cases without any change. *)
Lemma enter_rejected_without_change st now sid user :
  (sid = "" \/ user = "" ->
   requestListener (Enter now sid user) st
   = (Error 400 "sessionId and user are required", st))
  /\ (sid <> "" -> user <> "" -> sessions st !! sid = None ->
      object_prototype sid = None ->
      requestListener (Enter now sid user) st = (Error 404 "session not found", st)).
Proof.
  split.
  - intros H. unfold requestListener, handler, enter.
    assert (Hreq : (negb (truthy sid) || negb (truthy user))%bool = true).
    { destruct H as [->| ->]; [done|]. apply orb_true_r. }
    by rewrite Hreq.
  - intros Hsid Huser Hs Hpr. unfold requestListener, handler, enter.
    rewrite (truthy_true _ Hsid), (truthy_true _ Huser). msimpl. mstep.
    by rewrite Hs, Hpr.
Qed.

(** ** The links of the chain *)

Lemma default_last_cons {A} (d x : A) (l : list A) :
  default d (last (x :: l)) = default x (last l).
Proof.
  revert d x. induction l as [|y l IH]; intros d x; [reflexivity|].
  rewrite last_cons_cons. by rewrite (IH d y), (IH x y).
Qed.

Lemma linked_from_snoc prev rest b :
  linked_from prev rest ->
  previousHash b = hash (default prev (last rest)) ->
  index b = index (default prev (last rest)) + 1 ->
  linked_from prev (rest ++ [b]).
Proof.
  revert prev. induction rest as [|x rest IH]; intros prev Hl Hp Hi.
  - cbn in *. auto.
  - rewrite default_last_cons in Hp, Hi.
    destruct Hl as (? & ? & Hl). cbn [app linked_from]. repeat split; auto.
Qed.

Lemma kl_bind {A B} (m : M A) (f : A -> M B) :
  keeps_linked m -> (forall a, keeps_linked (f a)) -> keeps_linked (m ≫= f).
Proof.
  intros Hm Hf st Hl. rewrite bind_run.
  specialize (Hm st Hl). destruct (m st) as [[a|] st1]; cbn [snd] in *; [|done].
  by apply Hf.
Qed.

Lemma kl_same {A} (m : M A) :
  (forall st, chain (m st).2 = chain st) -> keeps_linked m.
Proof. intros H st Hl. by rewrite H. Qed.

Lemma kl_addBlock now d : keeps_linked (Blockchain.addBlock now d).
Proof.
  intros st Hl. destruct (last (chain st)) as [lastBlock|] eqn:Hlast.
  - rewrite (addBlock_run _ _ _ lastBlock Hlast). cbn [snd set_chain chain].
    destruct (chain st) as [|b0 rest]; [done|].
    destruct Hl as (? & ? & Hl). cbn [app linked]. repeat split; auto.
    assert (Hd : default b0 (last rest) = lastBlock).
    { rewrite <- (default_last_cons b0 b0), Hlast. done. }
    apply linked_from_snoc; auto; by rewrite Hd.
  - apply last_None in Hlast. by rewrite (addBlock_empty _ _ _ Hlast).
Qed.

Lemma kl_selectWinners p k randBase : keeps_linked (selectWinners p k randBase).
Proof. apply kl_same. intros st. by rewrite selectWinners_run. Qed.

Ltac kl :=
  repeat first
    [ apply kl_addBlock
    | apply kl_selectWinners
    | apply kl_bind; [|intros ?]
    | (apply kl_same; intros; reflexivity)
    | (apply kl_same; intros; apply assign_chain)
    | match goal with
      | |- keeps_linked (match ?x with _ => _ end) => destruct x
      end
    | progress unfold push, set_property, update_session, participants_or_new,
                      Blockchain.getLatestHash, of_option ].

Lemma kl_draw_tiers keys : forall tc randBase T A remaining,
  keeps_linked (draw_tiers keys tc randBase T A remaining).
Proof.
  induction keys as [|tier keys IH]; intros; cbn [draw_tiers]; kl; apply IH.
Qed.

Lemma kl_import_each users : forall list added,
  keeps_linked (import_each users list added).
Proof.
  induction users as [|user users IH]; intros; cbn [import_each]; kl; apply IH.
Qed.

Lemma kl_import_each_onto users : keeps_linked (import_each_onto users).
Proof.
  induction users as [|user users IH]; cbn [import_each_onto]; kl; apply IH.
Qed.

Lemma kl_handler r : keeps_linked (handler r).
Proof.
  destruct r; cbn [handler];
    unfold createSession, enter, revealSeed, draw, drawTier, importParticipants,
           selectWinners_num;
    kl; first [apply kl_draw_tiers | apply kl_import_each | apply kl_import_each_onto].
Qed.

(** In every state the server reaches, block 0 has index 0 and previous
    hash "0", and every later block carries the hash stored in the block
    before it and the next index. *)
Lemma reachable_chain_linked st : reachable st -> linked (chain st).
Proof.
  intros (now0 & rs & ->). unfold run.
  induction rs as [|r rs IH] using rev_ind.
  - cbn. auto.
  - rewrite foldl_app. cbn [foldl]. unfold step at 1.
    rewrite requestListener_state. by apply kl_handler.
Qed.


(** * Further properties of the server and the chain *)

(** ** The chain is numbered, linked and append-only *)

Lemma linked_from_lookup prev rest :
  linked_from prev rest ->
  forall i b, rest !! i = Some b ->
    index b = index prev + Z.of_nat (S i)
    /\ exists p, (prev :: rest) !! i = Some p /\ previousHash b = hash p.
Proof.
  revert prev. induction rest as [|x rest IH]; intros prev Hl i b Hi; [done|].
  destruct Hl as (Hp & Hx & Hl). destruct i as [|i].
  - injection Hi as <-. split; [lia|]. exists prev. by split.
  - cbn in Hi. destruct (IH x Hl i b Hi) as (Hidx & p & Hlook & Hprev).
    split; [lia|]. exists p. by split.
Qed.

Lemma linked_lookup c i b :
  linked c -> c !! i = Some b ->
  index b = Z.of_nat i
  /\ match i with
     | O => previousHash b = "0"
     | S j => exists prev, c !! j = Some prev /\ previousHash b = hash prev
     end.
Proof.
  destruct c as [|b0 rest]; [done|]. intros (Hp & Hi & Hl) Hb.
  destruct i as [|i].
  - injection Hb as <-. by split.
  - cbn in Hb. destruct (linked_from_lookup b0 rest Hl i b Hb) as (Hidx & p & Hlook & Hprev).
    split; [lia|]. eauto.
Qed.

(** X1.  In every state the server reaches the chain is not empty, the block
    at position [i] carries the index [i], block 0 has previous hash "0",
    and every later block carries as previous hash the hash stored in the
    block before it. *)
Theorem chain_numbered_and_linked (st : State) :
  reachable st ->
  chain st <> []
  /\ forall i b, chain st !! i = Some b ->
       index b = Z.of_nat i
       /\ match i with
          | O => previousHash b = "0"
          | S j => exists prev, chain st !! j = Some prev /\ previousHash b = hash prev
          end.
Proof.
  intros Hr. split.
  - apply (wf_chain st), reachable_wf, Hr.
  - intros i b. apply linked_lookup, reachable_chain_linked, Hr.
Qed.

Lemma chain_numbered_and_linked_witness :
  chain (run 1000 enrolled) <> []
  /\ forall i b, chain (run 1000 enrolled) !! i = Some b ->
       index b = Z.of_nat i
       /\ match i with
          | O => previousHash b = "0"
          | S j => exists prev, chain (run 1000 enrolled) !! j = Some prev
                                /\ previousHash b = hash prev
          end.
Proof.
  apply (chain_numbered_and_linked (run 1000 enrolled)).
  exists 1000, enrolled. reflexivity.
Defined.

Lemma appends_weaken {A} (k k' : nat) (m : M A) :
  (k <= k')%nat -> appends k m -> appends k' m.
Proof.
  intros Hk Hm st. destruct (Hm st) as (more & Hc & Hl).
  exists more. split; [done|lia].
Qed.

Lemma appends_bind {A B} (k1 k2 : nat) (m : M A) (f : A -> M B) :
  appends k1 m -> (forall a, appends k2 (f a)) -> appends (k1 + k2) (m ≫= f).
Proof.
  intros Hm Hf st. rewrite bind_run.
  destruct (Hm st) as (more1 & Hc1 & Hl1).
  destruct (m st) as [[a|] st1]; cbn [snd] in *.
  - destruct (Hf a st1) as (more2 & Hc2 & Hl2).
    exists (more1 ++ more2). rewrite Hc2, Hc1, <- app_assoc, length_app.
    split; [done|lia].
  - exists more1. split; [done|lia].
Qed.

Lemma appends_same {A} (m : M A) :
  (forall st, chain (m st).2 = chain st) -> appends 0 m.
Proof. intros H st. exists []. by rewrite H, app_nil_r. Qed.

Lemma appends_addBlock now d : appends 1 (Blockchain.addBlock now d).
Proof.
  intros st. destruct (last (chain st)) as [lastBlock|] eqn:Hlast.
  - rewrite (addBlock_run _ _ _ lastBlock Hlast). cbn [snd set_chain chain].
    eexists [_]. split; [reflexivity|]. cbn. lia.
  - apply last_None in Hlast. rewrite (addBlock_empty _ _ _ Hlast).
    exists []. split; [by rewrite app_nil_r|cbn; lia].
Qed.

Lemma appends_selectWinners p k randBase : appends 0 (selectWinners p k randBase).
Proof. apply appends_same. intros st. by rewrite selectWinners_run. Qed.

Ltac ap0 :=
  repeat first
    [ apply appends_selectWinners
    | (apply appends_same; intros; reflexivity)
    | (apply appends_same; intros; apply assign_chain)
    | apply (appends_bind 0 0); [|intros ?]
    | match goal with
      | |- appends _ (match ?x with _ => _ end) => destruct x
      end
    | progress unfold push, set_property, update_session, participants_or_new,
                      Blockchain.getLatestHash, of_option ].

Lemma appends_draw_tiers keys : forall tc randBase T A remaining,
  appends 0 (draw_tiers keys tc randBase T A remaining).
Proof.
  induction keys as [|tier keys IH]; intros; cbn [draw_tiers]; ap0; apply IH.
Qed.

Lemma appends_import_each users : forall list added,
  appends 0 (import_each users list added).
Proof.
  induction users as [|user users IH]; intros; cbn [import_each]; ap0; apply IH.
Qed.

Lemma appends_import_each_onto users : appends 0 (import_each_onto users).
Proof.
  induction users as [|user users IH]; cbn [import_each_onto]; ap0; apply IH.
Qed.

Ltac ap0' :=
  ap0;
  first [apply appends_draw_tiers | apply appends_import_each
        | apply appends_import_each_onto].

Ltac ap1 :=
  first
    [ apply appends_addBlock
    | solve [apply (appends_weaken 0 1); [lia|]; ap0']
    | apply (appends_bind 0 1); [solve [ap0']|intros ?; ap1]
    | apply (appends_bind 1 0); [ap1|intros ?; solve [ap0']]
    | match goal with
      | |- appends _ (match ?x with _ => _ end) => destruct x; ap1
      end ].

Lemma appends_handler r : appends 1 (handler r).
Proof.
  destruct r; cbn [handler];
    unfold createSession, enter, revealSeed, draw, drawTier, importParticipants,
           selectWinners_num.
  all: ap1.
Qed.

(** X2.  Whatever the state and the request, the blocks already in the chain
    stay where they are, with their stored fields, and at most one block is
    appended after them. *)
Theorem chain_append_only (st : State) (r : Request) :
  exists more,
    chain (requestListener r st).2 = chain st ++ more /\ (length more <= 1)%nat.
Proof. rewrite requestListener_state. apply appends_handler. Qed.

Ltac mstate1 :=
  unfold set_sessions, set_participants, set_winners, set_arrays, set_objects, set_chain,
         set_protos;
  cbn [sessions participants winners arrays objects chain protos].

Ltac mstate :=
  mstate1;
  repeat (progress rewrite ?assign_sessions, ?assign_participants, ?assign_winners,
                           ?assign_arrays, ?assign_chain, ?array_at_assign,
                           ?assign_objects_length;
          mstate1).

(** ** Session creation *)

Lemma computeHash_no_refs st st' b :
  Blockchain.stringify_data st (data b) = Blockchain.stringify_data st' (data b) ->
  Blockchain.computeHash st b = Blockchain.computeHash st' b.
Proof.
  intros H. unfold Blockchain.computeHash, Blockchain.stringify_clone. by rewrite H.
Qed.

Lemma createSession_run st nowId now name sh lastBlock :
  name <> "" -> sh <> "" -> last (chain st) = Some lastBlock ->
  exists b,
    createSession nowId now name sh st
    = (Some (SessionCreated (pretty nowId)),
       mkState (<[pretty nowId := mkSession (pretty nowId) name sh None false]> (sessions st))
               (<[pretty nowId := length (arrays st)]> (participants st))
               (<[pretty nowId := mkWinners (S (length (arrays st))) (length (objects st))]>
                  (winners st))
               (arrays st ++ [[]; []]) (objects st ++ [[]]) (chain st ++ [b])
               (protos st))
    /\ data b = SESSION_CREATED (pretty nowId) name sh
    /\ previousHash b = hash lastBlock
    /\ index b = index lastBlock + 1
    /\ timestamp b = now
    /\ forall s, Blockchain.computeHash s b = hash b.
Proof.
  intros Hname Hsh Hlast. unfold createSession.
  rewrite (truthy_true _ Hname), (truthy_true _ Hsh). msimpl.
  msteps. rewrite (addBlock_run _ _ _ lastBlock) by (msimpl; exact Hlast).
  msteps. mstate. rewrite !length_app. cbn [length]. rewrite !Nat.add_1_r, <- !app_assoc.
  eexists. split; [reflexivity|]. repeat split; try reflexivity.
Qed.

(** X3.  In every state the server reaches, [createSession] with a non-empty
    name and seed hash answers with the clock reading as session id and
    leaves a session with that id that is open (no revealed seed, not
    drawn), has no participants and no winners, also when a session with
    that id existed before; the other sessions keep their records, and one
    SESSION_CREATED block is appended after the former tip. *)
Theorem createSession_opens_session
    (st : State) (nowId now : Z) (name sh : string) :
  reachable st ->
  name <> "" -> sh <> "" ->
  exists st' b lastBlock,
    requestListener (CreateSession nowId now name sh) st
    = (SessionCreated (pretty nowId), st')
    /\ sessions st' = <[pretty nowId := mkSession (pretty nowId) name sh None false]> (sessions st)
    /\ participants_of st' (pretty nowId) = []
    /\ allWinners_of st' (pretty nowId) = []
    /\ tierWinners_of st' (pretty nowId) = []
    /\ (forall sid, sid <> pretty nowId ->
          participants_of st' sid = participants_of st sid
          /\ allWinners_of st' sid = allWinners_of st sid
          /\ winners st' !! sid = winners st !! sid)
    /\ objects st' = objects st ++ [[]]
    /\ last (chain st) = Some lastBlock
    /\ chain st' = chain st ++ [b]
    /\ data b = SESSION_CREATED (pretty nowId) name sh
    /\ previousHash b = hash lastBlock
    /\ timestamp b = now.
Proof.
  intros Hwf%reachable_wf Hname Hsh.
  destruct (last_is_Some (chain st)) as [_ Hl].
  destruct (Hl (wf_chain st Hwf)) as [lastBlock Hlast]. clear Hl.
  destruct (createSession_run st nowId now name sh lastBlock Hname Hsh Hlast)
    as (b & Hrun & Hd & Hp & Hi & Ht & Hh).
  eexists _, b, lastBlock. split.
  { apply requestListener_handler. exact Hrun. }
  cbn [sessions chain objects].
  unfold participants_of, allWinners_of, tierWinners_of, snapshot_tiers, array_at, object_at.
  cbn [participants winners arrays objects all tiers].
  rewrite !lookup_insert_eq. cbn [all tiers].
  rewrite lookup_app_r by lia. rewrite Nat.sub_diag.
  rewrite (lookup_app_r (arrays st)) by lia.
  replace (S (length (arrays st)) - length (arrays st))%nat with 1%nat by lia.
  rewrite (lookup_app_r (objects st)) by lia. rewrite Nat.sub_diag.
  repeat split; try done.
  - rewrite lookup_insert_ne by done.
    destruct (participants st !! sid) as [p|] eqn:Hpl; [|done].
    rewrite lookup_app_l; [done|]. by eapply wf_participants.
  - rewrite lookup_insert_ne by done.
    destruct (winners st !! sid) as [w|] eqn:Hw; [|done].
    rewrite lookup_app_l; [done|]. by eapply wf_winners.
  - by rewrite lookup_insert_ne.
Qed.

Lemma createSession_opens_session_witness :
  exists st' b lastBlock,
    requestListener (CreateSession 2000 2009 "again" "ab") (run 1000 single_drawn)
    = (SessionCreated (pretty 2000), st')
    /\ sessions st'
       = <[pretty 2000 := mkSession (pretty 2000) "again" "ab" None false]>
           (sessions (run 1000 single_drawn))
    /\ participants_of st' (pretty 2000) = []
    /\ allWinners_of st' (pretty 2000) = []
    /\ tierWinners_of st' (pretty 2000) = []
    /\ (forall sid, sid <> pretty 2000 ->
          participants_of st' sid = participants_of (run 1000 single_drawn) sid
          /\ allWinners_of st' sid = allWinners_of (run 1000 single_drawn) sid
          /\ winners st' !! sid = winners (run 1000 single_drawn) !! sid)
    /\ objects st' = objects (run 1000 single_drawn) ++ [[]]
    /\ last (chain (run 1000 single_drawn)) = Some lastBlock
    /\ chain st' = chain (run 1000 single_drawn) ++ [b]
    /\ data b = SESSION_CREATED (pretty 2000) "again" "ab"
    /\ previousHash b = hash lastBlock
    /\ timestamp b = 2009.
Proof.
  apply (createSession_opens_session (run 1000 single_drawn) 2000 2009 "again" "ab").
  - exists 1000, single_drawn. reflexivity.
  - discriminate.
  - discriminate.
Defined.

(** ** A generated seed *)

Lemma to_hex_nonempty (b : bytes) : b <> [] -> to_hex b <> "".
Proof. destruct b as [|x b]; [done|]. intros _. unfold to_hex. cbn. discriminate. Qed.

Lemma sha256_hex_nonempty s : sha256_hex s <> "".
Proof.
  unfold sha256_hex. apply to_hex_nonempty.
  pose proof (sha256_length (utf8 s)) as H. by destruct (sha256 (utf8 s)).
Qed.

Lemma commit_then_reveal st seed nowId now now' name :
  wf st -> name <> "" -> seed <> "" ->
  exists st1 st2 b,
    requestListener (CreateSession nowId now name (sha256_hex seed)) st
    = (SessionCreated (pretty nowId), st1)
    /\ requestListener (RevealSeed now' (pretty nowId) seed) st1 = (Revealed, st2)
    /\ sessions st2 !! pretty nowId
       = Some (mkSession (pretty nowId) name (sha256_hex seed) (Some seed) false)
    /\ chain st2 = chain st1 ++ [b]
    /\ data b = SEED_REVEALED (pretty nowId) seed.
Proof.
  intros Hwf Hname Hseed.
  destruct (last_is_Some (chain st)) as [_ Hl].
  destruct (Hl (wf_chain st Hwf)) as [lastBlock Hlast]. clear Hl.
  destruct (createSession_run st nowId now name (sha256_hex seed) lastBlock
              Hname (sha256_hex_nonempty _) Hlast)
    as (b1 & Hrun & _).
  apply (requestListener_handler (CreateSession nowId now name _)) in Hrun. rewrite Hrun.
  match type of Hrun with _ = (_, ?s) => set (st1 := s) end.
  destruct (revealSeed_matching st1 now' (pretty nowId) seed
              (mkSession (pretty nowId) name (sha256_hex seed) None false) b1)
    as (st2 & b & Hrev & Hs & Hc & Hd & _).
  - apply pretty_Z_nonempty.
  - exact Hseed.
  - subst st1. cbn [sessions]. by rewrite lookup_insert_eq.
  - reflexivity.
  - subst st1. cbn [chain]. by rewrite last_snoc.
  - exists st1, st2, b. repeat split; try done.
    rewrite Hs. by rewrite lookup_insert_eq.
Qed.

(** X4.  A seed that [generateSeed] produced from 32 random bytes can be
    committed and revealed: in every state the server reaches,
    [createSession] with the generated hash succeeds, and [revealSeed] with
    the generated seed is then accepted for that session and stores the
    seed. *)
Theorem generated_seed_commits_and_reveals
    (st : State) (random : bytes) (nowId now now' : Z) (name : string) :
  reachable st ->
  name <> "" ->
  length random = 32%nat ->
  exists st1 st2 b,
    requestListener (CreateSession nowId now name (generateSeed random).2) st
    = (SessionCreated (pretty nowId), st1)
    /\ requestListener (RevealSeed now' (pretty nowId) (generateSeed random).1) st1
       = (Revealed, st2)
    /\ sessions st2 !! pretty nowId
       = Some (mkSession (pretty nowId) name (generateSeed random).2
                 (Some (generateSeed random).1) false)
    /\ chain st2 = chain st1 ++ [b]
    /\ data b = SEED_REVEALED (pretty nowId) (generateSeed random).1.
Proof.
  intros Hwf%reachable_wf Hname Hlen. cbn [generateSeed fst snd].
  apply commit_then_reveal; [done|done|].
  apply to_hex_nonempty. by destruct random.
Qed.

Lemma generated_seed_commits_and_reveals_witness :
  exists st1 st2 b,
    requestListener (CreateSession 3000 3001 "gala" (generateSeed (replicate 32 7)).2)
      (run 1000 enrolled)
    = (SessionCreated (pretty 3000), st1)
    /\ requestListener (RevealSeed 3002 (pretty 3000) (generateSeed (replicate 32 7)).1) st1
       = (Revealed, st2)
    /\ sessions st2 !! pretty 3000
       = Some (mkSession (pretty 3000) "gala" (generateSeed (replicate 32 7)).2
                 (Some (generateSeed (replicate 32 7)).1) false)
    /\ chain st2 = chain st1 ++ [b]
    /\ data b = SEED_REVEALED (pretty 3000) (generateSeed (replicate 32 7)).1.
Proof.
  apply (generated_seed_commits_and_reveals (run 1000 enrolled) (replicate 32 7) 3000 3001 3002
           "gala").
  - exists 1000, enrolled. reflexivity.
  - discriminate.
  - reflexivity.
Defined.

(** ** selectWinners outside 1..n *)

Lemma shuffled_nonpositive src k randBase : k <= 0 -> shuffled src k randBase = src.
Proof.
  intros Hk. unfold shuffled. replace (Z.to_nat k) with 0%nat by lia. reflexivity.
Qed.

Lemma selected_negative src k randBase :
  k < 0 -> selected src k randBase = take (length src - Z.to_nat (- k)) src.
Proof.
  intros Hk. unfold selected. rewrite shuffled_nonpositive by lia.
  unfold slice0. destruct (Z.ltb_spec k 0); [|lia]. f_equal. lia.
Qed.

Lemma array_at_selectWinners st p k randBase :
  array_at (selectWinners p k randBase st).2 (S (length (arrays st)))
  = selected (array_at st p) k randBase.
Proof.
  rewrite selectWinners_run. unfold array_at at 1. cbn [snd set_arrays arrays].
  rewrite lookup_app_r by lia.
  replace (S (length (arrays st)) - length (arrays st))%nat with 1%nat by lia.
  reflexivity.
Qed.

(** X5.  With a negative [k] [selectWinners] takes no random number: it
    returns the candidates without their last [-k] elements, in their
    order, the same for every material. *)
Theorem selectWinners_negative_count
    (st : State) (p : loc) (k : Z) (material : bytes) :
  k < 0 ->
  exists r st',
    selectWinners p k material st = (Some r, st')
    /\ array_at st' r = take (length (array_at st p) - Z.to_nat (- k)) (array_at st p).
Proof.
  intros Hk. eexists _, _. split; [apply selectWinners_run|].
  pose proof (array_at_selectWinners st p k material) as H.
  rewrite selectWinners_run in H. cbn [snd] in H. rewrite H.
  by apply selected_negative.
Qed.

Lemma selectWinners_negative_count_witness :
  exists r st',
    selectWinners 0 (-1) [1; 2; 3] three_candidates = (Some r, st')
    /\ array_at st' r
       = take (length (array_at three_candidates 0) - Z.to_nat (- (-1)))
              (array_at three_candidates 0).
Proof.
  apply (selectWinners_negative_count three_candidates 0%nat (-1) [1; 2; 3]). lia.
Defined.

(** X6.  Drawing as many winners as there are candidates returns every
    candidate exactly once. *)
Theorem selectWinners_all_candidates
    (st : State) (p : loc) (candidates : list string) (material : bytes) :
  arrays st !! p = Some (Some <$> candidates) ->
  exists r st',
    selectWinners p (Z.of_nat (length candidates)) material st = (Some r, st')
    /\ array_at st' r ≡ₚ Some <$> candidates.
Proof.
  intros Hp. eexists _, _. split; [apply selectWinners_run|].
  pose proof (array_at_selectWinners st p (Z.of_nat (length candidates)) material) as H.
  rewrite selectWinners_run in H. cbn [snd] in H. rewrite H.
  assert (Hat : array_at st p = Some <$> candidates) by (unfold array_at; by rewrite Hp).
  rewrite Hat, selected_spec by lia.
  apply fmap_Permutation. unfold Spec.select.
  rewrite firstn_all2 by (rewrite spec_steps_length; lia).
  apply spec_steps_perm.
Qed.

Lemma selectWinners_all_candidates_witness :
  exists r st',
    selectWinners 0 (Z.of_nat (length ["a"; "b"; "c"])) [1; 2; 3] three_candidates
    = (Some r, st')
    /\ array_at st' r ≡ₚ Some <$> ["a"; "b"; "c"].
Proof.
  apply (selectWinners_all_candidates three_candidates 0%nat ["a"; "b"; "c"] [1; 2; 3]).
  reflexivity.
Defined.

Lemma unchanged_refl st : unchanged st st.
Proof. repeat split. exists []. by rewrite app_nil_r. Qed.

(** ** A block and the store it was sealed in *)

Lemma stringify_data_same st st' d :
  arrays st' = arrays st -> objects st' = objects st ->
  Blockchain.stringify_data st' d = Blockchain.stringify_data st d.
Proof.
  intros Ha Ho. destruct d; cbn [Blockchain.stringify_data]; try done;
    unfold Blockchain.stringify_tiers, array_at, object_at; by rewrite ?Ha, ?Ho.
Qed.

Lemma computeHash_seal s s0 b0 :
  arrays s = arrays s0 -> objects s = objects s0 ->
  Blockchain.computeHash s (Blockchain.seal s0 b0) = hash (Blockchain.seal s0 b0).
Proof.
  intros Ha Ho. cbn [Blockchain.seal hash].
  unfold Blockchain.computeHash, Blockchain.stringify_clone.
  cbn [index timestamp data previousHash].
  by rewrite (stringify_data_same s0 s).
Qed.

(** ** The whole-session draw without tiers *)

Lemma draw_single_run st now sid numWinners tierCounts session seed p lastBlock :
  sessions st !! sid = Some session ->
  drawn session = false ->
  seed_of session = Some seed ->
  participants st !! sid = Some p ->
  array_at st p <> [] ->
  last (chain st) = Some lastBlock ->
  default [] tierCounts = [] ->
  let l := array_at st p in
  let material := sha256 (utf8 (hash lastBlock +:+ seed +:+ pretty (length l))) in
  let k := Z.min (num_or numWinners 1) (Z.of_nat (length l)) in
  let ws := selected l k material in
  let n := length (arrays st) in
  let m := length (objects st) in
  exists b,
    draw now sid numWinners tierCounts st
    = (Some (DrawResult ws None),
       mkState (alter (set_drawn true) sid (sessions st)) (participants st)
               (<[sid := mkWinners (S n) m]> (winners st))
               (arrays st ++ [shuffled l k material; ws])
               (objects st ++ [[("default", S n)]; [("default", S n)]])
               (chain st ++ [b]) (protos st))
    /\ data b = DRAWN sid (S n) (S m) (to_hex material)
    /\ previousHash b = hash lastBlock
    /\ index b = index lastBlock + 1
    /\ timestamp b = now
    /\ forall s, arrays s = arrays st ++ [shuffled l k material; ws] ->
          objects s = objects st ++ [[("default", S n)]; [("default", S n)]] ->
          Blockchain.computeHash s b = hash b.
Proof.
  intros Hs Hdrawn Hseed Hp Hne Hlast Htc l material k ws n m.
  unfold draw. mstep. rewrite Hs, Hdrawn, Hseed. mstep. rewrite Hp. mstep.
  destruct (Nat.eqb_spec (length (array_at st p)) 0) as [Hz|Hz].
  { by destruct (array_at st p). }
  msteps. rewrite Hlast. msteps. rewrite Htc. cbn [obj_of_members foldl obj_keys fmap list_fmap length Nat.ltb Nat.leb].
  mstep. rewrite selectWinners_run. msteps.
  rewrite (addBlock_run _ _ _ lastBlock) by (msimpl; exact Hlast).
  msteps. mstate.
  match goal with
  | |- context [DrawResult (array_at ?s ?i) None] =>
      assert (Hw : array_at s i = ws)
  end.
  { unfold array_at. cbn [arrays]. rewrite lookup_app_r by lia.
    replace (S (length (arrays st)) - length (arrays st))%nat with 1%nat by lia.
    reflexivity. }
  rewrite Hw. rewrite !length_app. cbn [length]. rewrite !Nat.add_1_r, <- !app_assoc.
  eexists. split; [reflexivity|]. repeat split; try reflexivity.
  intros s Ha Ho. apply computeHash_seal; cbn [arrays objects]; [by rewrite Ha|by rewrite Ho].
Qed.

(** ** Enrolment, spelled out *)

Lemma enter_run st now sid user session p lastBlock :
  sid <> "" -> user <> "" ->
  sessions st !! sid = Some session ->
  participants st !! sid = Some p ->
  (p < length (arrays st))%nat ->
  last (chain st) = Some lastBlock ->
  ((Some user ∈ array_at st p)
   /\ enter now sid user st = (Some (ParticipantList (array_at st p)), st))
  \/ ((Some user ∉ array_at st p)
      /\ exists b,
          enter now sid user st
          = (Some (ParticipantList (array_at st p ++ [Some user])),
             mkState (sessions st) (participants st) (winners st)
                     (<[p := array_at st p ++ [Some user]]> (arrays st))
                     (objects st) (chain st ++ [b]) (protos st))
          /\ data b = USER_ENTERED sid user
          /\ previousHash b = hash lastBlock
          /\ index b = index lastBlock + 1
          /\ timestamp b = now
          /\ forall s, Blockchain.computeHash s b = hash b).
Proof.
  intros Hsid Huser Hs Hp Hlt Hlast. unfold enter.
  rewrite (truthy_true _ Hsid), (truthy_true _ Huser). msimpl.
  mstep. rewrite Hs. msteps. rewrite Hp. msteps.
  unfold includes. destruct (bool_decide_reflect (Some user ∈ array_at st p)) as [Hin|Hin].
  - left. split; [done|]. msteps. reflexivity.
  - right. split; [done|]. msteps.
    rewrite (addBlock_run _ _ _ lastBlock) by (msimpl; exact Hlast).
    msteps. mstate. rewrite (insert_id (participants st)) by done.
    unfold array_at at 1. cbn [arrays]. rewrite list_lookup_insert_eq by done. cbn [default].
    eexists. split; [reflexivity|]. repeat split; reflexivity.
Qed.

(** ** The import loop *)

Lemma import_each_spec users : forall list added st,
  list <> added ->
  (list < length (arrays st))%nat -> (added < length (arrays st))%nat ->
  import_each users list added st
  = (Some tt,
     set_arrays (fun h =>
       <[added := (import_pure users (array_at st list) (array_at st added)).2]>
         (<[list := (import_pure users (array_at st list) (array_at st added)).1]> h)) st).
Proof.
  induction users as [|user users IH]; intros list added st Hne Hl Ha.
  - cbn [import_each import_pure fst snd mret M_ret]. f_equal.
    unfold set_arrays, array_at.
    destruct (lookup_lt_is_Some_2 (arrays st) list Hl) as [x Hx].
    destruct (lookup_lt_is_Some_2 (arrays st) added Ha) as [y Hy].
    rewrite Hx, Hy. cbn [default].
    rewrite (list_insert_id _ list) by done. rewrite list_insert_id by done.
    by rewrite state_eta.
  - cbn [import_each import_pure]. mstep.
    destruct (truthy (trim user) && negb (includes (array_at st list) (Some (trim user)))).
    + msteps.
      rewrite IH; [|done|msimpl; by rewrite !length_insert..].
      f_equal. unfold array_at. mstate.
      rewrite (list_lookup_insert_ne _ list added) by done.
      rewrite (list_lookup_insert_ne _ added list) by done.
      rewrite list_lookup_insert_eq by done.
      rewrite list_lookup_insert_eq by (by rewrite length_insert).
      cbn [default].
      f_equal.
      set (r := import_pure users _ _).
      rewrite (list_insert_insert_ne _ list added) by done.
      by rewrite !list_insert_insert_eq.
    + msteps. by apply IH.
Qed.

Lemma import_pure_spec users : forall l a,
  exists ad,
    import_pure users l a = (l ++ ad, a ++ ad)
    /\ Forall (fun x => exists user, user ∈ users /\ x = Some (trim user) /\ trim user <> "") ad
    /\ (NoDup l -> NoDup (l ++ ad))
    /\ (forall user, user ∈ users -> trim user <> "" -> Some (trim user) ∈ l ++ ad).
Proof.
  induction users as [|user users IH]; intros l a.
  - exists []. rewrite !app_nil_r. repeat split; auto.
    intros user Hin. by apply elem_of_nil in Hin.
  - cbn [import_pure].
    destruct (truthy (trim user)) eqn:Ht; cbn [andb].
    + unfold includes.
      destruct (bool_decide_reflect (Some (trim user) ∈ l)) as [Hin|Hin]; cbn [negb].
      * destruct (IH l a) as (ad & -> & Hall & Hnd & Hcov).
        exists ad. repeat split; auto.
        -- eapply Forall_impl; [exact Hall|]. intros x (u & Hu & Hx). exists u.
           split; [by apply list_elem_of_further|done].
        -- intros u [->|Hu]%elem_of_cons Hne; [|by apply Hcov].
           apply elem_of_app. by left.
      * destruct (IH (l ++ [Some (trim user)]) (a ++ [Some (trim user)]))
          as (ad & -> & Hall & Hnd & Hcov).
        exists (Some (trim user) :: ad). rewrite <- !app_assoc. cbn [app].
        repeat split.
        -- apply Forall_cons. split.
           ++ exists user. split; [apply list_elem_of_here|]. split; [done|].
              by apply truthy_true_iff.
           ++ eapply Forall_impl; [exact Hall|]. intros x (u & Hu & Hx). exists u.
              split; [by apply list_elem_of_further|done].
        -- intros Hl. rewrite cons_middle, app_assoc. apply Hnd.
           apply NoDup_app. split; [done|]. split; [|apply NoDup_singleton].
           intros x Hx ->%list_elem_of_singleton. done.
        -- intros u [->|Hu]%elem_of_cons Hne.
           ++ apply elem_of_app. right. apply list_elem_of_here.
           ++ rewrite cons_middle, app_assoc. by apply Hcov.
    + destruct (IH l a) as (ad & -> & Hall & Hnd & Hcov).
      exists ad. repeat split; auto.
      * eapply Forall_impl; [exact Hall|]. intros x (u & Hu & Hx). exists u.
        split; [by apply list_elem_of_further|done].
      * intros u [->|Hu]%elem_of_cons Hne; [|by apply Hcov].
        by apply truthy_false_iff in Ht.
Qed.


Lemma roster_ok_nil : roster_ok [].
Proof. exists []. repeat split; [apply NoDup_nil_2|apply not_elem_of_nil]. Qed.

Lemma roster_ok_import users l a :
  roster_ok l -> roster_ok (import_pure users l a).1.
Proof.
  intros (c & -> & Hnd & Hne).
  destruct (import_pure_spec users (Some <$> c) a) as (ad & -> & Hall & Hnd' & _).
  cbn [fst].
  assert (Had : exists cad, ad = Some <$> cad /\ "" ∉ cad).
  { clear Hnd'. induction ad as [|x ad IH].
    - exists []. split; [done|apply not_elem_of_nil].
    - apply Forall_cons in Hall as [(u & _ & -> & Hu) Hall].
      destruct (IH Hall) as (cad & -> & Hc).
      exists (trim u :: cad). split; [done|].
      intros [H|H]%elem_of_cons; [by symmetry in H|done]. }
  destruct Had as (cad & -> & Hcad).
  exists (c ++ cad). rewrite fmap_app. split; [done|]. split.
  - apply (NoDup_fmap_1 Some). rewrite fmap_app. apply Hnd'.
    by apply (NoDup_fmap_2 Some).
  - intros [H|H]%elem_of_app; done.
Qed.

Lemma roster_ok_snoc l user :
  roster_ok l -> user <> "" -> Some user ∉ l -> roster_ok (l ++ [Some user]).
Proof.
  intros (c & -> & Hnd & Hne) Hu Hin.
  exists (c ++ [user]). rewrite fmap_app. split; [done|]. split.
  - apply NoDup_app. split; [done|]. split; [|apply NoDup_singleton].
    intros x Hx ->%list_elem_of_singleton. apply Hin.
    apply list_elem_of_fmap. eauto.
  - intros [H|H%list_elem_of_singleton]%elem_of_app; [done|]. by symmetry in H.
Qed.

(** ** The import request, spelled out *)

Lemma importParticipants_run st now sid users session p lastBlock :
  sid <> "" ->
  sessions st !! sid = Some session ->
  participants st !! sid = Some p ->
  (p < length (arrays st))%nat ->
  last (chain st) = Some lastBlock ->
  let r := import_pure users (array_at st p) [] in
  let n := length (arrays st) in
  exists more,
    importParticipants now sid users st
    = (Some (ImportResult r.1 r.2),
       mkState (sessions st) (participants st) (winners st)
               (<[n := r.2]> (<[p := r.1]> (arrays st ++ [[]])))
               (objects st) (chain st ++ more) (protos st))
    /\ (r.2 = [] -> more = [])
    /\ (r.2 <> [] ->
        exists b, more = [b]
          /\ data b = USERS_IMPORTED sid n
          /\ previousHash b = hash lastBlock
          /\ index b = index lastBlock + 1
          /\ timestamp b = now
          /\ hash b = sha256_hex
               (Json.obj [("index", Json.num (index b)); ("timestamp", Json.num now);
                          ("data", Json.obj [("type", Json.str "USERS_IMPORTED");
                                             ("sessionId", Json.str sid);
                                             ("users", Json.array r.2)]);
                          ("previousHash", Json.str (hash lastBlock))])).
Proof.
  intros Hsid Hs Hp Hlt Hlast r n. unfold importParticipants.
  rewrite (truthy_true _ Hsid). msimpl. mstep. rewrite Hs. msteps. rewrite Hp. msteps.
  rewrite import_each_spec;
    [|msimpl; rewrite ?length_app; cbn [length]; lia..].
  msteps.
  assert (Hat : forall s : State,
            arrays s = arrays st ++ [[]] ->
            array_at s p = array_at st p /\ array_at s (length (arrays st)) = []).
  { intros s Hs'. unfold array_at. rewrite Hs'. split.
    - by rewrite lookup_app_l.
    - by rewrite lookup_app_r, Nat.sub_diag by lia. }
  match goal with
  | |- context [import_pure users (array_at ?s p) (array_at ?s _)] =>
      destruct (Hat s) as [H1 H2]; [reflexivity|]; rewrite !H1, !H2
  end.
  mstate. rewrite (insert_id (participants st)) by done.
  change (import_pure users (array_at st p) []) with r.
  change (length (arrays st)) with n.
  assert (Hlen : length (arrays st ++ [[]]) = S n)
    by (rewrite length_app; cbn [length]; lia).
  assert (Hget : forall s : State,
            arrays s = <[n := r.2]> (<[p := r.1]> (arrays st ++ [[]])) ->
            array_at s n = r.2 /\ array_at s p = r.1).
  { intros s Hs'. unfold array_at. rewrite Hs'. split.
    - rewrite list_lookup_insert_eq; [done|]. rewrite length_insert. lia.
    - rewrite list_lookup_insert_ne by lia. rewrite list_lookup_insert_eq; [done|]. lia. }
  match goal with
  | |- context [(0 <? length (array_at ?s n))%nat] =>
      destruct (Hget s) as [G1 G2]; [reflexivity|]; rewrite !G1
  end.
  destruct (0 <? length r.2)%nat eqn:Hpos; msteps.
  - rewrite (addBlock_run _ _ _ lastBlock) by (msimpl; exact Hlast).
    msteps. mstate.
    match goal with
    | |- context [ImportResult (array_at ?s p) _] =>
        destruct (Hget s) as [G3 G4]; [reflexivity|]; rewrite ?G3, ?G4
    end.
    eexists [_]. split; [reflexivity|].
    split; [intros H; rewrite H in Hpos; discriminate|].
    intros _. eexists. split; [reflexivity|].
    repeat split; try reflexivity.
    unfold Blockchain.seal, Blockchain.computeHash, Blockchain.stringify_clone.
    cbn [hash index timestamp data previousHash Blockchain.stringify_data].
    unfold array_at. cbn [arrays].
    rewrite list_lookup_insert_eq by (rewrite length_insert; lia). reflexivity.
  - mstate.
    match goal with
    | |- context [ImportResult (array_at ?s p) _] =>
        destruct (Hget s) as [G3 G4]; [reflexivity|]; rewrite ?G3, ?G4
    end.
    exists []. rewrite app_nil_r. split; [reflexivity|].
    split; [done|]. intros H. destruct (r.2); [done|discriminate].
Qed.

(** ** Every way a request can go *)

Lemma wf_last st : wf st -> exists lastBlock, last (chain st) = Some lastBlock.
Proof.
  intros Hwf. destruct (last_is_Some (chain st)) as [_ Hl].
  apply Hl, (wf_chain st Hwf).
Qed.

Lemma createSession_cases st nowId now name sh :
  createSession nowId now name sh st
  = (Some (Error 400 "name and seedHash are required"), st)
  \/ (name <> "" /\ sh <> "").
Proof.
  unfold createSession.
  destruct (truthy name) eqn:Hn; [|by left].
  destruct (truthy sh) eqn:Hh; [|by left].
  right. by split; apply truthy_true_iff.
Qed.

Lemma stopped_refused sid status msg :
  status = 400 \/ status = 404 -> stopped sid (Some (Error status msg)).
Proof. done. Qed.

Lemma plain_no_participants st sid i :
  wf st -> object_prototype sid = Some i ->
  sessions st !! sid = None /\ participants st !! sid = None /\ winners st !! sid = None.
Proof.
  intros Hwf Hpr.
  assert (H : forall {A} (o : option A), (is_Some o -> object_prototype sid = None) -> o = None).
  { intros A [x|] Hx; [|done]. rewrite Hx in Hpr by eauto. discriminate. }
  repeat split; apply H; intros Hx; apply (wf_plain st Hwf); auto.
Qed.

Lemma enter_cases st now sid user :
  wf st ->
  (exists res, enter now sid user st = (res, st) /\ stopped sid res)
  \/ (exists session p lastBlock,
        sid <> "" /\ user <> ""
        /\ sessions st !! sid = Some session
        /\ participants st !! sid = Some p
        /\ (p < length (arrays st))%nat
        /\ last (chain st) = Some lastBlock).
Proof.
  intros Hwf. unfold enter.
  destruct (truthy sid) eqn:Hsid; [|left; eexists; split; [reflexivity|by left]].
  destruct (truthy user) eqn:Hu; [|left; eexists; split; [reflexivity|by left]].
  cbn [negb orb]. mstep.
  destruct (sessions st !! sid) as [session|] eqn:Hs.
  - right.
    destruct (wf_session_facts st sid Hwf) as (_ & [p Hp] & _); [by rewrite Hs|].
    destruct (wf_last st Hwf) as [lastBlock Hlast].
    exists session, p, lastBlock. apply truthy_true_iff in Hsid, Hu.
    repeat split; try done. by apply (wf_participants st Hwf sid).
  - left. destruct (object_prototype sid) as [i|] eqn:Hpr.
    + destruct (plain_no_participants st sid i Hwf Hpr) as (_ & Hp & _).
      msteps. rewrite Hp, Hpr. msteps.
      eexists. split; [reflexivity|]. cbn. rewrite Hpr. eauto.
    + eexists. split; [reflexivity|by right].
Qed.

Lemma revealSeed_cases st now sid seed :
  wf st ->
  (exists status msg,
     revealSeed now sid seed st = (Some (Error status msg), st)
     /\ (status = 400 \/ status = 404))
  \/ (exists session lastBlock,
        sid <> "" /\ seed <> ""
        /\ sessions st !! sid = Some session
        /\ sha256_hex seed = seedHash session
        /\ last (chain st) = Some lastBlock).
Proof.
  intros Hwf. unfold revealSeed.
  destruct (truthy sid) eqn:Hsid; [|left; eexists _, _; split; [reflexivity|by left]].
  destruct (truthy seed) eqn:Hu; [|left; eexists _, _; split; [reflexivity|by left]].
  cbn [negb orb]. mstep.
  destruct (sessions st !! sid) as [session|] eqn:Hs;
    [|left; destruct (object_prototype sid);
      eexists _, _; (split; [reflexivity|]); [by left|by right]].
  destruct (String.eqb_spec (sha256_hex seed) (seedHash session)) as [Heq|Hne];
    [|left; eexists _, _; split; [reflexivity|by left]].
  right. destruct (wf_last st Hwf) as [lastBlock Hlast].
  exists session, lastBlock. apply truthy_true_iff in Hsid, Hu. done.
Qed.

(** An import onto a member of [Object.prototype]: nothing is written but
    the empty array [added]. *)
Lemma importParticipants_onto st now sid users i :
  sid <> "" ->
  sessions st !! sid = None -> participants st !! sid = None ->
  object_prototype sid = Some i ->
  exists res,
    importParticipants now sid users st = (res, set_arrays (fun h => h ++ [[]]) st)
    /\ (res = None \/ res = Some (ImportedOnto i [])).
Proof.
  intros Hsid Hs Hp Hpr. unfold importParticipants.
  rewrite (truthy_true _ Hsid). msimpl. mstep. rewrite Hs, Hpr. msteps.
  rewrite Hp, Hpr. msteps.
  match goal with
  | |- context [import_each_onto users ?s] =>
      destruct (import_each_onto_run users s) as [->| ->]
  end; msteps.
  - rewrite array_at_alloc. eexists. split; [reflexivity|by right].
  - eexists. split; [reflexivity|by left].
Qed.

Lemma unchanged_alloc st more : unchanged st (set_arrays (fun h => h ++ more) st).
Proof. repeat split. by exists more. Qed.

Lemma importParticipants_cases st now sid users :
  wf st ->
  (exists res st',
     importParticipants now sid users st = (res, st')
     /\ unchanged st st' /\ stopped sid res)
  \/ (exists session p lastBlock,
        sid <> ""
        /\ sessions st !! sid = Some session
        /\ participants st !! sid = Some p
        /\ (p < length (arrays st))%nat
        /\ last (chain st) = Some lastBlock).
Proof.
  intros Hwf.
  destruct (truthy sid) eqn:Hsid.
  2:{ left. unfold importParticipants. rewrite Hsid.
      eexists _, _. split; [reflexivity|]. split; [apply unchanged_refl|by left]. }
  apply truthy_true_iff in Hsid.
  destruct (sessions st !! sid) as [session|] eqn:Hs.
  - right.
    destruct (wf_session_facts st sid Hwf) as (_ & [p Hp] & _); [by rewrite Hs|].
    destruct (wf_last st Hwf) as [lastBlock Hlast].
    exists session, p, lastBlock.
    repeat split; try done. by apply (wf_participants st Hwf sid).
  - left. destruct (object_prototype sid) as [i|] eqn:Hpr.
    + destruct (plain_no_participants st sid i Hwf Hpr) as (_ & Hp & _).
      destruct (importParticipants_onto st now sid users i Hsid Hs Hp Hpr)
        as (res & Hrun & Hres).
      eexists _, _. split; [exact Hrun|]. split; [apply unchanged_alloc|].
      destruct Hres as [-> | ->]; cbn; rewrite Hpr; eauto.
    + unfold importParticipants. rewrite (truthy_true _ Hsid). msimpl. mstep.
      rewrite Hs, Hpr.
      eexists _, _. split; [reflexivity|]. split; [apply unchanged_refl|by right].
Qed.

(** The conditions under which a whole-session draw goes through. *)
Lemma draw_cases st now sid numWinners tierCounts :
  wf st ->
  (exists status msg,
     draw now sid numWinners tierCounts st = (Some (Error status msg), st)
     /\ (status = 400 \/ status = 404))
  \/ (exists session seed p lastBlock,
        sessions st !! sid = Some session
        /\ drawn session = false
        /\ seed_of session = Some seed
        /\ participants st !! sid = Some p
        /\ (p < length (arrays st))%nat
        /\ array_at st p <> []
        /\ last (chain st) = Some lastBlock).
Proof.
  intros Hwf. unfold draw. mstep.
  destruct (sessions st !! sid) as [session|] eqn:Hs;
    [|left; destruct (object_prototype sid);
      eexists _, _; (split; [reflexivity|]); [by left|by right]].
  destruct (drawn session) eqn:Hd;
    [left; eexists _, _; split; [reflexivity|by left]|].
  destruct (seed_of session) as [seed|] eqn:Hseed;
    [|left; eexists _, _; split; [reflexivity|by left]].
  mstep.
  destruct (wf_session_participants st Hwf sid) as [p Hp]; [by rewrite Hs|].
  rewrite Hp. mstep.
  destruct (Nat.eqb_spec (length (array_at st p)) 0) as [Hz|Hz];
    [left; eexists _, _; split; [reflexivity|by left]|].
  right. destruct (wf_last st Hwf) as [lastBlock Hlast].
  exists session, seed, p, lastBlock. repeat split; try done.
  - by apply (wf_participants st Hwf sid).
  - intros H. by rewrite H in Hz.
Qed.


(** A tier draw that is refused: the dictionaries, the objects and the chain
    are as before; an array may have been allocated. *)
Lemma drawTier_cases st now sid tier count :
  wf st ->
  (exists status msg st',
     drawTier now sid tier count st = (Some (Error status msg), st')
     /\ (status = 400 \/ status = 404) /\ unchanged st st')
  \/ (exists session seed w lastBlock, drawTier_ready st sid tier session seed w lastBlock).
Proof.
  intros Hwf.
  destruct (truthy sid) eqn:Hsid;
    [|left; unfold drawTier; rewrite Hsid;
      eexists _, _, _; split; [reflexivity|split; [by left|apply unchanged_refl]]].
  destruct (truthy tier) eqn:Htier;
    [|left; unfold drawTier; rewrite Hsid, Htier;
      eexists _, _, _; split; [reflexivity|split; [by left|apply unchanged_refl]]].
  destruct (sessions st !! sid) as [session|] eqn:Hs;
    [|left; unfold drawTier; rewrite Hsid, Htier; msimpl; mstep; rewrite Hs;
      destruct (object_prototype sid);
      eexists _, _, _; (split; [reflexivity|]);
      (split; [|apply unchanged_refl]); [by left|by right]].
  destruct (seed_of session) as [seed|] eqn:Hseed;
    [|left; unfold drawTier; rewrite Hsid, Htier; msimpl; mstep; rewrite Hs, Hseed;
      eexists _, _, _; split; [reflexivity|split; [by left|apply unchanged_refl]]].
  destruct (wf_session_winners st Hwf sid) as [w Hw]; [by rewrite Hs|].
  apply truthy_true_iff in Hsid, Htier.
  destruct (tier_drawn st (tiers w) tier) eqn:Hdrawn.
  { left. erewrite drawTier_already_drawn by eauto.
    eexists _, _, _; split; [reflexivity|split; [by left|apply unchanged_refl]]. }
  destruct (wf_last st Hwf) as [lastBlock Hlast].
  set (remaining := filter (fun u => negb (includes (array_at st (all w)) u))
                           (participants_of st sid)).
  destruct remaining as [|x rest] eqn:Hrem.
  - left. unfold drawTier.
    rewrite (truthy_true _ Hsid), (truthy_true _ Htier).
    msimpl; mstep; rewrite Hs, Hseed.
    msteps. rewrite Hw. msteps. rewrite Hdrawn. msteps.
    destruct (wf_session_participants st Hwf sid) as [p Hp]; [by rewrite Hs|].
    assert (Hpo : participants_of st sid = array_at st p)
      by (unfold participants_of; by rewrite Hp).
    rewrite Hp. msteps. rewrite <- Hpo. rewrite array_at_alloc.
    fold remaining. rewrite Hrem. cbn [length Nat.eqb].
    eexists _, _, _. split; [reflexivity|]. split; [by left|].
    apply unchanged_alloc.
  - right. exists session, seed, w, lastBlock.
    unfold drawTier_ready. fold remaining. rewrite Hrem. done.
Qed.





(** ** Rosters stay sound *)

Lemma participants_of_same st st' sid :
  participants st' !! sid = participants st !! sid ->
  (forall p, participants st !! sid = Some p -> arrays st' !! p = arrays st !! p) ->
  participants_of st' sid = participants_of st sid.
Proof.
  intros Hp Ha. unfold participants_of, array_at. rewrite Hp.
  destruct (participants st !! sid) as [p|]; [|done]. by rewrite Ha.
Qed.

Lemma participants_of_unchanged st st' sid :
  wf st -> unchanged st st' -> participants_of st' sid = participants_of st sid.
Proof.
  intros Hwf (_ & P' & _ & _ & _ & _ & (unused & A')).
  apply participants_of_same; [by rewrite P'|].
  intros p Hp. rewrite A', lookup_app_l; [done|]. by eapply wf_participants.
Qed.

Lemma step_rosters st r : wf st -> rosters_ok st -> rosters_ok (step st r).
Proof.
  intros Hwf Hok. unfold step. rewrite requestListener_state.
  destruct r as [nowId now name sh|now sid user|now sid seed
                |now sid nw tc|now sid tier count|now sid users]; cbn [handler].
  - destruct (createSession_cases st nowId now name sh) as [Hc|[Hname Hsh]].
    { by rewrite Hc. }
    destruct (wf_last st Hwf) as [lastBlock Hlast].
    destruct (createSession_run st nowId now name sh lastBlock Hname Hsh Hlast)
      as (b & -> & _).
    cbn [snd]. intros sid. destruct (decide (sid = pretty nowId)) as [->|Hne].
    + unfold participants_of, array_at. cbn [participants arrays].
      rewrite lookup_insert_eq, lookup_app_r, Nat.sub_diag by lia. apply roster_ok_nil.
    + rewrite (participants_of_same st); [apply Hok| |]; cbn [participants arrays].
      * by rewrite lookup_insert_ne.
      * intros p Hp. rewrite lookup_app_l; [done|]. by eapply wf_participants.
  - destruct (enter_cases st now sid user Hwf)
      as [(res & -> & Hst)|(session & p & lastBlock & Hsid & Hu & Hs & Hp & Hlt & Hlast)];
      [done|].
    destruct (enter_run st now sid user session p lastBlock Hsid Hu Hs Hp Hlt Hlast)
      as [[_ ->]|[Hnew (b & -> & _)]]; [done|].
    cbn [snd]. intros sid'. unfold participants_of, array_at. cbn [participants arrays].
    destruct (participants st !! sid') as [q|] eqn:Hq; [|apply roster_ok_nil].
    destruct (decide (q = p)) as [->|Hne].
    + rewrite list_lookup_insert_eq by done. cbn [default].
      apply roster_ok_snoc; [|done|done].
      specialize (Hok sid). unfold participants_of in Hok. by rewrite Hp in Hok.
    + rewrite list_lookup_insert_ne by done.
      specialize (Hok sid'). unfold participants_of, array_at in Hok. by rewrite Hq in Hok.
  - destruct (revealSeed_cases st now sid seed Hwf)
      as [(s & m & -> & Hst)|(session & lastBlock & Hsid & Hseed & Hs & Heq & Hlast)];
      [done|].
    destruct (revealSeed_matching st now sid seed session lastBlock Hsid Hseed Hs Heq Hlast)
      as (st2 & b & Hc & _ & _ & _ & _ & Ep & _ & Ea & _).
    assert (Hst : (revealSeed now sid seed st).2 = st2).
    { unfold requestListener in Hc. cbn [handler] in Hc.
      destruct (revealSeed now sid seed st) as [[resp|] st3]; [|discriminate].
      by injection Hc as _ ->. }
    rewrite Hst. intros sid'.
    rewrite (participants_of_same st); [apply Hok|by rewrite Ep|by rewrite Ea].
  - pose proof (draw_request_effect st (Draw now sid nw tc) Hwf eq_refl) as Heff.
    rewrite requestListener_state in Heff. cbn [handler session_of] in Heff.
    intros sid'. rewrite (effect_participants_of _ _ _ Hwf Heff). apply Hok.
  - pose proof (draw_request_effect st (DrawTier now sid tier count) Hwf eq_refl) as Heff.
    rewrite requestListener_state in Heff. cbn [handler session_of] in Heff.
    intros sid'. rewrite (effect_participants_of _ _ _ Hwf Heff). apply Hok.
  - destruct (importParticipants_cases st now sid users Hwf)
      as [(res & st2 & -> & Hun & Hst)
         |(session & p & lastBlock & Hsid & Hs & Hp & Hlt & Hlast)].
    { cbn [snd]. intros sid'. rewrite (participants_of_unchanged st) by done. apply Hok. }
    destruct (importParticipants_run st now sid users session p lastBlock
                Hsid Hs Hp Hlt Hlast) as (more & -> & _).
    cbn [snd]. intros sid'. unfold participants_of, array_at. cbn [participants arrays].
    destruct (participants st !! sid') as [q|] eqn:Hq; [|apply roster_ok_nil].
    pose proof (wf_participants st Hwf sid' q Hq) as Hqlt.
    rewrite list_lookup_insert_ne by lia.
    destruct (decide (q = p)) as [->|Hne].
    + rewrite list_lookup_insert_eq by (rewrite length_app; lia). cbn [default].
      apply roster_ok_import.
      specialize (Hok sid). unfold participants_of in Hok. by rewrite Hp in Hok.
    + rewrite list_lookup_insert_ne by done. rewrite lookup_app_l by done.
      specialize (Hok sid'). unfold participants_of, array_at in Hok. by rewrite Hq in Hok.
Qed.

Lemma run_rosters now0 rs : rosters_ok (run now0 rs).
Proof.
  unfold run. induction rs as [|r rs IH] using rev_ind.
  - intros sid. unfold participants_of. cbn. rewrite lookup_empty. apply roster_ok_nil.
  - rewrite foldl_app. cbn [foldl]. apply step_rosters; [apply run_wf|exact IH].
Qed.

Lemma reachable_rosters st : reachable st -> rosters_ok st.
Proof. intros (now0 & rs & ->). apply run_rosters. Qed.



Lemma lookup_snoc2_0 {A} (l : list A) a b : (l ++ [a; b]) !! length l = Some a.
Proof. by rewrite lookup_app_r, Nat.sub_diag by lia. Qed.

Lemma lookup_snoc2_1 {A} (l : list A) a b : (l ++ [a; b]) !! S (length l) = Some b.
Proof.
  rewrite lookup_app_r by lia.
  by replace (S (length l) - length l)%nat with 1%nat by lia.
Qed.

(** ** What selectWinners returns for every count up to n *)

Lemma selected_sound (c : list string) k material :
  NoDup c -> k <= Z.of_nat (length c) ->
  exists c',
    selected (Some <$> c) k material = Some <$> c'
    /\ NoDup c' /\ c' ⊆ c
    /\ length c' = selected_count (length c) k.
Proof.
  intros Hnd Hk. unfold selected_count. destruct (Z.ltb_spec k 0) as [Hneg|Hpos].
  - rewrite selected_negative by done. rewrite length_fmap, <- fmap_take.
    eexists. split; [reflexivity|]. split; [|split].
    + eapply sublist_NoDup; [|apply sublist_take]. done.
    + apply subseteq_take.
    + rewrite length_take. lia.
  - pose proof (selected_spec c (Z.to_nat k) material) as Hsel.
    rewrite Z2Nat.id in Hsel by lia. rewrite Hsel by lia.
    eexists. split; [reflexivity|]. split; [|split].
    + by apply spec_select_NoDup.
    + apply spec_select_subseteq.
    + apply spec_select_length. lia.
Qed.

(** ** The whole-session draw without tiers *)

(** X9.  In every state the server reaches, [/api/draw] without tier counts
    for a session that is not drawn, has a revealed seed and at least one
    participant answers with [selectWinners] applied to the participants,
    the count [min(numWinners || 1, n)] and the digest of tip, seed and [n];
    the winners are participants, each once; the session is then marked
    drawn, its winners record holds the list as [all] and as the tier
    "default", and one DRAWN block with the material is appended. *)
Theorem draw_single_selects
    (st : State) (now : Z) (sid : string) (numWinners : option Z)
    (tierCounts : option (list (string * string))) (session : Session) (seed : string) :
  reachable st ->
  sessions st !! sid = Some session ->
  drawn session = false ->
  revealedSeed session = Some seed ->
  seed <> "" ->
  participants_of st sid <> [] ->
  default [] tierCounts = [] ->
  exists st' b lastBlock c wl tl,
    last (chain st) = Some lastBlock
    /\ requestListener (Draw now sid numWinners tierCounts) st
       = (DrawResult (Some <$> c) None, st')
    /\ Some <$> c
       = selected (participants_of st sid)
           (Z.min (num_or numWinners 1) (Z.of_nat (length (participants_of st sid))))
           (draw_material (hash lastBlock) seed (length (participants_of st sid)))
    /\ NoDup c
    /\ (forall u, u ∈ c -> Some u ∈ participants_of st sid)
    /\ length c
       = selected_count (length (participants_of st sid))
           (Z.min (num_or numWinners 1) (Z.of_nat (length (participants_of st sid))))
    /\ sessions st' = <[sid := set_drawn true session]> (sessions st)
    /\ allWinners_of st' sid = Some <$> c
    /\ tierWinners_of st' sid = [("default", Some <$> c)]
    /\ chain st' = chain st ++ [b]
    /\ data b = DRAWN sid wl tl
                  (to_hex (draw_material (hash lastBlock) seed
                             (length (participants_of st sid))))
    /\ array_at st' wl = Some <$> c
    /\ previousHash b = hash lastBlock.
Proof.
  intros Hr Hs Hd Hrev Hseed Hne Htc.
  pose proof (reachable_wf st Hr) as Hwf.
  destruct (wf_last st Hwf) as [lastBlock Hlast].
  destruct (wf_session_facts st sid Hwf) as (_ & [p Hp] & _); [by rewrite Hs|].
  assert (Hpo : participants_of st sid = array_at st p)
    by (unfold participants_of; by rewrite Hp).
  rewrite Hpo in *.
  assert (Hso : seed_of session = Some seed).
  { unfold seed_of. rewrite Hrev. by rewrite (truthy_true _ Hseed). }
  destruct (draw_single_run st now sid numWinners tierCounts session seed p lastBlock
              Hs Hd Hso Hp Hne Hlast Htc) as (b & Hrun & Hdata & Hprev & _).
  cbv zeta in Hrun, Hdata.
  destruct (reachable_rosters st Hr sid) as (c0 & Hc0 & Hnd & _).
  rewrite Hpo in Hc0.
  destruct (selected_sound c0
              (Z.min (num_or numWinners 1) (Z.of_nat (length (array_at st p))))
              (draw_material (hash lastBlock) seed (length (array_at st p))) Hnd)
    as (c & Hsel & Hndc & Hsub & Hlen).
  { rewrite Hc0, length_fmap. lia. }
  rewrite <- Hc0 in Hsel. unfold draw_material in Hsel. rewrite Hsel in Hrun.
  eexists _, b, lastBlock, c, _, _.
  split; [done|]. split; [apply requestListener_handler; exact Hrun|].
  split; [by rewrite <- Hsel|]. split; [done|].
  split. { intros u Hu. rewrite Hc0. apply list_elem_of_fmap. eauto. }
  split. { rewrite Hlen. rewrite Hc0, length_fmap. done. }
  cbn [sessions chain]. split.
  { apply map_eq. intros i. destruct (decide (sid = i)) as [<-|Hneq].
    - by rewrite lookup_alter_eq, lookup_insert_eq, Hs.
    - by rewrite lookup_alter_ne, lookup_insert_ne. }
  unfold allWinners_of, tierWinners_of, snapshot_tiers, array_at, object_at.
  cbn [winners arrays objects all tiers]. rewrite !lookup_insert_eq. cbn [all tiers].
  rewrite !lookup_snoc2_1, !lookup_snoc2_0. cbn. rewrite !lookup_snoc2_1. cbn.
  unfold draw_material. rewrite Hdata.
  repeat split; done.
Qed.

Lemma draw_single_selects_witness :
  exists st' b lastBlock c wl tl,
    last (chain (run 1000 revealed)) = Some lastBlock
    /\ requestListener (Draw 2006 "2000" (Some 2) None) (run 1000 revealed)
       = (DrawResult (Some <$> c) None, st')
    /\ Some <$> c
       = selected (participants_of (run 1000 revealed) "2000")
           (Z.min (num_or (Some 2) 1)
                  (Z.of_nat (length (participants_of (run 1000 revealed) "2000"))))
           (draw_material (hash lastBlock) "s3cr3t"
              (length (participants_of (run 1000 revealed) "2000")))
    /\ NoDup c
    /\ (forall u, u ∈ c -> Some u ∈ participants_of (run 1000 revealed) "2000")
    /\ length c
       = selected_count (length (participants_of (run 1000 revealed) "2000"))
           (Z.min (num_or (Some 2) 1)
                  (Z.of_nat (length (participants_of (run 1000 revealed) "2000"))))
    /\ sessions st'
       = <["2000" := set_drawn true
                       (mkSession "2000" "gala" committed (Some "s3cr3t") false)]>
           (sessions (run 1000 revealed))
    /\ allWinners_of st' "2000" = Some <$> c
    /\ tierWinners_of st' "2000" = [("default", Some <$> c)]
    /\ chain st' = chain (run 1000 revealed) ++ [b]
    /\ data b = DRAWN "2000" wl tl
                  (to_hex (draw_material (hash lastBlock) "s3cr3t"
                             (length (participants_of (run 1000 revealed) "2000"))))
    /\ array_at st' wl = Some <$> c
    /\ previousHash b = hash lastBlock.
Proof.
  apply (draw_single_selects (run 1000 revealed) 2006 "2000" (Some 2) None
           (mkSession "2000" "gala" committed (Some "s3cr3t") false) "s3cr3t").
  - exists 1000, revealed. reflexivity.
  - vm_compute. reflexivity.
  - reflexivity.
  - reflexivity.
  - discriminate.
  - vm_compute. discriminate.
  - reflexivity.
Defined.

(** X10.  With a negative [numWinners] [/api/draw] takes no random number:
    the winners are the participants without the last [-numWinners] of
    them, in the order of enrolment. *)
Theorem draw_negative_count_takes_prefix
    (st : State) (now : Z) (sid : string) (k : Z) (session : Session) (seed : string) :
  reachable st ->
  sessions st !! sid = Some session ->
  drawn session = false ->
  revealedSeed session = Some seed ->
  seed <> "" ->
  participants_of st sid <> [] ->
  k < 0 ->
  (requestListener (Draw now sid (Some k) None) st).1
  = DrawResult (take (length (participants_of st sid) - Z.to_nat (- k))
                     (participants_of st sid)) None.
Proof.
  intros Hr Hs Hd Hrev Hseed Hne Hk.
  pose proof (reachable_wf st Hr) as Hwf.
  destruct (wf_last st Hwf) as [lastBlock Hlast].
  destruct (wf_session_facts st sid Hwf) as (_ & [p Hp] & _); [by rewrite Hs|].
  assert (Hpo : participants_of st sid = array_at st p)
    by (unfold participants_of; by rewrite Hp).
  rewrite Hpo in *.
  assert (Hso : seed_of session = Some seed).
  { unfold seed_of. rewrite Hrev. by rewrite (truthy_true _ Hseed). }
  destruct (draw_single_run st now sid (Some k) None session seed p lastBlock
              Hs Hd Hso Hp Hne Hlast eq_refl) as (b & Hrun & _).
  cbv zeta in Hrun.
  rewrite (requestListener_handler (Draw now sid (Some k) None) _ _ _ Hrun). cbn [fst].
  f_equal. 
  assert (Hnum : num_or (Some k) 1 = k).
  { unfold num_or, js_or. destruct (Z.eqb_spec k 0); [lia|done]. }
  rewrite Hnum. rewrite Z.min_l by lia. by apply selected_negative.
Qed.

Lemma draw_negative_count_takes_prefix_witness :
  (requestListener (Draw 2006 "2000" (Some (-1)) None) (run 1000 revealed)).1
  = DrawResult (take (length (participants_of (run 1000 revealed) "2000") - Z.to_nat (- (-1)))
                     (participants_of (run 1000 revealed) "2000")) None.
Proof.
  apply (draw_negative_count_takes_prefix (run 1000 revealed) 2006 "2000" (-1)
           (mkSession "2000" "gala" committed (Some "s3cr3t") false) "s3cr3t").
  - exists 1000, revealed. reflexivity.
  - vm_compute. reflexivity.
  - reflexivity.
  - reflexivity.
  - discriminate.
  - vm_compute. discriminate.
  - lia.
Defined.



(** ** The drawn flag after a tier draw *)

Lemma tier_drawn_ext st st' t tier :
  arrays st' = arrays st -> objects st' = objects st -> protos st' = protos st ->
  tier_drawn st' t tier = tier_drawn st t tier.
Proof.
  intros Ha Ho Hp. unfold tier_drawn, object_at, array_at. by rewrite Ha, Ho, Hp.
Qed.

Lemma forallb_tier_drawn_ext st st' t keys :
  arrays st' = arrays st -> objects st' = objects st -> protos st' = protos st ->
  forallb (tier_drawn st' t) keys = forallb (tier_drawn st t) keys.
Proof.
  intros Ha Ho Hp. induction keys as [|k keys IH]; [done|].
  cbn [forallb]. by rewrite IH, (tier_drawn_ext st st').
Qed.

Lemma drawTier_run_flag st now sid tier count session seed w lastBlock :
  sid <> "" -> tier <> "" ->
  sessions st !! sid = Some session ->
  seed_of session = Some seed ->
  winners st !! sid = Some w ->
  tier_drawn st (tiers w) tier = false ->
  last (chain st) = Some lastBlock ->
  filter (fun u => negb (includes (array_at st (all w)) u)) (participants_of st sid) <> [] ->
  (all w < length (arrays st))%nat ->
  exists resp st',
    drawTier now sid tier count st = (Some resp, st')
    /\ sessions st'
       = alter (set_drawn (forallb (tier_drawn st' (tiers w)) (obj_keys DEFAULT_COUNTS)))
           sid (sessions st).
Proof.
  intros Hsid Htier Hs Hseed Hw Hnot Hlast Hrem Hall.
  unfold drawTier.
  rewrite (truthy_true _ Hsid), (truthy_true _ Htier).
  msimpl. mstep. rewrite Hs, Hseed. msteps. rewrite Hw. msteps. rewrite Hnot. msteps.
  assert (Hlist : exists p, participants st !! sid = Some p
                            /\ participants_of st sid = array_at st p).
  { unfold participants_of in *.
    destruct (participants st !! sid) as [p|]; [eauto|done]. }
  destruct Hlist as (p & Hp & Hpo). rewrite Hp. msteps. rewrite <- Hpo.
  rewrite array_at_alloc.
  destruct (Nat.eqb_spec (length (filter (fun u => negb (includes (array_at st (all w)) u))
                                         (participants_of st sid))) 0) as [Hz|Hz].
  { destruct (filter _ _); [done|discriminate]. }
  msteps. rewrite Hlast. msteps.
  unfold selectWinners_num. rewrite selectWinners_run. msteps.
  rewrite (addBlock_run _ _ _ lastBlock) by (msimpl; exact Hlast).
  msteps. eexists _, _. split; [reflexivity|]. msimpl.
  f_equal.
Qed.

(** X12.  In every state the server reaches, a tier draw that answered with
    winners sets the session's [drawn] flag to whether each of the four
    default tiers (special, first, second, third) now has a non-empty list,
    whatever the flag was before. *)
Theorem drawTier_sets_drawn_flag
    (st : State) (now : Z) (sid tier : string) (count : option Z)
    (ws : list jsval) (tier' : string) (st' : State) :
  reachable st ->
  requestListener (DrawTier now sid tier count) st = (TierResult ws tier', st') ->
  exists session' w,
    sessions st' !! sid = Some session'
    /\ winners st' !! sid = Some w
    /\ drawn session'
       = forallb (tier_drawn st' (tiers w)) ["special"; "first"; "second"; "third"].
Proof.
  intros Hwf%reachable_wf Hreq.
  destruct (drawTier_cases st now sid tier count Hwf)
    as [(s & m & st2 & Hc & _)
       |(session & seed & w & lastBlock & Hsid & Htier & Hs & Hseed & Hw & Hdrawn
         & Hlast & Hrem)].
  { rewrite (requestListener_handler (DrawTier now sid tier count) _ _ _ Hc) in Hreq.
    discriminate. }
  pose proof (wf_winners st Hwf sid w Hw) as [Hall Htiers].
  destruct (drawTier_run st now sid tier count session seed w lastBlock
              Hsid Htier Hs Hseed Hw Hdrawn Hlast Hrem Hall)
    as (st1 & d & b & Hrun & _ & _ & Ew & _).
  destruct (drawTier_run_flag st now sid tier count session seed w lastBlock
              Hsid Htier Hs Hseed Hw Hdrawn Hlast Hrem Hall)
    as (resp & st2 & Hrun2 & Es).
  rewrite Hrun in Hrun2. injection Hrun2 as <- <-.
  rewrite (requestListener_handler (DrawTier now sid tier count) _ _ _ Hrun) in Hreq.
  injection Hreq as _ _ <-.
  eexists _, w. split; [|split].
  - rewrite Es, lookup_alter_eq, Hs. reflexivity.
  - by rewrite Ew.
  - reflexivity.
Qed.

Lemma drawTier_sets_drawn_flag_witness :
  exists session' w,
    sessions (requestListener (DrawTier 2007 "2000" "first" (Some 1))
                (run 1000 single_drawn)).2 !! "2000" = Some session'
    /\ winners (requestListener (DrawTier 2007 "2000" "first" (Some 1))
                  (run 1000 single_drawn)).2 !! "2000" = Some w
    /\ drawn session'
       = forallb (tier_drawn (requestListener (DrawTier 2007 "2000" "first" (Some 1))
                                (run 1000 single_drawn)).2 (tiers w))
           ["special"; "first"; "second"; "third"].
Proof.
  apply (drawTier_sets_drawn_flag (run 1000 single_drawn) 2007 "2000" "first" (Some 1)
           [Some "a"] "first").
  - exists 1000, single_drawn. reflexivity.
  - vm_compute. reflexivity.
Defined.

(** ** Importing participants *)






(** ** Objects as dictionaries *)

Lemma obj_get_None {V} (o : object V) k : obj_get o k = None <-> k ∉ obj_keys o.
Proof.
  unfold obj_keys. induction o as [|[k' v] o IH]; cbn.
  - split; [intros _; apply not_elem_of_nil|done].
  - destruct (String.eqb_spec k' k) as [->|Hne].
    + split; [done|]. intros H. exfalso. apply H. apply list_elem_of_here.
    + rewrite IH. rewrite not_elem_of_cons. split; [by split|by intros [_ ?]].
Qed.

Lemma obj_replace_keys {V} (o : object V) k v : obj_keys (obj_replace o k v) = obj_keys o.
Proof.
  unfold obj_keys. induction o as [|[k' v'] o IH]; [done|]. cbn.
  destruct (String.eqb k' k); cbn; [done|]. by rewrite IH.
Qed.

Lemma obj_insert_index_perm {V} (o : object V) n k v :
  obj_insert_index o n k v ≡ₚ (k, v) :: o.
Proof.
  induction o as [|[k' v'] o IH]; [done|]. cbn.
  destruct (array_index k') as [n'|]; [|done].
  destruct (n' <? n)%N; [|done].
  rewrite IH. apply Permutation_swap.
Qed.

Lemma obj_set_fresh_perm {V} (o : object V) k v :
  obj_get o k = None -> obj_set o k v ≡ₚ (k, v) :: o.
Proof.
  intros H. unfold obj_set. rewrite H.
  destruct (array_index k).
  - apply obj_insert_index_perm.
  - by rewrite Permutation_app_comm.
Qed.

Lemma obj_set_keys_NoDup {V} (o : object V) k v :
  NoDup (obj_keys o) -> NoDup (obj_keys (obj_set o k v)).
Proof.
  intros Hnd. destruct (obj_get o k) as [v0|] eqn:Hg.
  - unfold obj_set. rewrite Hg. by rewrite obj_replace_keys.
  - unfold obj_keys. rewrite (obj_set_fresh_perm o k v Hg). cbn.
    apply NoDup_cons. split; [by apply obj_get_None|done].
Qed.

Lemma obj_of_members_keys_NoDup {V} (members : list (string * V)) :
  NoDup (obj_keys (obj_of_members members)).
Proof.
  unfold obj_of_members.
  assert (H : forall o : object V, NoDup (obj_keys o) ->
            NoDup (obj_keys (foldl (fun o kv => obj_set o kv.1 kv.2) o members))).
  { induction members as [|kv members IH]; intros o Ho; [done|].
    cbn [foldl]. apply IH. by apply obj_set_keys_NoDup. }
  apply H. apply NoDup_nil_2.
Qed.

Lemma obj_replace_map {V W} (f : V -> W) (o : object V) k v :
  map (fun kv => (kv.1, f kv.2)) (obj_replace o k v)
  = obj_replace (map (fun kv => (kv.1, f kv.2)) o) k (f v).
Proof.
  induction o as [|[k' v'] o IH]; [done|]. cbn.
  destruct (String.eqb k' k); cbn; [done|]. by rewrite IH.
Qed.

Lemma obj_insert_index_map {V W} (f : V -> W) (o : object V) n k v :
  map (fun kv => (kv.1, f kv.2)) (obj_insert_index o n k v)
  = obj_insert_index (map (fun kv => (kv.1, f kv.2)) o) n k (f v).
Proof.
  induction o as [|[k' v'] o IH]; [done|]. cbn.
  destruct (array_index k') as [n'|]; [|done].
  destruct (n' <? n)%N; cbn; [|done]. by rewrite IH.
Qed.

(** Where a member goes depends on the keys only. *)
Lemma obj_set_map {V W} (f : V -> W) (o : object V) k v :
  map (fun kv => (kv.1, f kv.2)) (obj_set o k v)
  = obj_set (map (fun kv => (kv.1, f kv.2)) o) k (f v).
Proof.
  unfold obj_set. rewrite obj_get_map.
  destruct (obj_get o k); cbn.
  - apply obj_replace_map.
  - destruct (array_index k).
    + apply obj_insert_index_map.
    + by rewrite map_app.
Qed.

Lemma obj_set_values {V} (o : object V) k v x :
  x ∈ (obj_set o k v).*2 -> x = v \/ x ∈ o.*2.
Proof.
  destruct (obj_get o k) as [v0|] eqn:Hg.
  - unfold obj_set. rewrite Hg. clear Hg.
    induction o as [|[k' v'] o IH]; [by right|]. cbn.
    destruct (String.eqb k' k); cbn.
    + intros [->|H]%elem_of_cons; [by left|right]. by apply list_elem_of_further.
    + intros [->|H]%elem_of_cons; [right; apply list_elem_of_here|].
      destruct (IH H) as [->|H']; [by left|right]. by apply list_elem_of_further.
  - rewrite (obj_set_fresh_perm o k v Hg). cbn.
    intros [->|H]%elem_of_cons; auto.
Qed.

Lemma obj_set_all_fresh_perm {V} (kvs : list (string * V)) : forall o,
  NoDup (kvs.*1) -> (forall k, k ∈ kvs.*1 -> k ∉ obj_keys o) ->
  obj_set_all o kvs ≡ₚ o ++ kvs.
Proof.
  induction kvs as [|[k v] kvs IH]; intros o Hnd Hdisj.
  - by rewrite app_nil_r.
  - cbn in Hnd. apply NoDup_cons in Hnd as [Hk Hnd].
    unfold obj_set_all. cbn [foldl fst snd]. fold (obj_set_all (obj_set o k v) kvs).
    assert (Hg : obj_get o k = None).
    { apply obj_get_None, Hdisj. cbn. apply list_elem_of_here. }
    rewrite IH; [|done|].
    + rewrite (obj_set_fresh_perm o k v Hg).
      rewrite (Permutation_middle o kvs (k, v)). done.
    + intros k' Hk'. unfold obj_keys. rewrite (obj_set_fresh_perm o k v Hg). cbn.
      apply not_elem_of_cons. split; [by intros ->|].
      apply Hdisj. cbn. by apply list_elem_of_further.
Qed.

Lemma obj_set_keys_sub {V} (o : object V) k v x :
  x ∈ obj_keys (obj_set o k v) -> x = k \/ x ∈ obj_keys o.
Proof.
  destruct (obj_get o k) as [v0|] eqn:Hg.
  - unfold obj_set. rewrite Hg, obj_replace_keys. by right.
  - unfold obj_keys. rewrite (obj_set_fresh_perm o k v Hg). cbn.
    intros [->|H]%elem_of_cons; auto.
Qed.

Lemma obj_set_all_keys_sub {V} (kvs : list (string * V)) : forall o x,
  x ∈ obj_keys (obj_set_all o kvs) -> x ∈ kvs.*1 \/ x ∈ obj_keys o.
Proof.
  induction kvs as [|[k v] kvs IH]; intros o x; [by right|].
  unfold obj_set_all. cbn [foldl fst snd]. fold (obj_set_all (obj_set o k v) kvs).
  intros [H|H]%IH.
  - left. cbn. by apply list_elem_of_further.
  - apply obj_set_keys_sub in H as [->|H]; [left; cbn; apply list_elem_of_here|by right].
Qed.

Lemma member_tiers_plain {V} (ts : list (string * V)) (o : object V) :
  obj_get o "__proto__" = None ->
  obj_get (obj_set_all o (member_tiers ts)) "__proto__" = None.
Proof.
  intros Ho. apply obj_get_None. intros [H|H]%obj_set_all_keys_sub.
  - apply list_elem_of_fmap in H as ([k v] & Hk & Hin). cbn in Hk. subst k.
    apply list_elem_of_filter in Hin as [Hne _]. by apply Hne.
  - by apply obj_get_None in Ho.
Qed.

(** ** A block and the store it was sealed in *)

Lemma stringify_data_ext st st' d :
  (forall l, l ∈ block_arrays st d -> arrays st' !! l = arrays st !! l) ->
  (forall t, t ∈ block_objects d -> objects st' !! t = objects st !! t) ->
  Blockchain.stringify_data st' d = Blockchain.stringify_data st d.
Proof.
  intros Ha Ho. destruct d as [|sid name sh|sid user|sid seed|sid w t rb|sid tier w rb|sid us];
    cbn [Blockchain.stringify_data]; try done.
  - assert (Hw : array_at st' w = array_at st w).
    { unfold array_at. rewrite Ha; [done|]. cbn. apply list_elem_of_here. }
    assert (Ht : object_at st' t = object_at st t).
    { unfold object_at. rewrite Ho; [done|]. cbn. apply list_elem_of_here. }
    rewrite Hw. unfold Blockchain.stringify_tiers. rewrite Ht.
    assert (Hm : map (fun kv : string * loc => (kv.1, Json.array (array_at st' kv.2)))
                     (object_at st t)
                 = map (fun kv : string * loc => (kv.1, Json.array (array_at st kv.2)))
                       (object_at st t)).
    { apply map_ext_in. intros [k l] Hin%list_elem_of_In. cbn [fst snd].
      do 2 f_equal. unfold array_at. rewrite Ha; [done|]. cbn.
      apply list_elem_of_further. apply list_elem_of_fmap. by exists (k, l). }
    by rewrite Hm.
  - unfold array_at. rewrite Ha; [done|]. cbn. apply list_elem_of_here.
  - unfold array_at. rewrite Ha; [done|]. cbn. apply list_elem_of_here.
Qed.

Lemma computeHash_ext st st' b :
  (forall l, l ∈ block_arrays st (data b) -> arrays st' !! l = arrays st !! l) ->
  (forall t, t ∈ block_objects (data b) -> objects st' !! t = objects st !! t) ->
  Blockchain.computeHash st' b = Blockchain.computeHash st b.
Proof.
  intros Ha Ho. unfold Blockchain.computeHash, Blockchain.stringify_clone.
  by rewrite (stringify_data_ext st st' (data b) Ha Ho).
Qed.

(** ** The tier loop of /api/draw *)

Lemma snapshot_tiers_same st st' T :
  object_at st' T = object_at st T ->
  (forall l, l ∈ (object_at st T).*2 -> arrays st' !! l = arrays st !! l) ->
  snapshot_tiers st' T = snapshot_tiers st T.
Proof.
  intros Ho Ha. unfold snapshot_tiers. rewrite Ho.
  apply map_ext_in. intros [k l] Hin%list_elem_of_In. cbn [fst snd]. f_equal.
  unfold array_at. rewrite Ha; [done|]. apply list_elem_of_fmap. by exists (k, l).
Qed.

Lemma snapshot_tiers_set st st' T tier wl :
  (T < length (objects st))%nat ->
  objects st' = <[T := obj_assign (object_at st T) tier wl]> (objects st) ->
  (forall l, l ∈ (object_at st T).*2 -> arrays st' !! l = arrays st !! l) ->
  snapshot_tiers st' T = obj_assign (snapshot_tiers st T) tier (array_at st' wl).
Proof.
  intros HT Ho Ha.
  assert (Hobj : object_at st' T = obj_assign (object_at st T) tier wl).
  { unfold object_at at 1. by rewrite Ho, list_lookup_insert_eq. }
  unfold obj_assign in *. destruct (String.eqb tier "__proto__").
  { by apply snapshot_tiers_same. }
  unfold snapshot_tiers.
  rewrite Hobj, (obj_set_map (array_at st')). f_equal.
  apply map_ext_in. intros [k l] Hin%list_elem_of_In. cbn [fst snd]. f_equal.
  unfold array_at. rewrite Ha; [done|]. apply list_elem_of_fmap. by exists (k, l).
Qed.

Lemma obj_assign_values {V} (o : object V) k v x :
  x ∈ (obj_assign o k v).*2 -> x = v \/ x ∈ o.*2.
Proof.
  unfold obj_assign. destruct (String.eqb k "__proto__"); [by right|].
  apply obj_set_values.
Qed.

Lemma proto_entry_cons k v rest :
  proto_entry ((k, v) :: rest)
  = if String.eqb k "__proto__" then Some (default v (proto_entry rest))
    else proto_entry rest.
Proof.
  unfold proto_entry. rewrite filter_cons. cbn [fst].
  destruct (String.eqb_spec k "__proto__") as [->|Hne].
  - rewrite decide_True by done. rewrite fmap_cons. cbn [snd].
    destruct ((filter _ rest).*2) as [|x l] eqn:E; [done|].
    change (last (v :: x :: l)) with (last (x :: l)).
    destruct (last_is_Some (x :: l)) as [_ [y Hy]]; [done|]. by rewrite Hy.
  - by rewrite decide_False.
Qed.

Lemma obj_set_all_assign {V} (o : object V) k v (rest : list (string * V)) :
  obj_set_all (obj_assign o k v) (member_tiers rest)
  = obj_set_all o (member_tiers ((k, v) :: rest)).
Proof.
  unfold obj_assign, member_tiers. rewrite filter_cons. cbn [fst].
  destruct (String.eqb_spec k "__proto__") as [->|Hne].
  - by rewrite decide_False by (intros H; by apply H).
  - by rewrite decide_True.
Qed.

Lemma draw_tiers_spec keys : forall tc randBase T A R st,
  (A < length (arrays st))%nat ->
  (R < length (arrays st))%nat ->
  (T < length (objects st))%nat ->
  (forall l, l ∈ (object_at st T).*2 -> (l < length (arrays st))%nat /\ l <> A) ->
  (forall p, protos st !! T = Some p -> (p < length (arrays st))%nat /\ p <> A) ->
  exists st',
    draw_tiers keys tc randBase T A R st = (Some tt, st')
    /\ sessions st' = sessions st /\ participants st' = participants st
    /\ winners st' = winners st /\ chain st' = chain st
    /\ (length (arrays st) <= length (arrays st'))%nat
    /\ (forall l, (l < length (arrays st))%nat -> l <> A -> arrays st' !! l = arrays st !! l)
    /\ length (objects st') = length (objects st)
    /\ (forall t, t <> T -> objects st' !! t = objects st !! t)
    /\ array_at st' A
       = array_at st A ++ concat (tiers_pure keys tc randBase (array_at st R)).*2
    /\ snapshot_tiers st' T
       = obj_set_all (snapshot_tiers st T)
           (member_tiers (tiers_pure keys tc randBase (array_at st R)))
    /\ (forall l, l ∈ (object_at st' T).*2 ->
          (l < length (arrays st'))%nat /\ l <> A
          /\ (l ∈ (object_at st T).*2 \/ (length (arrays st) <= l)%nat))
    /\ (forall t, t <> T -> protos st' !! t = protos st !! t)
    /\ proto_tier st' T
       = default (proto_tier st T)
           (proto_entry (tiers_pure keys tc randBase (array_at st R))).
Proof.
  induction keys as [|tier keys IH]; intros tc randBase T A R st HA HR HT Hvals Hpro.
  - exists st. cbn [draw_tiers tiers_pure fmap list_fmap concat].
    rewrite app_nil_r. unfold member_tiers. rewrite filter_nil. repeat split; try done.
    + by apply Hvals.
    + by apply Hvals.
    + by left.
  - cbn [draw_tiers tiers_pure]. mstep.
    set (count := Z.min (num_or (obj_get tc tier ≫= parseInt10) 0)
                        (Z.of_nat (length (array_at st R)))).
    destruct (0 <? count) eqn:Hcount.
    + mstep. rewrite selectWinners_run. msteps.
      set (ws := selected (array_at st R) count (sha256 (randBase ++ utf8 tier))).
      match goal with
      | |- exists st', draw_tiers keys tc randBase T A ?r ?s = _ /\ _ =>
          set (s2 := s); set (R2 := r)
      end.
      assert (Hs2 : sessions s2 = sessions st /\ participants s2 = participants st
                    /\ winners s2 = winners st /\ chain s2 = chain st)
        by (subst s2; mstate; done).
      destruct Hs2 as (S2 & P2 & W2 & C2).
      assert (Harr : arrays s2
                = <[A := array_at st A ++ ws]>
                    (arrays st ++ [shuffled (array_at st R) count
                                     (sha256 (randBase ++ utf8 tier)); ws])
                  ++ [filter (fun u => negb (includes ws u)) (array_at st R)]).
      { subst s2. unfold array_at, object_at. mstate.
        rewrite !lookup_snoc2_1. cbn [default from_option id].
        by rewrite (lookup_app_l _ _ A) by lia. }
      assert (Hobj : objects s2
                = <[T := obj_assign (object_at st T) tier (S (length (arrays st)))]>
                    (objects st)).
      { subst s2. mstate. rewrite assign_objects_insert by (mstate; done).
        unfold object_at. by mstate. }
      assert (Hpro2 : protos s2
                = if String.eqb tier "__proto__"
                  then <[T := (S (length (arrays st)))]> (protos st) else protos st).
      { subst s2. mstate. rewrite assign_protos.
        destruct (String.eqb tier "__proto__"); by mstate. }
      assert (Hpr2 : forall t, t <> T -> protos s2 !! t = protos st !! t).
      { intros t Ht. rewrite Hpro2. destruct (String.eqb tier "__proto__"); [|done].
        by rewrite lookup_insert_ne. }
      assert (HR2 : R2 = S (S (length (arrays st)))).
      { subst R2. rewrite length_insert, length_app. cbn. lia. }
      clearbody s2 R2. subst R2.
      assert (Hlen2 : length (arrays s2) = S (S (S (length (arrays st))))).
      { rewrite Harr, length_app, length_insert, length_app. cbn. lia. }
      assert (Hold2 : forall l, (l < length (arrays st))%nat -> l <> A ->
                arrays s2 !! l = arrays st !! l).
      { intros l Hl Hne. rewrite Harr.
        rewrite lookup_app_l by (rewrite length_insert, length_app; lia).
        rewrite list_lookup_insert_ne by done. by rewrite lookup_app_l. }
      assert (HA2 : array_at s2 A = array_at st A ++ ws).
      { unfold array_at at 1. rewrite Harr.
        rewrite lookup_app_l by (rewrite length_insert, length_app; lia).
        by rewrite list_lookup_insert_eq by (rewrite length_app; lia). }
      assert (HR2 : array_at s2 (S (S (length (arrays st))))
                = filter (fun u => negb (includes ws u)) (array_at st R)).
      { unfold array_at at 1. rewrite Harr.
        rewrite lookup_app_r by (rewrite length_insert, length_app; cbn; lia).
        rewrite length_insert, length_app. cbn.
        by replace (S (S (length (arrays st))) - (length (arrays st) + 2))%nat
          with 0%nat by lia. }
      assert (Hwl2 : array_at s2 (S (length (arrays st))) = ws).
      { unfold array_at at 1. rewrite Harr.
        rewrite lookup_app_l by (rewrite length_insert, length_app; cbn; lia).
        rewrite list_lookup_insert_ne by lia. by rewrite lookup_snoc2_1. }
      assert (HprT : forall p, protos s2 !! T = Some p ->
                (p < length (arrays s2))%nat /\ p <> A).
      { intros p. rewrite Hpro2. destruct (String.eqb tier "__proto__").
        - rewrite lookup_insert_eq. intros [= <-]. lia.
        - intros Hp. destruct (Hpro p Hp). lia. }
      assert (HptT : default (proto_tier s2 T)
                       (proto_entry (tiers_pure keys tc randBase
                                       (filter (fun u => negb (includes ws u))
                                               (array_at st R))))
                     = default (proto_tier st T)
                         (proto_entry ((tier, ws)
                                       :: tiers_pure keys tc randBase
                                            (filter (fun u => negb (includes ws u))
                                                    (array_at st R))))).
      { rewrite proto_entry_cons. unfold proto_tier at 1. rewrite Hpro2.
        destruct (String.eqb tier "__proto__").
        - rewrite lookup_insert_eq, Hwl2. cbn [default from_option id].
          by destruct (proto_entry _).
        - fold (proto_tier st T). destruct (proto_entry _); [done|].
          cbn [default from_option id]. unfold proto_tier.
          destruct (protos st !! T) as [p|] eqn:Hp; [|done].
          destruct (Hpro p eq_refl). unfold array_at. by rewrite Hold2. }
      destruct (IH tc randBase T A (S (S (length (arrays st)))) s2)
        as (st' & Hrun & S' & P' & W' & C' & L' & A' & O' & OT' & AA' & SN' & V' & PR'
            & PT').
      { lia. }
      { lia. }
      { by rewrite Hobj, length_insert. }
      { intros l Hl. unfold object_at in Hl. rewrite Hobj in Hl.
        rewrite list_lookup_insert_eq in Hl by done. cbn [default from_option id] in Hl.
        apply obj_assign_values in Hl as [->|Hl]; [lia|].
        destruct (Hvals l Hl). lia. }
      { exact HprT. }
      exists st'. split; [exact Hrun|].
      split; [congruence|]. split; [congruence|]. split; [congruence|].
      split; [congruence|]. split; [lia|].
      split. { intros l Hl Hne. rewrite A' by (done || lia). by apply Hold2. }
      split. { by rewrite O', Hobj, length_insert. }
      split. { intros t Ht. rewrite OT' by done. rewrite Hobj.
               by rewrite list_lookup_insert_ne. }
      split. { rewrite AA', HA2, HR2. cbn [fmap list_fmap concat snd].
               by rewrite <- app_assoc. }
      split.
      { rewrite SN', HR2.
        rewrite (snapshot_tiers_set st s2 T tier (S (length (arrays st)))); [|done|done|].
        - rewrite Hwl2. apply obj_set_all_assign.
        - intros l Hl. destruct (Hvals l Hl). by apply Hold2. }
      split; [|split; [intros t Ht; rewrite PR' by done; by apply Hpr2|]].
      2:{ rewrite PT'. rewrite ?HR2, ?HeqR. exact HptT. }
      intros l Hl. destruct (V' l Hl) as (Hlt & Hne & Hor). split; [done|]. split; [done|].
      destruct Hor as [Hin|Hge]; [|right; lia].
      unfold object_at in Hin. rewrite Hobj in Hin.
      rewrite list_lookup_insert_eq in Hin by done. cbn [default from_option id] in Hin.
      apply obj_assign_values in Hin as [->|Hin]; [right; lia|by left].
    + msteps.
      match goal with
      | |- exists st', draw_tiers keys tc randBase T A R ?s = _ /\ _ => set (s2 := s)
      end.
      assert (Hs2 : sessions s2 = sessions st /\ participants s2 = participants st
                    /\ winners s2 = winners st /\ chain s2 = chain st)
        by (subst s2; mstate; done).
      destruct Hs2 as (S2 & P2 & W2 & C2).
      assert (Harr : arrays s2 = arrays st ++ [[]]) by (subst s2; mstate; done).
      assert (Hobj : objects s2
                = <[T := obj_assign (object_at st T) tier (length (arrays st))]>
                    (objects st)).
      { subst s2. mstate. rewrite assign_objects_insert by (mstate; done).
        unfold object_at. by mstate. }
      assert (Hpro2 : protos s2
                = if String.eqb tier "__proto__"
                  then <[T := (length (arrays st))]> (protos st) else protos st).
      { subst s2. mstate. rewrite assign_protos.
        destruct (String.eqb tier "__proto__"); by mstate. }
      assert (Hpr2 : forall t, t <> T -> protos s2 !! t = protos st !! t).
      { intros t Ht. rewrite Hpro2. destruct (String.eqb tier "__proto__"); [|done].
        by rewrite lookup_insert_ne. }
      clearbody s2.
      assert (Hlen2 : length (arrays s2) = S (length (arrays st))).
      { rewrite Harr, length_app. cbn. lia. }
      assert (Hold2 : forall l, (l < length (arrays st))%nat ->
                arrays s2 !! l = arrays st !! l).
      { intros l Hl. rewrite Harr. by rewrite lookup_app_l. }
      assert (Hwl2 : array_at s2 (length (arrays st)) = []).
      { unfold array_at at 1. rewrite Harr.
        by rewrite lookup_app_r, Nat.sub_diag by lia. }
      assert (HprT : forall p, protos s2 !! T = Some p ->
                (p < length (arrays s2))%nat /\ p <> A).
      { intros p. rewrite Hpro2. destruct (String.eqb tier "__proto__").
        - rewrite lookup_insert_eq. intros [= <-]. lia.
        - intros Hp. destruct (Hpro p Hp). lia. }
      assert (HptT : default (proto_tier s2 T)
                       (proto_entry (tiers_pure keys tc randBase (array_at st R)))
                     = default (proto_tier st T)
                         (proto_entry ((tier, [])
                                       :: tiers_pure keys tc randBase (array_at st R)))).
      { rewrite proto_entry_cons. unfold proto_tier at 1. rewrite Hpro2.
        destruct (String.eqb tier "__proto__").
        - rewrite lookup_insert_eq, Hwl2. cbn [default from_option id].
          by destruct (proto_entry _).
        - fold (proto_tier st T). destruct (proto_entry _); [done|].
          cbn [default from_option id]. unfold proto_tier.
          destruct (protos st !! T) as [p|] eqn:Hp; [|done].
          destruct (Hpro p eq_refl). unfold array_at. by rewrite Hold2. }
      destruct (IH tc randBase T A R s2)
        as (st' & Hrun & S' & P' & W' & C' & L' & A' & O' & OT' & AA' & SN' & V' & PR'
            & PT').
      { lia. }
      { lia. }
      { by rewrite Hobj, length_insert. }
      { intros l Hl. unfold object_at in Hl. rewrite Hobj in Hl.
        rewrite list_lookup_insert_eq in Hl by done. cbn [default from_option id] in Hl.
        apply obj_assign_values in Hl as [->|Hl]; [lia|].
        destruct (Hvals l Hl). lia. }
      { exact HprT. }
      assert (HeqA : array_at s2 A = array_at st A)
        by (unfold array_at; by rewrite Hold2).
      assert (HeqR : array_at s2 R = array_at st R)
        by (unfold array_at; by rewrite Hold2).
      exists st'. split; [exact Hrun|].
      split; [congruence|]. split; [congruence|]. split; [congruence|].
      split; [congruence|]. split; [lia|].
      split. { intros l Hl Hne. rewrite A' by (done || lia). by apply Hold2. }
      split. { by rewrite O', Hobj, length_insert. }
      split. { intros t Ht. rewrite OT' by done. rewrite Hobj.
               by rewrite list_lookup_insert_ne. }
      split. { rewrite AA', HeqA, HeqR. done. }
      split.
      { rewrite SN', HeqR.
        rewrite (snapshot_tiers_set st s2 T tier (length (arrays st))); [|done|done|].
        - rewrite Hwl2. apply obj_set_all_assign.
        - intros l Hl. destruct (Hvals l Hl). by apply Hold2. }
      split; [|split; [intros t Ht; rewrite PR' by done; by apply Hpr2|]].
      2:{ rewrite PT'. rewrite ?HR2, ?HeqR. exact HptT. }
      intros l Hl. destruct (V' l Hl) as (Hlt & Hne & Hor). split; [done|]. split; [done|].
      destruct Hor as [Hin|Hge]; [|right; lia].
      unfold object_at in Hin. rewrite Hobj in Hin.
      rewrite list_lookup_insert_eq in Hin by done. cbn [default from_option id] in Hin.
      apply obj_assign_values in Hin as [->|Hin]; [right; lia|by left].
Qed.

(** ** The whole-session draw with tiers, spelled out *)

Lemma draw_tiered_run st now sid numWinners members session seed p lastBlock :
  sessions st !! sid = Some session ->
  drawn session = false ->
  seed_of session = Some seed ->
  participants st !! sid = Some p ->
  (p < length (arrays st))%nat ->
  array_at st p <> [] ->
  last (chain st) = Some lastBlock ->
  obj_of_members members <> [] ->
  protos st !! length (objects st) = None ->
  let l := array_at st p in
  let tc := obj_of_members members in
  let material := sha256 (utf8 (hash lastBlock +:+ seed +:+ pretty (length l))) in
  let ts := tiers_pure (obj_keys tc) tc material l in
  let n := length (arrays st) in
  let m := length (objects st) in
  exists st' b,
    draw now sid numWinners (Some members) st
    = (Some (DrawResult (concat ts.*2) (Some (obj_set_all [] (member_tiers ts)))), st')
    /\ sessions st' = alter (set_drawn true) sid (sessions st)
    /\ participants st' = participants st
    /\ winners st' = <[sid := mkWinners (S n) m]> (winners st)
    /\ (S (S n) <= length (arrays st'))%nat
    /\ (forall i, (i < n)%nat -> arrays st' !! i = arrays st !! i)
    /\ length (objects st') = S m
    /\ (forall t, (t < m)%nat -> objects st' !! t = objects st !! t)
    /\ array_at st' (S n) = concat ts.*2
    /\ snapshot_tiers st' m = obj_set_all [] (member_tiers ts)
    /\ (forall i, i ∈ (object_at st' m).*2 ->
          (n <= i < length (arrays st'))%nat /\ i <> S n)
    /\ chain st' = chain st ++ [b]
    /\ data b = DRAWN sid (S n) m (to_hex material)
    /\ previousHash b = hash lastBlock
    /\ index b = index lastBlock + 1
    /\ timestamp b = now
    /\ Blockchain.computeHash st' b = hash b
    /\ (forall t, t <> m -> protos st' !! t = protos st !! t)
    /\ proto_tier st' m = default [] (proto_entry ts)
    /\ obj_get (object_at st' m) "__proto__" = None.
Proof.
  intros Hs Hdrawn Hseed Hp Hlt Hne Hlast Htc Hfresh l tc material ts n m. subst n m.
  unfold draw. mstep. rewrite Hs, Hdrawn, Hseed. mstep. rewrite Hp. mstep.
  destruct (Nat.eqb_spec (length (array_at st p)) 0) as [Hz|Hz].
  { by destruct (array_at st p). }
  msteps. rewrite Hlast. msteps. cbn [default from_option id].
  fold tc. fold l. fold material.
  assert (Hpos : (0 <? length (obj_keys tc))%nat = true).
  { apply Nat.ltb_lt. unfold obj_keys. rewrite length_fmap. unfold tc.
    destruct (obj_of_members members); [done|cbn; lia]. }
  rewrite Hpos. msteps.
  rewrite !length_app. cbn [length]. rewrite !Nat.add_1_r.
  set (n := length (arrays st)). set (m := length (objects st)).
  match goal with
  | |- context [draw_tiers ?keys ?tc' ?rb ?T ?A ?R ?s] => set (s0 := s)
  end.
  assert (Hs0 : sessions s0 = sessions st /\ participants s0 = participants st
                /\ winners s0 = winners st /\ chain s0 = chain st
                /\ arrays s0 = arrays st ++ [l; []]
                /\ objects s0 = objects st ++ [[]]
                /\ protos s0 = protos st).
  { subst s0. mstate. by rewrite <- app_assoc. }
  destruct Hs0 as (S0 & P0 & W0 & C0 & A0 & O0 & PR0). clearbody s0.
  assert (Hn0 : array_at s0 n = l)
    by (unfold array_at, n; by rewrite A0, lookup_snoc2_0).
  assert (Hn1 : array_at s0 (S n) = [])
    by (unfold array_at, n; by rewrite A0, lookup_snoc2_1).
  assert (Hm0 : object_at s0 m = []).
  { unfold object_at, m. by rewrite O0, list_lookup_middle. }
  destruct (draw_tiers_spec (obj_keys tc) tc material m (S n) n s0)
    as (st2 & Hrun & S2 & P2 & W2 & C2 & L2 & A2 & O2 & OT2 & AA2 & SN2 & V2 & PR2 & PT2).
  { rewrite A0, length_app. cbn. lia. }
  { rewrite A0, length_app. cbn. lia. }
  { rewrite O0, length_app. cbn. lia. }
  { intros i Hi. rewrite Hm0 in Hi. by apply elem_of_nil in Hi. }
  { intros i. rewrite PR0. unfold m. by rewrite Hfresh. }
  rewrite Hrun. msteps.
  rewrite (addBlock_run _ _ _ lastBlock) by (msimpl; by rewrite C2, C0).
  msteps. mstate.
  match goal with
  | |- exists st' b, (Some (DrawResult (array_at ?s _) _), _) = _ /\ _ => set (sf := s)
  end.
  assert (Hsf : arrays sf = arrays st2 /\ objects sf = objects st2
                /\ protos sf = protos st2) by done.
  destruct Hsf as (Asf & Osf & Psf).
  assert (Hlen0 : length (arrays s0) = S (S n)) by (rewrite A0, length_app; cbn; lia).
  assert (Hall : array_at sf (S n) = concat ts.*2).
  { unfold array_at at 1. rewrite Asf. fold (array_at st2 (S n)).
    rewrite AA2, Hn1, Hn0. done. }
  assert (Hsnap : snapshot_tiers sf m = obj_set_all [] (member_tiers ts)).
  { unfold snapshot_tiers, object_at, array_at. rewrite Asf, Osf.
    fold (object_at st2 m). fold (snapshot_tiers st2 m) in SN2.
    change (snapshot_tiers st2 m = obj_set_all [] (member_tiers ts)).
    rewrite SN2, Hn0. unfold snapshot_tiers at 1. by rewrite Hm0. }
  assert (Hpl : obj_get (object_at sf m) "__proto__" = None).
  { pose proof (member_tiers_plain ts [] eq_refl) as Hplain.
    rewrite <- Hsnap in Hplain. unfold snapshot_tiers in Hplain.
    rewrite obj_get_map in Hplain. by destruct (obj_get (object_at sf m) "__proto__"). }
  rewrite Hall, Hsnap.
  eexists sf, _. split; [reflexivity|].
  subst sf. cbn [sessions participants winners arrays objects chain].
  rewrite S2, S0, P2, P0, W2, W0, C2, C0.
  split; [done|]. split; [done|]. split; [done|].
  split; [lia|].
  split. { intros i Hi. rewrite A2 by lia. rewrite A0. by rewrite lookup_app_l. }
  split. { rewrite O2, O0, length_app. cbn. lia. }
  split. { intros t Ht. rewrite OT2 by lia. rewrite O0. by rewrite lookup_app_l. }
  split; [exact Hall|]. split; [exact Hsnap|].
  split.
  { intros i Hi. change (i ∈ (object_at st2 m).*2) in Hi.
    destruct (V2 i Hi) as (Hi1 & Hi2 & [Hi3|Hi3]).
    - rewrite Hm0 in Hi3. by apply elem_of_nil in Hi3.
    - lia. }
  split; [reflexivity|]. split; [reflexivity|]. split; [reflexivity|].
  split; [reflexivity|]. split; [reflexivity|]. split; [reflexivity|].
  split.
  { intros t Ht. cbn [protos]. rewrite PR2 by done. by rewrite PR0. }
  match goal with
  | |- proto_tier ?s m = _ /\ _ => change (proto_tier s m) with (proto_tier st2 m)
  end.
  split.
  { rewrite PT2, Hn0. unfold proto_tier. rewrite PR0. unfold m. by rewrite Hfresh. }
  exact Hpl.
Qed.

(** ** The tiers of a whole-session draw *)

Lemma concat_perm {A} (l l' : list (list A)) : l ≡ₚ l' -> concat l ≡ₚ concat l'.
Proof.
  induction 1 as [|x l l' _ IH|x y l|l1 l2 l3 _ IH1 _ IH2]; cbn.
  - done.
  - by rewrite IH.
  - rewrite !app_assoc. by rewrite (Permutation_app_comm y x).
  - by rewrite IH1.
Qed.

Lemma filter_names (c c' : list string) :
  filter (fun u => negb (includes (Some <$> c') u)) (Some <$> c)
  = Some <$> filter (fun x => x ∉ c') c.
Proof.
  induction c as [|x c IH]; [done|]. cbn [fmap list_fmap].
  rewrite !filter_cons. fold (fmap (M := list) (@Some string)). rewrite IH.
  unfold includes.
  destruct (bool_decide_reflect (Some x ∈ Some <$> c')) as [Hin|Hin]; cbn [negb].
  - rewrite decide_False by (intros H; exact H).
    rewrite decide_False; [done|].
    intros H. apply H. apply list_elem_of_fmap in Hin as (y & [= ->] & Hy). done.
  - rewrite decide_True by exact I.
    rewrite decide_True; [done|].
    intros H. apply Hin. apply list_elem_of_fmap. eauto.
Qed.

Lemma tiers_pure_sound keys : forall tc rb (c : list string),
  NoDup c ->
  exists cs : list (string * list string),
    tiers_pure keys tc rb (Some <$> c)
    = (fun kv : string * list string => (kv.1, Some <$> kv.2)) <$> cs
    /\ cs.*1 = keys
    /\ NoDup (concat cs.*2)
    /\ concat cs.*2 ⊆ c.
Proof.
  induction keys as [|tier keys IH]; intros tc rb c Hnd.
  - exists []. repeat split; [apply NoDup_nil_2|]. intros x Hx. by apply elem_of_nil in Hx.
  - cbn [tiers_pure]. rewrite length_fmap.
    set (count := Z.min (num_or (obj_get tc tier ≫= parseInt10) 0) (Z.of_nat (length c))).
    destruct (0 <? count) eqn:Hcount.
    + destruct (selected_sound c count (sha256 (rb ++ utf8 tier)) Hnd)
        as (c' & Hsel & Hnd' & Hsub & _); [lia|].
      rewrite Hsel, filter_names.
      destruct (IH tc rb (filter (fun x => x ∉ c') c)) as (cs & Heq & Hkeys & Hndc & Hsubc).
      { by apply NoDup_filter. }
      exists ((tier, c') :: cs). rewrite Heq. cbn. rewrite Hkeys.
      split; [done|]. split; [done|]. split.
      * apply NoDup_app. split; [done|]. split; [|done].
        intros x Hx Hin. apply Hsubc in Hin. apply list_elem_of_filter in Hin as [Hn _]. done.
      * intros x [Hx|Hx]%elem_of_app; [by apply Hsub|].
        apply Hsubc in Hx. by apply list_elem_of_filter in Hx as [_ Hx].
    + destruct (IH tc rb c Hnd) as (cs & Heq & Hkeys & Hndc & Hsubc).
      exists ((tier, []) :: cs). rewrite Heq. cbn. rewrite Hkeys. done.
Qed.

Lemma obj_set_nonempty {V} (o : object V) k v : obj_set o k v <> [].
Proof.
  unfold obj_set. destruct (obj_get o k) eqn:Hg.
  - destruct o as [|[k' v'] o]; [done|]. cbn. by destruct (String.eqb k' k).
  - destruct (array_index k).
    + destruct o as [|[k' v'] o]; [done|]. cbn.
      destruct (array_index k'); [|done]. by destruct (_ <? _)%N.
    + by destruct o.
Qed.

Lemma obj_of_members_nonempty {V} (members : list (string * V)) :
  members <> [] -> obj_of_members members <> [].
Proof.
  unfold obj_of_members.
  assert (H : forall (ms : list (string * V)) (o : object V), o <> [] ->
            foldl (fun o kv => obj_set o kv.1 kv.2) o ms <> []).
  { induction ms as [|kv ms IH]; intros o Ho; [done|].
    cbn [foldl]. apply IH, obj_set_nonempty. }
  destruct members as [|kv members]; [done|]. intros _. cbn [foldl].
  apply H, obj_set_nonempty.
Qed.

Lemma tiers_pure_keys keys : forall tc rb rem, (tiers_pure keys tc rb rem).*1 = keys.
Proof.
  induction keys as [|tier keys IH]; intros tc rb rem; [done|].
  cbn [tiers_pure]. destruct (0 <? _); cbn; by rewrite IH.
Qed.

(** ** Reveal and tier draw, spelled out with the hash of the new block *)

Lemma revealSeed_run st now sid seed session lastBlock :
  sid <> "" -> seed <> "" ->
  sessions st !! sid = Some session ->
  sha256_hex seed = seedHash session ->
  last (chain st) = Some lastBlock ->
  exists b,
    revealSeed now sid seed st
    = (Some Revealed,
       mkState (alter (set_revealedSeed seed) sid (sessions st)) (participants st)
               (winners st) (arrays st) (objects st) (chain st ++ [b]) (protos st))
    /\ data b = SEED_REVEALED sid seed
    /\ previousHash b = hash lastBlock
    /\ forall s, Blockchain.computeHash s b = hash b.
Proof.
  intros Hsid Hseed Hs Heq Hlast. unfold revealSeed.
  rewrite (truthy_true _ Hsid), (truthy_true _ Hseed). msimpl.
  mstep. rewrite Hs, Heq, String.eqb_refl. msteps.
  rewrite (addBlock_run _ _ _ lastBlock) by (msimpl; exact Hlast).
  msteps. mstate. eexists. split; [reflexivity|]. repeat split; reflexivity.
Qed.

Lemma drawTier_run_full st now sid tier count session seed w lastBlock :
  sid <> "" -> tier <> "" ->
  sessions st !! sid = Some session ->
  seed_of session = Some seed ->
  winners st !! sid = Some w ->
  tier_drawn st (tiers w) tier = false ->
  last (chain st) = Some lastBlock ->
  let remaining := filter (fun u => negb (includes (array_at st (all w)) u))
                          (participants_of st sid) in
  let material := sha256 (utf8 (hash lastBlock +:+ seed +:+ tier)) in
  let n := tier_count tier count (length remaining) in
  let ws := selected remaining n material in
  let wl := S (S (length (arrays st))) in
  remaining <> [] ->
  (all w < length (arrays st))%nat ->
  (tiers w < length (objects st))%nat ->
  exists st' b,
    drawTier now sid tier count st = (Some (TierResult ws tier), st')
    /\ sessions st'
       = alter (set_drawn (forallb (tier_drawn st' (tiers w)) (obj_keys DEFAULT_COUNTS)))
           sid (sessions st)
    /\ participants st' = participants st
    /\ winners st' = winners st
    /\ arrays st' = <[all w := array_at st (all w) ++ ws]>
                      (arrays st ++ [remaining; shuffled remaining n material; ws])
    /\ objects st'
       = <[tiers w := obj_assign (object_at st (tiers w)) tier wl]> (objects st)
    /\ chain st' = chain st ++ [b]
    /\ data b = TIER_DRAWN sid tier wl (to_hex material)
    /\ previousHash b = hash lastBlock
    /\ Blockchain.computeHash st' b = hash b
    /\ protos st'
       = if String.eqb tier "__proto__" then <[tiers w := wl]> (protos st) else protos st.
Proof.
  intros Hsid Htier Hs Hseed Hw Hnot Hlast remaining material n ws wl Hrem Hall Htiers.
  unfold drawTier.
  rewrite (truthy_true _ Hsid), (truthy_true _ Htier).
  msimpl. mstep. rewrite Hs, Hseed. msteps. rewrite Hw. msteps. rewrite Hnot. msteps.
  assert (Hlist : exists p, participants st !! sid = Some p
                            /\ participants_of st sid = array_at st p).
  { unfold remaining, participants_of in *.
    destruct (participants st !! sid) as [p|]; [eauto|done]. }
  destruct Hlist as (p & Hp & Hpo). rewrite Hp. msteps. rewrite <- Hpo.
  rewrite array_at_alloc. fold remaining.
  destruct (Nat.eqb_spec (length remaining) 0) as [Hz|Hz].
  { destruct remaining; [done|discriminate]. }
  msteps. rewrite Hlast. msteps.
  unfold selectWinners_num. fold (tier_count tier count (length remaining)). fold n.
  rewrite selectWinners_run. msteps.
  rewrite array_at_alloc. fold remaining material n ws.
  rewrite (addBlock_run _ _ _ lastBlock) by (msimpl; exact Hlast).
  msteps.
  assert (Hidx : forall (h : list (list jsval)) a b c, (h ++ [a]) ++ [b; c] = h ++ [a; b; c])
    by (intros; by rewrite <- app_assoc).
  assert (Hlenr : length (arrays st ++ [remaining]) = S (length (arrays st)))
    by (rewrite length_app; simpl; lia).
  match goal with
  | |- exists st' b, (Some (TierResult ?x tier), _) = _ /\ _ =>
      assert (Hx : x = ws)
  end.
  { unfold array_at. msimpl. rewrite Hlenr, Hidx.
    rewrite list_lookup_insert_ne by lia.
    rewrite lookup_app_r by lia.
    replace (S (S (length (arrays st))) - length (arrays st))%nat with 2%nat by lia.
    reflexivity. }
  rewrite Hx. eexists _, _. split; [reflexivity|]. msimpl.
  rewrite Hlenr, Hidx.
  split; [reflexivity|].
  repeat split; try reflexivity.
  unfold array_at. msimpl. rewrite Hidx.
  rewrite lookup_app_l by lia.
  rewrite (lookup_app_r (arrays st)) by lia.
  replace (S (S (length (arrays st))) - length (arrays st))%nat with 2%nat by lia.
  reflexivity.
  - rewrite assign_objects_insert by (mstate; done). unfold object_at. by mstate.
  - rewrite assign_protos. by mstate.
Qed.

(** ** Tier objects and their prototypes in every reachable state *)

Lemma settled_unchanged st st' : settled st -> unchanged st st' -> settled st'.
Proof.
  intros [Hp Hs Hm Ha Hr] (S' & P' & W' & O' & C' & PR' & _).
  split; unfold object_at; rewrite ?S', ?W', ?O', ?PR'; done.
Qed.

(** A step that leaves the old tier objects and their prototypes alone, and
    gives at most one session a record with a fresh tier object. *)
Lemma settled_step st st' :
  wf st -> settled st ->
  (length (objects st) <= length (objects st'))%nat ->
  (forall t, (t < length (objects st))%nat -> objects st' !! t = objects st !! t) ->
  (forall t, (t < length (objects st))%nat -> protos st' !! t = protos st !! t) ->
  (forall t, is_Some (protos st' !! t) -> (t < length (objects st'))%nat) ->
  (forall sid, is_Some (winners st' !! sid) -> is_Some (sessions st' !! sid)) ->
  (forall sid w, winners st' !! sid = Some w ->
     (winners st !! sid = Some w
      /\ forall session', sessions st' !! sid = Some session' -> seed_of session' = None ->
           exists session, sessions st !! sid = Some session /\ seed_of session = None)
     \/ ((length (objects st) <= tiers w)%nat
         /\ obj_get (object_at st' (tiers w)) "__proto__" = None
         /\ (forall sid' w', sid' <> sid -> winners st' !! sid' = Some w' ->
               winners st !! sid' = Some w')
         /\ (forall session', sessions st' !! sid = Some session' ->
               seed_of session' = None ->
               object_at st' (tiers w) = [] /\ protos st' !! tiers w = None))) ->
  settled st'.
Proof.
  intros Hwf [Hp Hs Hm Ha Hr] Hlen Ho Hpr Hp' Hs' Hw.
  assert (Hold : forall sid w, winners st !! sid = Some w ->
            object_at st' (tiers w) = object_at st (tiers w)
            /\ protos st' !! tiers w = protos st !! tiers w).
  { intros sid w Hl. destruct (wf_winners st Hwf sid w Hl) as [_ Htl].
    split; [|by apply Hpr]. unfold object_at. by rewrite Ho. }
  split.
  - exact Hp'.
  - exact Hs'.
  - intros sid w Hl. destruct (Hw sid w Hl) as [[Hl0 _]|(_ & Hnew & _)]; [|done].
    destruct (Hold sid w Hl0) as [-> _]. by apply (Hm sid).
  - intros sid sid' w w' Hne Hl Hl'.
    destruct (Hw sid w Hl) as [[Hl0 _]|(Hf & _ & Hoth & _)].
    + destruct (Hw sid' w' Hl') as [[Hl0' _]|(Hf' & _)].
      * by apply (Ha sid sid').
      * destruct (wf_winners st Hwf sid w Hl0). lia.
    + assert (Hl0' : winners st !! sid' = Some w') by (by apply (Hoth sid' w')).
      destruct (wf_winners st Hwf sid' w' Hl0'). lia.
  - intros sid w session' Hl Hses Hseed.
    destruct (Hw sid w Hl) as [[Hl0 Hsame]|(_ & _ & _ & Hnew)]; [|by apply (Hnew session')].
    destruct (Hsame session' Hses Hseed) as (session & Hses0 & Hseed0).
    destruct (Hold sid w Hl0) as [-> ->]. by apply (Hr sid w session).
Qed.

Lemma drawTier_settled st now sid tier count :
  wf st -> settled st -> settled (drawTier now sid tier count st).2.
Proof.
  intros Hwf Hst.
  destruct (drawTier_cases st now sid tier count Hwf)
    as [(s & m & st2 & -> & _ & Hun)
       |(session & seed & w & lastBlock & Hsid & Htier & Hs & Hseed & Hw & Hdrawn
         & Hlast & Hrem)].
  { by apply (settled_unchanged st). }
  pose proof (wf_winners st Hwf sid w Hw) as [Hall Htiers].
  destruct (drawTier_run_full st now sid tier count session seed w lastBlock
              Hsid Htier Hs Hseed Hw Hdrawn Hlast Hrem Hall Htiers)
    as (st' & b & -> & Es & Ep & Ew & Ea & Eo & Ec & _ & _ & _ & Epr).
  cbv zeta in Eo, Epr. cbn [snd].
  destruct Hst as [Hp Hss Hm Ha Hr].
  assert (Hother : forall sid0 w0, sid0 <> sid -> winners st !! sid0 = Some w0 ->
            object_at st' (tiers w0) = object_at st (tiers w0)
            /\ protos st' !! tiers w0 = protos st !! tiers w0).
  { intros sid0 w0 Hne Hw0. pose proof (Ha sid0 sid w0 w Hne Hw0 Hw) as Hnt.
    split.
    - unfold object_at. rewrite Eo. by rewrite list_lookup_insert_ne.
    - rewrite Epr. destruct (String.eqb tier "__proto__"); [|done].
      by rewrite lookup_insert_ne. }
  assert (Hobj : object_at st' (tiers w)
                 = obj_assign (object_at st (tiers w)) tier (S (S (length (arrays st))))).
  { unfold object_at at 1. rewrite Eo. by rewrite list_lookup_insert_eq. }
  split.
  - intros t. rewrite Eo, length_insert, Epr.
    destruct (String.eqb tier "__proto__"); [|by apply Hp].
    destruct (decide (t = tiers w)) as [->|Hne]; [done|].
    rewrite lookup_insert_ne by done. by apply Hp.
  - intros sid0. rewrite Ew, Es. intros H%Hss.
    destruct (decide (sid0 = sid)) as [->|Hne].
    + rewrite lookup_alter_eq, Hs. by eexists.
    + by rewrite lookup_alter_ne.
  - intros sid0 w0. rewrite Ew. intros Hw0.
    destruct (decide (sid0 = sid)) as [->|Hne].
    + rewrite Hw in Hw0. injection Hw0 as <-. rewrite Hobj.
      unfold obj_assign. destruct (String.eqb_spec tier "__proto__") as [->|Hnp].
      * by apply (Hm sid).
      * apply obj_get_None. intros [Heq|Hin]%obj_set_keys_sub; [done|].
        revert Hin. apply obj_get_None. by apply (Hm sid).
    + destruct (Hother sid0 w0 Hne Hw0) as [-> _]. by apply (Hm sid0).
  - intros sid0 sid1 w0 w1 Hne. rewrite Ew. by apply Ha.
  - intros sid0 w0 session0. rewrite Ew, Es. intros Hw0 Hs0 Hseed0.
    destruct (decide (sid0 = sid)) as [->|Hne].
    + rewrite lookup_alter_eq, Hs in Hs0. injection Hs0 as <-.
      unfold seed_of in Hseed, Hseed0. cbn in Hseed0. by rewrite Hseed in Hseed0.
    + rewrite lookup_alter_ne in Hs0 by done.
      destruct (Hother sid0 w0 Hne Hw0) as [-> ->]. by apply (Hr sid0 w0 session0).
Qed.

Lemma step_settled st r : wf st -> settled st -> settled (step st r).
Proof.
  intros Hwf Hst. unfold step. rewrite requestListener_state.
  destruct r as [nowId now name sh|now sid user|now sid seed
                |now sid nw tc|now sid tier count|now sid users]; cbn [handler].
  - destruct (createSession_cases st nowId now name sh) as [Hc|[Hname Hsh]].
    { by rewrite Hc. }
    destruct (wf_last st Hwf) as [lastBlock Hlast].
    destruct (createSession_run st nowId now name sh lastBlock Hname Hsh Hlast)
      as (b & -> & _).
    cbn [snd]. apply (settled_step st _ Hwf Hst);
      cbn [sessions arrays objects participants winners protos].
    + rewrite length_app. lia.
    + intros t Ht. by rewrite lookup_app_l.
    + done.
    + intros t Ht%(settled_protos st Hst). rewrite length_app. lia.
    + intros s [w [[<- _]|[Hne H]]%lookup_insert_Some].
      * rewrite lookup_insert_eq. by eexists.
      * rewrite lookup_insert_ne by done. apply (settled_sessions st Hst). by eexists.
    + intros s w [[<- <-]|[Hne H]]%lookup_insert_Some.
      * right. cbn [all tiers]. split; [lia|].
        unfold object_at. cbn [objects]. rewrite list_lookup_middle by done.
        split; [done|]. split.
        { intros s' w' Hne'. by rewrite lookup_insert_ne. }
        intros _ _ _. split; [done|].
        destruct (protos st !! length (objects st)) eqn:Hpr; [|done].
        assert (length (objects st) < length (objects st))%nat; [|lia].
        apply (settled_protos st Hst). by eexists.
      * left. split; [done|]. intros session'. rewrite lookup_insert_ne by done. eauto.
  - destruct (enter_cases st now sid user Hwf)
      as [(res & -> & _)|(session & p & lastBlock & Hsid & Hu & Hs & Hp & Hlt & Hlast)];
      [done|].
    destruct (enter_run st now sid user session p lastBlock Hsid Hu Hs Hp Hlt Hlast)
      as [[_ ->]|[Hnew (b & -> & _)]]; [done|].
    cbn [snd]. destruct Hst as [H1 H2 H3 H4 H5]. by split.
  - destruct (revealSeed_cases st now sid seed Hwf)
      as [(s & m & -> & _)|(session & lastBlock & Hsid & Hseed & Hs & Heq & Hlast)];
      [done|].
    destruct (revealSeed_run st now sid seed session lastBlock Hsid Hseed Hs Heq Hlast)
      as (b & -> & _).
    cbn [snd]. apply (settled_step st _ Hwf Hst);
      cbn [sessions arrays objects participants winners protos]; try done.
    + apply (settled_protos st Hst).
    + intros s H%(settled_sessions st Hst).
      destruct (decide (s = sid)) as [->|Hne].
      * rewrite lookup_alter_eq, Hs. by eexists.
      * by rewrite lookup_alter_ne.
    + intros s w Hw. left. split; [done|]. intros session'.
      destruct (decide (s = sid)) as [->|Hne].
      * rewrite lookup_alter_eq, Hs. intros [= <-].
        unfold seed_of. cbn. by rewrite (truthy_true _ Hseed).
      * rewrite lookup_alter_ne by done. eauto.
  - destruct (draw_cases st now sid nw tc Hwf)
      as [(s & m & -> & _)
         |(session & seed & p & lastBlock & Hs & Hd & Hseed & Hp & Hlt & Hne & Hlast)];
      [done|].
    assert (Hmode : default [] tc = [] \/ exists members, tc = Some members /\ members <> []).
    { destruct tc as [[|kv ms]|]; [by left| |by left]. right. eexists. by split. }
    assert (Hfresh : protos st !! length (objects st) = None).
    { destruct (protos st !! length (objects st)) eqn:Hpr; [|done].
      assert (length (objects st) < length (objects st))%nat; [|lia].
      apply (settled_protos st Hst). by eexists. }
    assert (Hses : forall s, is_Some (<[sid := mkWinners (S (length (arrays st)))
                                            (length (objects st))]> (winners st) !! s) ->
                        is_Some (alter (set_drawn true) sid (sessions st) !! s)).
    { intros s. destruct (decide (s = sid)) as [->|Hns].
      - intros _. rewrite lookup_alter_eq, Hs. by eexists.
      - rewrite lookup_insert_ne, lookup_alter_ne by done.
        apply (settled_sessions st Hst). }
    assert (Hrec : forall st',
              sessions st' = alter (set_drawn true) sid (sessions st) ->
              winners st' = <[sid := mkWinners (S (length (arrays st)))
                                       (length (objects st))]> (winners st) ->
              obj_get (object_at st' (length (objects st))) "__proto__" = None ->
              forall s w, winners st' !! s = Some w ->
                (winners st !! s = Some w
                 /\ forall session', sessions st' !! s = Some session' ->
                      seed_of session' = None ->
                      exists session0, sessions st !! s = Some session0
                                       /\ seed_of session0 = None)
                \/ ((length (objects st) <= tiers w)%nat
                    /\ obj_get (object_at st' (tiers w)) "__proto__" = None
                    /\ (forall sid' w', sid' <> s -> winners st' !! sid' = Some w' ->
                          winners st !! sid' = Some w')
                    /\ (forall session', sessions st' !! s = Some session' ->
                          seed_of session' = None ->
                          object_at st' (tiers w) = [] /\ protos st' !! tiers w = None))).
    { intros st' Es Ew Hpl s w. rewrite Ew, Es.
      intros [[<- <-]|[Hns H]]%lookup_insert_Some.
      - right. cbn [all tiers]. split; [lia|]. split; [done|]. split.
        { intros s' w' Hne'. by rewrite lookup_insert_ne. }
        intros session'. rewrite lookup_alter_eq, Hs. intros [= <-].
        unfold seed_of in Hseed |- *. cbn. by rewrite Hseed.
      - left. split; [done|]. intros session'. rewrite lookup_alter_ne by done. eauto. }
    destruct Hmode as [Htc|(members & -> & Hmem)].
    + destruct (draw_single_run st now sid nw tc session seed p lastBlock
                  Hs Hd Hseed Hp Hne Hlast Htc) as (b & -> & _).
      cbn [snd]. match goal with |- settled ?s => set (st' := s) end.
      apply (settled_step st st' Hwf Hst).
      * subst st'. cbn [objects]. rewrite length_app. lia.
      * intros t Ht. subst st'. cbn [objects]. by rewrite lookup_app_l.
      * done.
      * intros t Ht%(settled_protos st Hst). subst st'. cbn [objects].
        rewrite length_app. lia.
      * exact Hses.
      * apply Hrec; [done|done|].
        unfold object_at. subst st'. cbn [objects]. by rewrite lookup_snoc2_0.
    + destruct (draw_tiered_run st now sid nw members session seed p lastBlock
                  Hs Hd Hseed Hp Hlt Hne Hlast (obj_of_members_nonempty members Hmem)
                  Hfresh)
        as (st' & b & -> & Es & Ep & Ew & La & Ha & Lo & Ho & _ & _ & Hv & Hc & Hdata
            & _ & _ & _ & Hh & Hpr & Hpt & Hpl).
      cbv zeta in Ew, Lo, Ho, Hpr, Hpl.
      cbn [snd]. apply (settled_step st _ Hwf Hst).
      * lia.
      * done.
      * intros t Ht. apply Hpr. lia.
      * intros t Ht. destruct (decide (t = length (objects st))) as [->|Hne']; [lia|].
        rewrite Hpr in Ht by done. apply (settled_protos st Hst) in Ht. lia.
      * rewrite Ew, Es. exact Hses.
      * by apply Hrec.
  - by apply drawTier_settled.
  - destruct (importParticipants_cases st now sid users Hwf)
      as [(res & st2 & -> & Hun & _)|(session & p & lastBlock & Hsid & Hs & Hp & Hlt & Hlast)];
      [by apply (settled_unchanged st)|].
    destruct (importParticipants_run st now sid users session p lastBlock
                Hsid Hs Hp Hlt Hlast) as (more & -> & _).
    cbn [snd]. destruct Hst as [H1 H2 H3 H4 H5]. by split.
Qed.

Lemma initial_state_settled now0 : settled (initial_state now0).
Proof.
  assert (Hw : winners (initial_state now0) = ∅) by reflexivity.
  assert (Hp : protos (initial_state now0) = ∅) by reflexivity.
  split.
  - intros t [p H]. by rewrite Hp, lookup_empty in H.
  - intros sid [w H]. by rewrite Hw, lookup_empty in H.
  - intros sid w H. by rewrite Hw, lookup_empty in H.
  - intros sid sid' w w' _ H. by rewrite Hw, lookup_empty in H.
  - intros sid w session H. by rewrite Hw, lookup_empty in H.
Qed.

Lemma run_settled now0 rs : settled (run now0 rs).
Proof.
  unfold run. induction rs as [|r rs IH] using rev_ind.
  - apply initial_state_settled.
  - rewrite foldl_app. cbn [foldl]. apply step_settled; [apply run_wf|exact IH].
Qed.

Lemma reachable_settled st : reachable st -> settled st.
Proof. intros (now0 & rs & ->). apply run_settled. Qed.

(** ** The winners of a tier draw, by the specified selection *)

Lemma filter_not_included (A : list jsval) (c : list string) :
  filter (fun u => negb (includes A u)) (Some <$> c)
  = Some <$> filter (fun x => Some x ∉ A) c.
Proof.
  induction c as [|x c IH]; [done|]. cbn [fmap list_fmap].
  rewrite !filter_cons. fold (fmap (M := list) (@Some string)). rewrite IH.
  unfold includes.
  destruct (bool_decide_reflect (Some x ∈ A)) as [Hin|Hin]; cbn [negb].
  - rewrite decide_False by (intros H; exact H).
    by rewrite decide_False by (intros H; by apply H).
  - rewrite decide_True by exact I.
    by rewrite decide_True.
Qed.

(** What [selectWinners] returns for the count of a tier draw, in terms of
    the specified selection. *)
Lemma selected_for_target (rem : list string) (material : bytes) (target : Target) :
  selected (Some <$> rem) (default 0 (min_target target (Z.of_nat (length rem)))) material
  = match target with
    | NotANumber => []
    | Count t =>
        Some <$> (if 0 <=? Z.min t (Z.of_nat (length rem))
                  then Spec.select rem material (Z.to_nat (Z.min t (Z.of_nat (length rem))))
                  else take (length rem - Z.to_nat (- Z.min t (Z.of_nat (length rem)))) rem)
    end.
Proof.
  destruct target as [t|]; cbn [min_target default from_option id].
  - destruct (Z.leb_spec 0 (Z.min t (Z.of_nat (length rem)))) as [Hk|Hk].
    + rewrite <- (Z2Nat.id (Z.min t (Z.of_nat (length rem)))) at 1 by done.
      apply selected_spec. lia.
    + rewrite selected_negative by done. by rewrite length_fmap, fmap_take.
  - change 0 with (Z.of_nat 0). by rewrite selected_spec by lia.
Qed.

Lemma stored_tier_assigned st st' sid tier w wl :
  winners st !! sid = Some w ->
  (tiers w < length (objects st))%nat ->
  winners st' = winners st ->
  objects st' = objects (assign (tiers w) tier wl st) ->
  protos st' = protos (assign (tiers w) tier wl st) ->
  stored_tier st' sid tier = Some (array_at st' wl).
Proof.
  intros Hw Ht Ew Eo Epr. unfold stored_tier. rewrite Ew, Hw.
  destruct (String.eqb tier "__proto__") eqn:He.
  - rewrite Epr, assign_protos, He. by rewrite lookup_insert_eq.
  - unfold snapshot_tiers. rewrite obj_get_map.
    unfold object_at at 1. rewrite Eo. fold (object_at (assign (tiers w) tier wl st) (tiers w)).
    rewrite object_at_assign by done. unfold obj_assign. rewrite He.
    by rewrite obj_get_set.
Qed.

(** C9, as the code has it.  For every successful [drawTier] in a reachable
    state, the material is the SHA-256 digest of the chain tip at call time
    followed by the revealed seed and the tier name, and the winners
    recorded for the tier are these: with [remaining] the participants not in
    [allWinners], and [target] the count when one is supplied and not zero,
    else the default of the tier (special 1, first 5, second 5, third 20),
    else 1, they are [select(remaining, material, min(target,
    len(remaining)))] when that minimum is not negative, and [remaining]
    without its last [-min] members when it is negative; and when no count
    is supplied and the tier name is that of a member of
    [Object.prototype], so that the target is not a number, nobody is
    drawn.  The list is stored for the tier, and the TIER_DRAWN block
    carries it with the material in hex. *)
Theorem drawTier_material_and_winners
    (st : State) (now : Z) (sid tier : string) (count : option Z)
    (ws : list jsval) (tier' : string) (st' : State) :
  reachable st ->
  requestListener (DrawTier now sid tier count) st = (TierResult ws tier', st') ->
  exists session seed lastBlock b wl (remaining : list string),
    sessions st !! sid = Some session
    /\ revealedSeed session = Some seed
    /\ last (chain st) = Some lastBlock
    /\ remaining_of st sid = Some <$> remaining
    /\ ws = match targetCount tier count with
            | NotANumber => []
            | Count target =>
                Some <$>
                  (if 0 <=? Z.min target (Z.of_nat (length remaining))
                   then Spec.select remaining (tier_material (hash lastBlock) seed tier)
                          (Z.to_nat (Z.min target (Z.of_nat (length remaining))))
                   else take (length remaining
                              - Z.to_nat (- Z.min target (Z.of_nat (length remaining))))
                          remaining)
            end
    /\ tier' = tier
    /\ stored_tier st' sid tier = Some ws
    /\ chain st' = chain st ++ [b]
    /\ data b = TIER_DRAWN sid tier wl (to_hex (tier_material (hash lastBlock) seed tier))
    /\ array_at st' wl = ws.
Proof.
  intros Hr Hreq. pose proof (reachable_wf st Hr) as Hwf.
  destruct (drawTier_success st now sid tier count ws tier' st' Hwf Hreq)
    as (session & seed & w & lastBlock & d & b & wl & Hready & Hws & Es & Ep & Ew
        & Eo & Ea & Ec & Ed & _ & Epr & Etier).
  destruct Hready as (Hsid & Htier & Hs & Hseed & Hw & _ & Hlast & _).
  apply seed_of_revealed in Hseed as [Hseed _].
  destruct (reachable_rosters st Hr sid) as (c & Hc & _).
  pose proof (wf_winners st Hwf sid w Hw) as [_ Htiers].
  assert (Hrem : remaining_of st sid
                 = Some <$> filter (fun x => Some x ∉ allWinners_of st sid) c).
  { unfold remaining_of. by rewrite Hc, filter_not_included. }
  exists session, seed, lastBlock, b, wl,
    (filter (fun x => Some x ∉ allWinners_of st sid) c).
  split; [done|]. split; [done|]. split; [done|]. split; [done|].
  split.
  { rewrite Hws, Hrem, length_fmap. unfold tier_count. apply selected_for_target. }
  split; [done|]. split.
  { rewrite <- Ea. by apply (stored_tier_assigned st st' sid tier w wl). }
  done.
Qed.

Lemma drawTier_material_and_winners_witness :
  exists session seed lastBlock b wl (remaining : list string),
    sessions (run 1000 revealed) !! "2000" = Some session
    /\ revealedSeed session = Some seed
    /\ last (chain (run 1000 revealed)) = Some lastBlock
    /\ remaining_of (run 1000 revealed) "2000" = Some <$> remaining
    /\ [Some "a"; Some "b"]
       = match targetCount "first" (Some 2) with
         | NotANumber => []
         | Count target =>
             Some <$>
               (if 0 <=? Z.min target (Z.of_nat (length remaining))
                then Spec.select remaining (tier_material (hash lastBlock) seed "first")
                       (Z.to_nat (Z.min target (Z.of_nat (length remaining))))
                else take (length remaining
                           - Z.to_nat (- Z.min target (Z.of_nat (length remaining))))
                       remaining)
         end
    /\ "first" = "first"
    /\ stored_tier
         (requestListener (DrawTier 2006 "2000" "first" (Some 2)) (run 1000 revealed)).2
         "2000" "first"
       = Some [Some "a"; Some "b"]
    /\ chain (requestListener (DrawTier 2006 "2000" "first" (Some 2)) (run 1000 revealed)).2
       = chain (run 1000 revealed) ++ [b]
    /\ data b = TIER_DRAWN "2000" "first" wl
                  (to_hex (tier_material (hash lastBlock) seed "first"))
    /\ array_at (requestListener (DrawTier 2006 "2000" "first" (Some 2))
                   (run 1000 revealed)).2 wl
       = [Some "a"; Some "b"].
Proof.
  apply (drawTier_material_and_winners (run 1000 revealed) 2006 "2000" "first" (Some 2)
           [Some "a"; Some "b"] "first"
           (requestListener (DrawTier 2006 "2000" "first" (Some 2)) (run 1000 revealed)).2).
  - exists 1000, revealed. reflexivity.
  - vm_compute. reflexivity.
Defined.

(** C9 as stated fails when [count] is zero: the call succeeds with one
    winner (the default for a tier without a configured count), while
    [select] with [min(0, len(remaining)) = 0] is empty. *)
Lemma drawTier_zero_count_uses_default :
  (requestListener (DrawTier 2006 "2000" "bonus" (Some 0)) (run 1000 revealed)).1
  = TierResult [Some "b"] "bonus"
  /\ remaining_of (run 1000 revealed) "2000" = Some <$> ["a"; "b"; "c"]
  /\ Spec.select ["a"; "b"; "c"]
       (tier_material
          (default "" (hash <$> last (chain (run 1000 revealed)))) "s3cr3t" "bonus")
       (Z.to_nat (Z.min 0 (Z.of_nat (length ["a"; "b"; "c"]))))
     = [].
Proof. vm_compute. repeat split; reflexivity. Qed.

(** ** A tier that holds winners is not drawn again *)

Lemma stored_tier_drawn st sid tier w ws :
  settled st ->
  winners st !! sid = Some w ->
  stored_tier st sid tier = Some ws -> ws <> [] ->
  tier_drawn st (tiers w) tier = true.
Proof.
  intros Hst Hw Hstored Hne. unfold stored_tier in Hstored. rewrite Hw in Hstored.
  unfold tier_drawn.
  destruct (String.eqb_spec tier "__proto__") as [->|Hnp].
  - rewrite (settled_members st Hst sid w Hw).
    destruct (protos st !! tiers w) as [p|]; [|done].
    injection Hstored as Hp. rewrite Hp. unfold array_member_nonempty. cbn.
    by destruct ws.
  - unfold snapshot_tiers in Hstored. rewrite obj_get_map in Hstored.
    destruct (obj_get (object_at st (tiers w)) tier) as [l|]; [|done].
    injection Hstored as Hl. rewrite Hl. by destruct ws.
Qed.

(** C7, as the code has it.  In every state the server reaches, when the
    winners record of a session holds a non-empty list for a tier (the
    member of that name of [tiers], or for the name [__proto__] the list
    that became the prototype of [tiers]), [drawTier] for that session and
    tier, whatever its count, answers 400 "tier .. already drawn" and
    leaves the whole state, hence the stored winners, as it was.  (Only
    /api/draw stores a list under the empty name, for which [drawTier]
    answers that a tier is required.) *)
Theorem drawTier_twice_rejected
    (st : State) (now : Z) (sid tier : string) (count : option Z) (ws : list jsval) :
  reachable st ->
  stored_tier st sid tier = Some ws ->
  ws <> [] ->
  requestListener (DrawTier now sid tier count) st
  = (Error 400 (if truthy tier then "tier " +:+ tier +:+ " already drawn"
                else "sessionId and tier are required"), st).
Proof.
  intros Hr Hstored Hne.
  pose proof (reachable_wf st Hr) as Hwf. pose proof (reachable_settled st Hr) as Hst.
  assert (Hw : exists w, winners st !! sid = Some w).
  { unfold stored_tier in Hstored. destruct (winners st !! sid); [eauto|done]. }
  destruct Hw as [w Hw].
  destruct (settled_sessions st Hst sid) as [session Hs]; [by eexists|].
  assert (Hsid : sid <> "") by (apply (wf_ids st Hwf); by eexists).
  apply requestListener_handler. cbn [handler].
  destruct (truthy tier) eqn:Htier.
  2:{ unfold drawTier. rewrite (truthy_true _ Hsid), Htier. reflexivity. }
  apply truthy_true_iff in Htier.
  destruct (seed_of session) as [seed|] eqn:Hseed.
  - apply (drawTier_already_drawn st now sid tier count session seed w); try done.
    by apply (stored_tier_drawn st sid tier w ws).
  - destruct (settled_revealed st Hst sid w session Hw Hs Hseed) as [Hobj Hpr].
    unfold stored_tier in Hstored. rewrite Hw in Hstored.
    unfold snapshot_tiers in Hstored. rewrite Hobj, Hpr in Hstored.
    by destruct (String.eqb tier "__proto__").
Qed.

Lemma drawTier_twice_rejected_witness :
  requestListener (DrawTier 2007 "2000" "first" (Some 3))
    (run 1000 (revealed ++ [DrawTier 2006 "2000" "first" (Some 2)]))
  = (Error 400 (if truthy "first" then "tier " +:+ "first" +:+ " already drawn"
                else "sessionId and tier are required"),
     run 1000 (revealed ++ [DrawTier 2006 "2000" "first" (Some 2)])).
Proof.
  apply (drawTier_twice_rejected
           (run 1000 (revealed ++ [DrawTier 2006 "2000" "first" (Some 2)]))
           2007 "2000" "first" (Some 3) [Some "a"; Some "b"]).
  - exists 1000, (revealed ++ [DrawTier 2006 "2000" "first" (Some 2)]). reflexivity.
  - vm_compute. reflexivity.
  - discriminate.
Defined.

(** C7 as stated fails when the first call recorded no winner: with three
    participants and a count of -3, [drawTier] succeeds and stores the empty
    list for the tier; the second call for the same session and tier is
    accepted and replaces the stored list. *)
Lemma drawTier_empty_tier_redrawn :
  requestListener (DrawTier 2006 "2000" "first" (Some (-3))) (run 1000 revealed)
  = (TierResult [] "first",
     run 1000 (revealed ++ [DrawTier 2006 "2000" "first" (Some (-3))]))
  /\ stored_tier (run 1000 (revealed ++ [DrawTier 2006 "2000" "first" (Some (-3))]))
       "2000" "first"
     = Some []
  /\ (requestListener (DrawTier 2007 "2000" "first" (Some 1))
        (run 1000 (revealed ++ [DrawTier 2006 "2000" "first" (Some (-3))]))).1
     = TierResult [Some "b"] "first"
  /\ stored_tier
       (run 1000 (revealed ++ [DrawTier 2006 "2000" "first" (Some (-3));
                               DrawTier 2007 "2000" "first" (Some 1)]))
       "2000" "first"
     = Some [Some "b"].
Proof. vm_compute. repeat split; reflexivity. Qed.

(** ** The tiers of a whole-session draw, in every reachable state *)

Lemma no_proto_key (tp : list (string * list jsval)) :
  "__proto__" ∉ tp.*1 -> proto_entry tp = None /\ member_tiers tp = tp.
Proof.
  induction tp as [|[k v] tp IH]; [done|]. cbn [fmap list_fmap fst].
  intros [Hk Hin]%not_elem_of_cons. destruct (IH Hin) as [IH1 IH2].
  rewrite proto_entry_cons. unfold member_tiers. rewrite filter_cons. cbn [fst].
  destruct (String.eqb_spec k "__proto__") as [->|_]; [done|].
  rewrite decide_True by (by intros ->). fold (member_tiers tp). by rewrite IH2.
Qed.

Lemma tiers_split (tp : list (string * list jsval)) :
  NoDup tp.*1 ->
  concat (member_tiers tp).*2 ++ default [] (proto_entry tp) ≡ₚ concat tp.*2.
Proof.
  induction tp as [|[k v] tp IH]; [done|]. cbn [fmap list_fmap fst snd concat].
  intros [Hk Hnd]%NoDup_cons. rewrite proto_entry_cons.
  unfold member_tiers. rewrite filter_cons. cbn [fst].
  destruct (String.eqb_spec k "__proto__") as [->|Hne].
  - rewrite decide_False by (intros H; by apply H). fold (member_tiers tp).
    destruct (no_proto_key tp Hk) as [-> ->]. cbn [default from_option id].
    apply Permutation_app_comm.
  - rewrite decide_True by done. fold (member_tiers tp).
    cbn [fmap list_fmap snd concat]. rewrite <- app_assoc. by rewrite IH.
Qed.

(** X15.  In every state the server reaches, [/api/draw] with tier counts for
    a session that is not drawn, has a revealed seed and at least one
    participant draws the tiers in the order of the keys of [tierCounts],
    each from the participants the tiers before it left, the quota of a tier
    being what [parseInt] reads in its count; the answer lists every winner
    once, all of them participants.  The tier lists answered and stored as
    members of [tiers] are those of all keys but [__proto__]: the list drawn
    for that key becomes the prototype of [tiers].  The winners are exactly
    the members of the tier lists and of that list, so that nobody wins in
    two tiers.  The session is then marked drawn. *)
Theorem draw_tiered_winners_distinct
    (st : State) (now : Z) (sid : string) (numWinners : option Z)
    (members : list (string * string)) (session : Session) (seed : string) :
  reachable st ->
  sessions st !! sid = Some session ->
  drawn session = false ->
  revealedSeed session = Some seed ->
  seed <> "" ->
  participants_of st sid <> [] ->
  members <> [] ->
  exists st' lastBlock (c : list string) ts,
    last (chain st) = Some lastBlock
    /\ requestListener (Draw now sid numWinners (Some members)) st
       = (DrawResult (Some <$> c) (Some ts), st')
    /\ Some <$> c
       = concat (tiers_pure (obj_keys (obj_of_members members)) (obj_of_members members)
                   (draw_material (hash lastBlock) seed (length (participants_of st sid)))
                   (participants_of st sid)).*2
    /\ ts ≡ₚ member_tiers
               (tiers_pure (obj_keys (obj_of_members members)) (obj_of_members members)
                  (draw_material (hash lastBlock) seed (length (participants_of st sid)))
                  (participants_of st sid))
    /\ concat ts.*2 ++ protoWinners_of st' sid ≡ₚ Some <$> c
    /\ NoDup c
    /\ (forall u, u ∈ c -> Some u ∈ participants_of st sid)
    /\ allWinners_of st' sid = Some <$> c
    /\ tierWinners_of st' sid = ts
    /\ sessions st' = <[sid := set_drawn true session]> (sessions st).
Proof.
  intros Hr Hs Hd Hrev Hseed Hne Hmem.
  pose proof (reachable_wf st Hr) as Hwf.
  assert (Hfresh : protos st !! length (objects st) = None).
  { destruct (protos st !! length (objects st)) eqn:Hpr; [|done].
    assert (length (objects st) < length (objects st))%nat; [|lia].
    apply (settled_protos st (reachable_settled st Hr)). by eexists. }
  destruct (wf_last st Hwf) as [lastBlock Hlast].
  destruct (wf_session_facts st sid Hwf) as (_ & [p Hp] & _); [by rewrite Hs|].
  pose proof (wf_participants st Hwf sid p Hp) as Hlt.
  assert (Hpo : participants_of st sid = array_at st p)
    by (unfold participants_of; by rewrite Hp).
  rewrite Hpo in *.
  assert (Hso : seed_of session = Some seed).
  { unfold seed_of. rewrite Hrev. by rewrite (truthy_true _ Hseed). }
  destruct (draw_tiered_run st now sid numWinners members session seed p lastBlock
              Hs Hd Hso Hp Hlt Hne Hlast (obj_of_members_nonempty members Hmem) Hfresh)
    as (st' & b & Hrun & Es & Ep & Ew & _ & _ & _ & _ & Hall & Hsnap & _ & _ & _ & _
        & _ & _ & _ & _ & Hpt & _).
  cbv zeta in Hrun, Ew, Hall, Hsnap, Hpt.
  destruct (reachable_rosters st Hr sid) as (c0 & Hc0 & Hnd & _). rewrite Hpo in Hc0.
  set (tc := obj_of_members members) in *.
  set (material := sha256 _) in *.
  destruct (tiers_pure_sound (obj_keys tc) tc material c0 Hnd)
    as (cs & Hts & Hkeys & Hndc & Hsub).
  rewrite <- Hc0 in Hts.
  assert (Hconcat : concat (tiers_pure (obj_keys tc) tc material (array_at st p)).*2
                    = Some <$> concat cs.*2).
  { rewrite Hts. clear. induction cs as [|[k l] cs IH]; [done|].
    cbn. rewrite fmap_app. by rewrite <- IH. }
  assert (Hkeys' : NoDup (tiers_pure (obj_keys tc) tc material (array_at st p)).*1).
  { rewrite tiers_pure_keys. apply obj_of_members_keys_NoDup. }
  assert (Hperm : obj_set_all []
                    (member_tiers (tiers_pure (obj_keys tc) tc material (array_at st p)))
                  ≡ₚ member_tiers (tiers_pure (obj_keys tc) tc material (array_at st p))).
  { rewrite obj_set_all_fresh_perm; [done| |].
    - refine (sublist_NoDup _ _ Hkeys' _). apply fmap_sublist.
      unfold member_tiers. apply sublist_filter.
    - intros k _. apply not_elem_of_nil. }
  exists st', lastBlock, (concat cs.*2),
    (obj_set_all [] (member_tiers (tiers_pure (obj_keys tc) tc material (array_at st p)))).
  split; [done|]. split.
  { apply requestListener_handler. by rewrite <- Hconcat. }
  unfold draw_material. fold material.
  split; [done|]. split; [done|]. split.
  { rewrite <- Hconcat. unfold protoWinners_of. rewrite Ew, lookup_insert_eq. cbn [tiers].
    rewrite Hpt. rewrite <- (tiers_split _ Hkeys').
    apply Permutation_app; [|done]. apply concat_perm. by apply fmap_Permutation. }
  split; [done|]. split.
  { intros u Hu. rewrite Hc0. apply list_elem_of_fmap. exists u. split; [done|]. by apply Hsub. }
  unfold allWinners_of, tierWinners_of. rewrite Ew, lookup_insert_eq. cbn [all tiers].
  split; [by rewrite Hall|]. split; [done|].
  rewrite Es. apply map_eq. intros i. destruct (decide (sid = i)) as [<-|Hneq].
  - by rewrite lookup_alter_eq, lookup_insert_eq, Hs.
  - by rewrite lookup_alter_ne, lookup_insert_ne.
Qed.

Lemma draw_tiered_winners_distinct_witness :
  exists st' lastBlock (c : list string) ts,
    last (chain (run 1000 revealed)) = Some lastBlock
    /\ requestListener (Draw 2006 "2000" None (Some [("first", "1"); ("second", "5")]))
         (run 1000 revealed)
       = (DrawResult (Some <$> c) (Some ts), st')
    /\ Some <$> c
       = concat (tiers_pure (obj_keys (obj_of_members [("first", "1"); ("second", "5")]))
                   (obj_of_members [("first", "1"); ("second", "5")])
                   (draw_material (hash lastBlock) "s3cr3t"
                      (length (participants_of (run 1000 revealed) "2000")))
                   (participants_of (run 1000 revealed) "2000")).*2
    /\ ts ≡ₚ member_tiers
               (tiers_pure (obj_keys (obj_of_members [("first", "1"); ("second", "5")]))
                  (obj_of_members [("first", "1"); ("second", "5")])
                  (draw_material (hash lastBlock) "s3cr3t"
                     (length (participants_of (run 1000 revealed) "2000")))
                  (participants_of (run 1000 revealed) "2000"))
    /\ concat ts.*2 ++ protoWinners_of st' "2000" ≡ₚ Some <$> c
    /\ NoDup c
    /\ (forall u, u ∈ c -> Some u ∈ participants_of (run 1000 revealed) "2000")
    /\ allWinners_of st' "2000" = Some <$> c
    /\ tierWinners_of st' "2000" = ts
    /\ sessions st'
       = <["2000" := set_drawn true
                       (mkSession "2000" "gala" committed (Some "s3cr3t") false)]>
           (sessions (run 1000 revealed)).
Proof.
  apply (draw_tiered_winners_distinct (run 1000 revealed) 2006 "2000" None
           [("first", "1"); ("second", "5")]
           (mkSession "2000" "gala" committed (Some "s3cr3t") false) "s3cr3t").
  - exists 1000, revealed. reflexivity.
  - vm_compute. reflexivity.
  - reflexivity.
  - reflexivity.
  - discriminate.
  - vm_compute. discriminate.
  - discriminate.
Defined.


(** ** Names that [Object.prototype] knows, on a session with three
    participants and a revealed seed *)

(** A session id that names a member of [Object.prototype] passes for a
    session in /api/enter; the list found for it has no [includes], and the
    catch block answers. *)
Example enter_on_inherited_session :
  requestListener (Enter 2006 "constructor" "x") (run 1000 revealed)
  = (Error 500 "Server error", run 1000 revealed).
Proof. vm_compute. reflexivity. Qed.

(** Without a count, a tier named like a member of [Object.prototype] has
    that member as its target: the minimum is [NaN] and nobody is drawn. *)
Example drawTier_inherited_target :
  (requestListener (DrawTier 2006 "2000" "toString" None) (run 1000 revealed)).1
  = TierResult [] "toString".
Proof. vm_compute. reflexivity. Qed.

(** The winner of a tier named [__proto__] is in [all] and in no tier
    list: the list is the prototype of [tiers]. *)
Example drawTier_proto_tier :
  (requestListener (DrawTier 2006 "2000" "__proto__" (Some 1)) (run 1000 revealed)).1
  = TierResult [Some "a"] "__proto__"
  /\ allWinners_of (run 1000 (revealed ++ [DrawTier 2006 "2000" "__proto__" (Some 1)]))
       "2000" = [Some "a"]
  /\ tierWinners_of (run 1000 (revealed ++ [DrawTier 2006 "2000" "__proto__" (Some 1)]))
       "2000" = []
  /\ protoWinners_of (run 1000 (revealed ++ [DrawTier 2006 "2000" "__proto__" (Some 1)]))
       "2000" = [Some "a"].
Proof. vm_compute. repeat split; reflexivity. Qed.

(** /api/draw reads the quota 1e21, whose text is [1e+21], as 1, and answers
    without the tier drawn for the key [__proto__]. *)
Example draw_quota_text_and_proto_key :
  (requestListener (Draw 2006 "2000" None (Some [("__proto__", "1"); ("a", "1e+21")]))
     (run 1000 revealed)).1
  = DrawResult [Some "c"; Some "b"] (Some [("a", [Some "b"])]).
Proof. vm_compute. reflexivity. Qed.

(** ** Sealed chains *)

Lemma block_arrays_ext st st' d :
  (forall t, t ∈ block_objects d -> objects st' !! t = objects st !! t) ->
  block_arrays st' d = block_arrays st d.
Proof.
  intros Ho. destruct d; cbn [block_arrays]; try done.
  unfold object_at. rewrite Ho; [done|]. cbn. apply list_elem_of_here.
Qed.

Lemma sealed_step tiered st st' more :
  sealed tiered st ->
  chain st' = chain st ++ more ->
  (length (arrays st) <= length (arrays st'))%nat ->
  (length (objects st) <= length (objects st'))%nat ->
  (forall l, (l < length (arrays st))%nat -> ~ may_change_array tiered st l ->
     arrays st' !! l = arrays st !! l) ->
  (forall t, (t < length (objects st))%nat -> ~ may_change_object tiered st t ->
     objects st' !! t = objects st !! t) ->
  (forall l, (l < length (arrays st))%nat ->
     may_change_array tiered st' l -> may_change_array tiered st l) ->
  (forall t, (t < length (objects st))%nat ->
     may_change_object tiered st' t -> may_change_object tiered st t) ->
  (forall b, b ∈ more ->
     Blockchain.computeHash st' b = hash b
     /\ (forall l, l ∈ block_arrays st' (data b) ->
           (l < length (arrays st'))%nat /\ ~ may_change_array tiered st' l)
     /\ (forall t, t ∈ block_objects (data b) ->
           (t < length (objects st'))%nat /\ ~ may_change_object tiered st' t)) ->
  sealed tiered st'.
Proof.
  intros [Hh Ha Ho] Hc Hla Hlo Hsa Hso Hma Hmo Hnew.
  assert (Hobj : forall b, b ∈ chain st ->
            forall t, t ∈ block_objects (data b) -> objects st' !! t = objects st !! t).
  { intros b Hb t Ht. destruct (Ho b t Hb Ht). by apply Hso. }
  assert (Harr : forall b, b ∈ chain st ->
            forall l, l ∈ block_arrays st (data b) -> arrays st' !! l = arrays st !! l).
  { intros b Hb l Hl. destruct (Ha b l Hb Hl). by apply Hsa. }
  split.
  - intros b. rewrite Hc. intros [Hb|Hb]%elem_of_app; [|by apply Hnew].
    rewrite (computeHash_ext st st'); [by apply Hh|by apply Harr|by apply Hobj].
  - intros b l. rewrite Hc. intros [Hb|Hb]%elem_of_app Hl; [|by apply (Hnew b Hb)].
    rewrite (block_arrays_ext st st') in Hl by (by apply Hobj).
    destruct (Ha b l Hb Hl) as [Hlt Hnot]. split; [lia|].
    intros Hm. apply Hnot. by apply Hma.
  - intros b t. rewrite Hc. intros [Hb|Hb]%elem_of_app Ht; [|by apply (Hnew b Hb)].
    destruct (Ho b t Hb Ht) as [Hlt Hnot]. split; [lia|].
    intros Hm. apply Hnot. by apply Hmo.
Qed.

Lemma sealed_same tiered st st' :
  sealed tiered st -> unchanged st st' -> sealed tiered st'.
Proof.
  intros Hs (S' & P' & W' & O' & C' & PR' & (unused & A')).
  apply (sealed_step tiered st st' []); try done.
  - by rewrite app_nil_r.
  - rewrite A', length_app. lia.
  - by rewrite O'.
  - intros l Hl _. rewrite A'. by rewrite lookup_app_l.
  - intros t _ _. by rewrite O'.
  - intros l _. unfold may_change_array. by rewrite P', W'.
  - intros t _. unfold may_change_object. by rewrite W'.
  - intros b Hb. by apply elem_of_nil in Hb.
Qed.

(** No old location is among those that may change, when the dictionaries
    kept their entries or got fresh ones. *)
Lemma may_change_array_old tiered st st' l :
  (forall sid p, participants st' !! sid = Some p ->
     (exists sid', participants st !! sid' = Some p) \/ (length (arrays st) <= p)%nat) ->
  (tiered = true -> forall sid w, winners st' !! sid = Some w ->
     (exists sid', winners st !! sid' = Some w) \/ (length (arrays st) <= all w)%nat) ->
  (l < length (arrays st))%nat ->
  may_change_array tiered st' l -> may_change_array tiered st l.
Proof.
  intros Hp Hw Hl [[sid Hs]|[Ht (sid & w & Hs & <-)]].
  - destruct (Hp sid l Hs) as [[sid' H]|H]; [left; eauto|lia].
  - destruct (Hw Ht sid w Hs) as [[sid' H]|H]; [right; eauto|lia].
Qed.

Lemma may_change_object_old tiered st st' t :
  (tiered = true -> forall sid w, winners st' !! sid = Some w ->
     (exists sid', winners st !! sid' = Some w) \/ (length (objects st) <= tiers w)%nat) ->
  (t < length (objects st))%nat ->
  may_change_object tiered st' t -> may_change_object tiered st t.
Proof.
  intros Hw Hl [Ht (sid & w & Hs & <-)].
  destruct (Hw Ht sid w Hs) as [[sid' H]|H]; [split; eauto|lia].
Qed.

(** A fresh array is not among those that may change when the dictionaries
    are those of a well-formed state. *)
Lemma fresh_array_fixed tiered st st' l :
  wf st ->
  participants st' = participants st ->
  (tiered = true -> winners st' = winners st) ->
  (length (arrays st) <= l)%nat ->
  ~ may_change_array tiered st' l.
Proof.
  intros Hwf Hp Hw Hl [[sid Hs]|[Ht (sid & w & Hs & <-)]].
  - rewrite Hp in Hs. apply (wf_participants st Hwf) in Hs. lia.
  - rewrite (Hw Ht) in Hs. apply (wf_winners st Hwf) in Hs. lia.
Qed.

Lemma may_change_array_same tiered st st' l :
  participants st' = participants st -> winners st' = winners st ->
  may_change_array tiered st' l -> may_change_array tiered st l.
Proof. unfold may_change_array. by intros -> ->. Qed.

Lemma may_change_object_same tiered st st' t :
  winners st' = winners st ->
  may_change_object tiered st' t -> may_change_object tiered st t.
Proof. unfold may_change_object. by intros ->. Qed.

Lemma step_sealed tiered st r :
  wf st -> settled st -> sealed tiered st -> allowed tiered r = true ->
  sealed tiered (step st r).
Proof.
  intros Hwf Hsett Hsl Hallowed. unfold step. rewrite requestListener_state.
  destruct r as [nowId now name sh|now sid user|now sid seed
                |now sid nw tc|now sid tier count|now sid users]; cbn [handler].
  - (* createSession *)
    destruct (createSession_cases st nowId now name sh) as [Hc|[Hname Hsh]].
    { rewrite Hc. done. }
    destruct (wf_last st Hwf) as [lastBlock Hlast].
    destruct (createSession_run st nowId now name sh lastBlock Hname Hsh Hlast)
      as (b & -> & Hd & _ & _ & _ & Hh).
    cbn [snd]. eapply (sealed_step tiered st _ [b]); [done|reflexivity|..];
      cbn [arrays objects participants winners].
    + rewrite length_app. lia.
    + rewrite length_app. lia.
    + intros l Hl _. by rewrite lookup_app_l.
    + intros t Ht _. by rewrite lookup_app_l.
    + intros l. apply may_change_array_old; cbn [participants winners].
      * intros s p [[_ <-]|[_ H]]%lookup_insert_Some; [right; lia|left; eauto].
      * intros _ s w [[_ <-]|[_ H]]%lookup_insert_Some; [right; cbn; lia|left; eauto].
    + intros t. apply may_change_object_old; cbn [winners].
      intros _ s w [[_ <-]|[_ H]]%lookup_insert_Some; [right; cbn; lia|left; eauto].
    + intros b' ->%list_elem_of_singleton. rewrite Hd. cbn [block_arrays block_objects].
      split; [apply Hh|]. split; intros x Hx; by apply elem_of_nil in Hx.
  - (* enter *)
    destruct (enter_cases st now sid user Hwf)
      as [(res & -> & Hst)|(session & p & lastBlock & Hsid & Hu & Hs & Hp & Hlt & Hlast)];
      [done|].
    destruct (enter_run st now sid user session p lastBlock Hsid Hu Hs Hp Hlt Hlast)
      as [[_ ->]|[Hnew (b & -> & Hd & _ & _ & _ & Hh)]]; [done|].
    cbn [snd]. eapply (sealed_step tiered st _ [b]); [done|reflexivity|..];
      cbn [arrays objects participants winners].
    + by rewrite length_insert.
    + done.
    + intros l Hl Hnot. rewrite list_lookup_insert_ne; [done|].
      intros <-. apply Hnot. left. eauto.
    + done.
    + intros l _. by apply may_change_array_same.
    + intros t _. by apply may_change_object_same.
    + intros b' ->%list_elem_of_singleton. rewrite Hd. cbn [block_arrays block_objects].
      split; [apply Hh|]. split; intros x Hx; by apply elem_of_nil in Hx.
  - (* revealSeed *)
    destruct (revealSeed_cases st now sid seed Hwf)
      as [(s & m & -> & Hst)|(session & lastBlock & Hsid & Hseed & Hs & Heq & Hlast)];
      [done|].
    destruct (revealSeed_run st now sid seed session lastBlock Hsid Hseed Hs Heq Hlast)
      as (b & -> & Hd & _ & Hh).
    cbn [snd]. eapply (sealed_step tiered st _ [b]); [done|reflexivity|..];
      cbn [arrays objects participants winners].
    + done.
    + done.
    + done.
    + done.
    + intros l _. by apply may_change_array_same.
    + intros t _. by apply may_change_object_same.
    + intros b' ->%list_elem_of_singleton. rewrite Hd. cbn [block_arrays block_objects].
      split; [apply Hh|]. split; intros x Hx; by apply elem_of_nil in Hx.
  - (* draw *)
    destruct tiered; [discriminate|].
    destruct (draw_cases st now sid nw tc Hwf)
      as [(s & m & -> & Hst)
         |(session & seed & p & lastBlock & Hs & Hd & Hseed & Hp & Hlt & Hne & Hlast)];
      [done|].
    assert (Hmode : default [] tc = [] \/ exists members, tc = Some members /\ members <> []).
    { destruct tc as [[|kv ms]|]; [by left| |by left]. right. eexists. by split. }
    destruct Hmode as [Htc|(members & -> & Hmem)].
    + destruct (draw_single_run st now sid nw tc session seed p lastBlock
                  Hs Hd Hseed Hp Hne Hlast Htc) as (b & -> & Hdata & _ & _ & _ & Hh).
      cbv zeta in Hdata, Hh.
      cbn [snd]. eapply (sealed_step false st _ [b]); [done|reflexivity|..];
        cbn [arrays objects participants winners].
      * rewrite length_app. lia.
      * rewrite length_app. lia.
      * intros l Hl _. by rewrite lookup_app_l.
      * intros t Ht _. by rewrite lookup_app_l.
      * intros l. apply may_change_array_old; cbn [participants]; [eauto|done].
      * intros t _ [Hf _]. discriminate.
      * intros b' ->%list_elem_of_singleton. rewrite Hdata.
        cbn [block_arrays block_objects]. split; [by apply Hh|].
        unfold object_at. cbn [objects arrays]. rewrite lookup_snoc2_1. cbn.
        split.
        -- intros l Hl. assert (l = S (length (arrays st))) as ->.
           { repeat (apply elem_of_cons in Hl as [->|Hl]; [done|]).
             by apply elem_of_nil in Hl. }
           split; [rewrite length_app; cbn; lia|].
           apply (fresh_array_fixed false st); [done|done|done|lia].
        -- intros t ->%list_elem_of_singleton. split; [rewrite length_app; cbn; lia|].
           intros [Hf _]. discriminate.
    + assert (Hfresh : protos st !! length (objects st) = None).
      { destruct (protos st !! length (objects st)) eqn:Hpr; [|done].
        assert (length (objects st) < length (objects st))%nat; [|lia].
        apply (settled_protos st Hsett). by eexists. }
      destruct (draw_tiered_run st now sid nw members session seed p lastBlock
                  Hs Hd Hseed Hp Hlt Hne Hlast (obj_of_members_nonempty members Hmem)
                  Hfresh)
        as (st' & b & -> & Es & Ep & Ew & La & Ha & Lo & Ho & _ & _ & Hv & Hc & Hdata
            & _ & _ & _ & Hh & _).
      cbv zeta in Ew, La, Ha, Lo, Ho, Hv, Hdata.
      cbn [snd]. eapply (sealed_step false st st' [b]); [done|done|..].
      * lia.
      * lia.
      * intros l Hl _. by apply Ha.
      * intros t Ht _. by apply Ho.
      * intros l. apply may_change_array_old; [|done]. rewrite Ep. eauto.
      * intros t _ [Hf _]. discriminate.
      * intros b' ->%list_elem_of_singleton. rewrite Hdata.
        cbn [block_arrays block_objects]. split; [done|]. split.
        -- intros l [->|Hl]%elem_of_cons.
           ++ split; [lia|]. apply (fresh_array_fixed false st); [done|done|done|lia].
           ++ destruct (Hv l Hl) as [[Hge Hlt'] _]. split; [done|].
              apply (fresh_array_fixed false st); [done|done|done|lia].
        -- intros t ->%list_elem_of_singleton. split; [lia|].
           intros [Hf _]. discriminate.
  - (* drawTier *)
    destruct tiered; [|discriminate].
    destruct (drawTier_cases st now sid tier count Hwf)
      as [(s & m & st2 & -> & Hst & Hun)
         |(session & seed & w & lastBlock & Hsid & Htier & Hs & Hseed & Hw & Hdrawn
           & Hlast & Hrem)].
    { by apply (sealed_same true st). }
    pose proof (wf_winners st Hwf sid w Hw) as [Hall Htiers].
    destruct (drawTier_run_full st now sid tier count session seed w lastBlock
                Hsid Htier Hs Hseed Hw Hdrawn Hlast Hrem Hall Htiers)
      as (st' & b & -> & Es & Ep & Ew & Ea & Eo & Ec & Hdata & _ & Hh & _).
    cbv zeta in Ea, Eo, Hdata.
    cbn [snd]. eapply (sealed_step true st st' [b]); [done|done|..].
    + rewrite Ea, length_insert, length_app. lia.
    + rewrite Eo, length_insert. lia.
    + intros l Hl Hnot. rewrite Ea. rewrite list_lookup_insert_ne.
      * by rewrite lookup_app_l.
      * intros <-. apply Hnot. right. split; [done|]. eauto.
    + intros t Ht Hnot. rewrite Eo. rewrite list_lookup_insert_ne; [done|].
      intros <-. apply Hnot. split; [done|]. eauto.
    + intros l _. by apply may_change_array_same.
    + intros t _. by apply may_change_object_same.
    + intros b' ->%list_elem_of_singleton. rewrite Hdata.
      cbn [block_arrays block_objects]. split; [done|]. split.
      * intros l ->%list_elem_of_singleton.
        split; [rewrite Ea, length_insert, length_app; cbn; lia|].
        apply (fresh_array_fixed true st); [done|done|done|lia].
      * intros x Hx. by apply elem_of_nil in Hx.
  - (* importParticipants *)
    destruct (importParticipants_cases st now sid users Hwf)
      as [(res & st2 & -> & Hun & Hst)|(session & p & lastBlock & Hsid & Hs & Hp & Hlt & Hlast)];
      [by apply (sealed_same tiered st)|].
    destruct (importParticipants_run st now sid users session p lastBlock
                Hsid Hs Hp Hlt Hlast) as (more & -> & Hnil & Hcons).
    cbv zeta in Hnil, Hcons.
    cbn [snd]. eapply (sealed_step tiered st _ more); [done|reflexivity|..];
      cbn [arrays objects participants winners].
    + rewrite !length_insert, length_app. lia.
    + done.
    + intros l Hl Hnot. rewrite list_lookup_insert_ne by lia.
      rewrite list_lookup_insert_ne.
      * by rewrite lookup_app_l.
      * intros <-. apply Hnot. left. eauto.
    + done.
    + intros l _. by apply may_change_array_same.
    + intros t _. by apply may_change_object_same.
    + intros b' Hb'.
      destruct ((import_pure users (array_at st p) []).2) as [|x ad] eqn:Hr2.
      { rewrite (Hnil eq_refl) in Hb'. by apply elem_of_nil in Hb'. }
      destruct Hcons as (b & -> & Hdata & Hprev & Hidx & Hts & Hhash); [done|].
      apply list_elem_of_singleton in Hb' as ->.
      rewrite Hdata. cbn [block_arrays block_objects]. split; [|split].
      * rewrite Hhash. unfold Blockchain.computeHash, Blockchain.stringify_clone.
        rewrite Hdata, Hprev, Hts. cbn [Blockchain.stringify_data].
        unfold array_at. cbn [arrays].
        rewrite list_lookup_insert_eq by (rewrite length_insert, length_app; cbn; lia).
        reflexivity.
      * intros l ->%list_elem_of_singleton.
        split; [rewrite !length_insert, length_app; cbn; lia|].
        apply (fresh_array_fixed tiered st); [done|done|done|lia].
      * intros t Ht. by apply elem_of_nil in Ht.
Qed.

Lemma initial_state_sealed tiered now0 : sealed tiered (initial_state now0).
Proof.
  split; cbn [initial_state Blockchain.createGenesisBlock snd set_chain chain empty_state app].
  - intros b ->%list_elem_of_singleton. reflexivity.
  - intros b l ->%list_elem_of_singleton Hl. by apply elem_of_nil in Hl.
  - intros b t ->%list_elem_of_singleton Ht. by apply elem_of_nil in Ht.
Qed.

Lemma run_sealed tiered now0 rs :
  forallb (allowed tiered) rs = true -> sealed tiered (run now0 rs).
Proof.
  unfold run. induction rs as [|r rs IH] using rev_ind; intros Hall.
  - apply initial_state_sealed.
  - rewrite forallb_app in Hall. apply andb_true_iff in Hall as [Hrs Hr].
    cbn in Hr. rewrite andb_true_r in Hr.
    rewrite foldl_app. cbn [foldl].
    apply step_sealed; [apply run_wf|apply run_settled|by apply IH|done].
Qed.

Lemma isValid_from_sealed st prev rest :
  linked_from prev rest ->
  (forall b, b ∈ rest -> Blockchain.computeHash st b = hash b) ->
  Blockchain.isValid_from st prev rest = true.
Proof.
  revert prev. induction rest as [|b rest IH]; intros prev Hl Hh; [done|].
  destruct Hl as (Hp & _ & Hl). cbn [Blockchain.isValid_from].
  rewrite Hp, String.eqb_refl. cbn [negb].
  rewrite (Hh b) by apply list_elem_of_here. rewrite String.eqb_refl. cbn [negb].
  apply IH; [done|]. intros b' Hb'. apply Hh. by apply list_elem_of_further.
Qed.

Lemma sealed_valid tiered st :
  linked (chain st) -> sealed tiered st -> Blockchain.isValid st = true.
Proof.
  intros Hl Hs. unfold Blockchain.isValid.
  destruct (chain st) as [|b0 rest] eqn:Hc; [done|].
  destruct Hl as (_ & _ & Hl). apply isValid_from_sealed; [done|].
  intros b Hb. apply (sealed_hash tiered st Hs). rewrite Hc. by apply list_elem_of_further.
Qed.

(** X16.  As long as no [/api/drawTier] request is made, the chain verifies:
    after any sequence of session creations, enrolments, imports, reveals
    and whole-session draws from a fresh start, [isValid()] is true. *)
Theorem chain_valid_without_tier_draws (now0 : Z) (rs : list Request) :
  forallb (fun r => negb (is_drawTier r)) rs = true ->
  Blockchain.isValid (run now0 rs) = true.
Proof.
  intros Hrs. apply (sealed_valid false).
  - apply reachable_chain_linked, reachable_run.
  - by apply run_sealed.
Qed.

Lemma chain_valid_without_tier_draws_witness :
  Blockchain.isValid (run 1000 single_drawn) = true.
Proof.
  apply (chain_valid_without_tier_draws 1000 single_drawn). reflexivity.
Defined.

(** X17.  As long as no [/api/draw] request is made, the chain verifies: after
    any sequence of session creations, enrolments, imports, reveals and tier
    draws from a fresh start, [isValid()] is true. *)
Theorem chain_valid_without_whole_draws (now0 : Z) (rs : list Request) :
  forallb (fun r => negb (is_draw r)) rs = true ->
  Blockchain.isValid (run now0 rs) = true.
Proof.
  intros Hrs. apply (sealed_valid true).
  - apply reachable_chain_linked, reachable_run.
  - by apply run_sealed.
Qed.

Lemma chain_valid_without_whole_draws_witness :
  Blockchain.isValid
    (run 1000 (revealed ++ [DrawTier 2006 "2000" "first" (Some 1);
                            DrawTier 2007 "2000" "second" (Some 1)])) = true.
Proof.
  apply (chain_valid_without_whole_draws 1000
           (revealed ++ [DrawTier 2006 "2000" "first" (Some 1);
                         DrawTier 2007 "2000" "second" (Some 1)])).
  reflexivity.
Defined.

(** ** Tier draws keep the winners records in good order *)

Lemma obj_replace_concat (o : object (list jsval)) k v :
  obj_get o k = Some [] -> concat (obj_replace o k v).*2 ≡ₚ concat o.*2 ++ v.
Proof.
  induction o as [|[k' v'] o IH]; [done|]. cbn.
  destruct (String.eqb k' k); cbn.
  - intros [= ->]. cbn. by rewrite Permutation_app_comm.
  - intros H. rewrite IH by done. by rewrite app_assoc.
Qed.

Lemma obj_set_concat (o : object (list jsval)) k v :
  (forall v0, obj_get o k = Some v0 -> v0 = []) ->
  concat (obj_set o k v).*2 ≡ₚ concat o.*2 ++ v.
Proof.
  intros H. destruct (obj_get o k) as [v0|] eqn:Hg.
  - rewrite (H v0 eq_refl) in Hg. unfold obj_set. rewrite Hg.
    by apply obj_replace_concat.
  - rewrite (concat_perm _ ((k, v) :: o).*2).
    + cbn. by rewrite Permutation_app_comm.
    + apply fmap_Permutation. by apply obj_set_fresh_perm.
Qed.

Lemma record_same st st' (w : WinnersRec) :
  arrays st' !! all w = arrays st !! all w ->
  objects st' !! tiers w = objects st !! tiers w ->
  (forall l, l ∈ (object_at st (tiers w)).*2 -> arrays st' !! l = arrays st !! l) ->
  array_at st' (all w) = array_at st (all w)
  /\ object_at st' (tiers w) = object_at st (tiers w)
  /\ snapshot_tiers st' (tiers w) = snapshot_tiers st (tiers w).
Proof.
  intros Ha Ho Hv.
  assert (Hobj : object_at st' (tiers w) = object_at st (tiers w))
    by exact (f_equal (default []) Ho).
  split; [unfold array_at; by rewrite Ha|]. split; [done|].
  unfold snapshot_tiers. rewrite Hobj.
  apply map_ext_in. intros [k l] Hin%list_elem_of_In. cbn [fst snd]. f_equal.
  unfold array_at. rewrite Hv; [done|]. apply list_elem_of_fmap. by exists (k, l).
Qed.

(** A step that leaves the old winners records and what they point to
    alone, and adds at most empty records made of fresh locations. *)
Lemma tidy_step st st' :
  wf st -> tidy st ->
  (length (arrays st) <= length (arrays st'))%nat ->
  (forall l, (l < length (arrays st))%nat -> ~ (exists sid, participants st !! sid = Some l) ->
     arrays st' !! l = arrays st !! l) ->
  (forall t, (t < length (objects st))%nat -> objects st' !! t = objects st !! t) ->
  (forall t, (t < length (objects st))%nat -> protos st' !! t = protos st !! t) ->
  (forall sid p, participants st' !! sid = Some p ->
     (exists sid', participants st !! sid' = Some p) \/ (length (arrays st) <= p)%nat) ->
  (forall sid w, winners st' !! sid = Some w ->
     winners st !! sid = Some w
     \/ ((length (arrays st) <= all w)%nat /\ (length (objects st) <= tiers w)%nat
         /\ array_at st' (all w) = [] /\ object_at st' (tiers w) = []
         /\ protos st' !! tiers w = None
         /\ forall sid' w', sid' <> sid -> winners st' !! sid' = Some w' ->
              winners st !! sid' = Some w')) ->
  tidy st'.
Proof.
  intros Hwf [Hd Hu Ht Hap] Hlen Ha Ho Hpr Hp Hw.
  assert (Hold : forall sid w, winners st !! sid = Some w ->
            array_at st' (all w) = array_at st (all w)
            /\ object_at st' (tiers w) = object_at st (tiers w)
            /\ snapshot_tiers st' (tiers w) = snapshot_tiers st (tiers w)
            /\ protos st' !! tiers w = protos st !! tiers w
            /\ proto_tier st' (tiers w) = proto_tier st (tiers w)).
  { intros sid w Hl. destruct (wf_winners st Hwf sid w Hl) as [Hal Htl].
    assert (Hfix : forall l,
              l ∈ (object_at st (tiers w)).*2 \/ protos st !! tiers w = Some l ->
              arrays st' !! l = arrays st !! l).
    { intros l Hin. destruct (Ht sid w l Hl Hin) as [Hlt Hnot].
      apply Ha; [done|]. intros Hex. apply Hnot. by left. }
    destruct (record_same st st' w) as (H1 & H2 & H3).
    - apply Ha; [done|]. intros [sid' Hs']. by apply (wf_separate st Hwf sid' sid _ w Hs').
    - by apply Ho.
    - intros l Hin. apply Hfix. by left.
    - split; [done|]. split; [done|]. split; [done|].
      split; [by apply Hpr|]. unfold proto_tier. rewrite Hpr by done.
      destruct (protos st !! tiers w) as [p|] eqn:Hp0; [|done].
      unfold array_at. rewrite Hfix; [done|by right]. }
  assert (Hmay : forall l, (l < length (arrays st))%nat ->
            may_change_array true st' l -> may_change_array true st l).
  { intros l Hl. apply may_change_array_old; [done| |done].
    intros _ sid w Hl'. destruct (Hw sid w Hl') as [H|(H & _)]; [left; eauto|by right]. }
  split.
  - intros sid w Hl. destruct (Hw sid w Hl) as [Hl0|(_ & _ & He & _)].
    + destruct (Hold sid w Hl0) as (-> & _). by apply (Hd sid).
    + rewrite He. apply NoDup_nil_2.
  - intros sid w Hl. destruct (Hw sid w Hl) as [Hl0|(_ & _ & He & Heo & Hep & _)].
    + destruct (Hold sid w Hl0) as (-> & _ & -> & _ & ->). by apply (Hu sid).
    + unfold snapshot_tiers, proto_tier. by rewrite He, Heo, Hep.
  - intros sid w l Hl Hin. destruct (Hw sid w Hl) as [Hl0|(_ & _ & _ & Heo & Hep & _)].
    + destruct (Hold sid w Hl0) as (_ & Hobj & _ & Hpro & _). rewrite Hobj, Hpro in Hin.
      destruct (Ht sid w l Hl0 Hin) as [Hlt Hnot]. split; [lia|].
      intros Hm. apply Hnot. by apply Hmay.
    + rewrite Heo, Hep in Hin. destruct Hin as [Hin|Hin]; [|done].
      by apply elem_of_nil in Hin.
  - intros sid sid' w w' Hne Hl Hl'.
    destruct (Hw sid w Hl) as [Hl0|(Hf1 & Hf2 & _ & _ & _ & Hoth)].
    + destruct (Hw sid' w' Hl') as [Hl0'|(Hf1 & Hf2 & _)].
      * by apply (Hap sid sid').
      * destruct (wf_winners st Hwf sid w Hl0). split; lia.
    + assert (Hl0' : winners st !! sid' = Some w') by (by apply (Hoth sid' w')).
      destruct (wf_winners st Hwf sid' w' Hl0'). split; lia.
Qed.

Lemma tidy_unchanged st st' : wf st -> tidy st -> unchanged st st' -> tidy st'.
Proof.
  intros Hwf Ht (S' & P' & W' & O' & C' & PR' & (unused & A')).
  apply (tidy_step st st' Hwf Ht).
  - rewrite A', length_app. lia.
  - intros l Hl _. rewrite A'. by rewrite lookup_app_l.
  - intros t _. by rewrite O'.
  - intros t _. by rewrite PR'.
  - intros sid p. rewrite P'. eauto.
  - intros sid w. rewrite W'. auto.
Qed.

Lemma proto_tier_not_drawn st t :
  obj_get (object_at st t) "__proto__" = None ->
  tier_drawn st t "__proto__" = false -> proto_tier st t = [].
Proof.
  unfold tier_drawn, proto_tier. intros ->.
  destruct (protos st !! t) as [p|]; [|done].
  unfold array_member_nonempty. cbn. by destruct (array_at st p).
Qed.

Lemma drawTier_tidy st now sid tier count :
  wf st -> rosters_ok st -> settled st -> tidy st ->
  tidy (drawTier now sid tier count st).2.
Proof.
  intros Hwf Hros Hsett Htidy.
  destruct (drawTier_cases st now sid tier count Hwf)
    as [(s & m & st2 & -> & Hst & Hun)
       |(session & seed & w & lastBlock & Hsid & Htier & Hs & Hseed & Hw & Hdrawn
         & Hlast & Hrem)].
  { by apply (tidy_unchanged st). }
  pose proof (wf_winners st Hwf sid w Hw) as [Hall Htiers].
  destruct (drawTier_run_full st now sid tier count session seed w lastBlock
              Hsid Htier Hs Hseed Hw Hdrawn Hlast Hrem Hall Htiers)
    as (st' & b & -> & Es & Ep & Ew & Ea & Eo & Ec & _ & _ & _ & Epr).
  cbv zeta in Ea, Eo, Epr. cbn [snd].
  set (A := array_at st (all w)) in *.
  set (remaining := filter (fun u => negb (includes A u)) (participants_of st sid)) in *.
  set (k := tier_count tier count (length remaining)) in *.
  set (material := sha256 _) in *.
  set (ws := selected remaining k material) in *.
  set (n := length (arrays st)) in *.
  destruct Htidy as [Hd Hu Ht Hap].
  (* the winners of this draw *)
  destruct (Hros sid) as (c & Hc & Hndc & _).
  assert (Hws : exists c', ws = Some <$> c' /\ NoDup c' /\ forall x, x ∈ c' -> Some x ∉ A).
  { assert (Hremc : remaining = Some <$> filter (fun x => Some x ∉ A) c).
    { unfold remaining. by rewrite Hc, filter_not_included. }
    unfold ws. rewrite Hremc.
    destruct (selected_sound (filter (fun x => Some x ∉ A) c) k material)
      as (c' & Hsel & Hnd' & Hsub & _).
    - by apply NoDup_filter.
    - unfold k, tier_count. rewrite Hremc, length_fmap.
      destruct (targetCount tier count); cbn; lia.
    - exists c'. split; [done|]. split; [done|].
      intros x Hx. apply Hsub in Hx. by apply list_elem_of_filter in Hx as [Hx _]. }
  destruct Hws as (c' & Hwsc & Hndc' & Hdisj).
  (* the store after the draw *)
  assert (Hlen : length (arrays st') = S (S (S n))).
  { rewrite Ea, length_insert, length_app. cbn. lia. }
  assert (HA' : array_at st' (all w) = A ++ ws).
  { unfold array_at at 1. rewrite Ea.
    by rewrite list_lookup_insert_eq by (rewrite length_app; lia). }
  assert (Hwl' : array_at st' (S (S n)) = ws).
  { unfold array_at at 1. rewrite Ea. rewrite list_lookup_insert_ne by lia.
    rewrite lookup_app_r by lia.
    by replace (S (S n) - length (arrays st))%nat with 2%nat by lia. }
  assert (Hold : forall l, (l < n)%nat -> l <> all w -> arrays st' !! l = arrays st !! l).
  { intros l Hl Hne. rewrite Ea. rewrite list_lookup_insert_ne by done.
    by rewrite lookup_app_l. }
  assert (Hvals : forall sid0 w0 l, winners st !! sid0 = Some w0 ->
            l ∈ (object_at st (tiers w0)).*2 \/ protos st !! tiers w0 = Some l ->
            arrays st' !! l = arrays st !! l).
  { intros sid0 w0 l Hw0 Hin. destruct (Ht sid0 w0 l Hw0 Hin) as [Hlt Hnot].
    apply Hold; [done|]. intros ->. apply Hnot. right. split; [done|]. eauto. }
  assert (Hmay : forall l, may_change_array true st' l -> may_change_array true st l).
  { intros l. by apply may_change_array_same. }
  assert (Hptier : forall sid0 w0, winners st !! sid0 = Some w0 ->
            protos st' !! tiers w0 = protos st !! tiers w0 ->
            proto_tier st' (tiers w0) = proto_tier st (tiers w0)).
  { intros sid0 w0 Hw0 Heq. unfold proto_tier. rewrite Heq.
    destruct (protos st !! tiers w0) as [p|] eqn:Hp0; [|done].
    unfold array_at. rewrite (Hvals sid0 w0 p Hw0); [done|by right]. }
  assert (Hrec : forall sid0 w0, sid0 <> sid -> winners st !! sid0 = Some w0 ->
            array_at st' (all w0) = array_at st (all w0)
            /\ object_at st' (tiers w0) = object_at st (tiers w0)
            /\ snapshot_tiers st' (tiers w0) = snapshot_tiers st (tiers w0)
            /\ protos st' !! tiers w0 = protos st !! tiers w0
            /\ proto_tier st' (tiers w0) = proto_tier st (tiers w0)).
  { intros sid0 w0 Hne Hw0. destruct (Hap sid0 sid w0 w Hne Hw0 Hw) as [Hne1 Hne2].
    destruct (wf_winners st Hwf sid0 w0 Hw0) as [Hal0 Htl0].
    assert (Hpeq : protos st' !! tiers w0 = protos st !! tiers w0).
    { rewrite Epr. destruct (String.eqb tier "__proto__"); [|done].
      by rewrite lookup_insert_ne. }
    destruct (record_same st st' w0) as (H1 & H2 & H3).
    - by apply Hold.
    - rewrite Eo. by rewrite list_lookup_insert_ne.
    - intros l Hin. apply (Hvals sid0 w0); [done|by left].
    - split; [done|]. split; [done|]. split; [done|]. split; [done|].
      by apply (Hptier sid0). }
  assert (Hobj' : object_at st' (tiers w)
                  = obj_assign (object_at st (tiers w)) tier (S (S n))).
  { unfold object_at at 1. rewrite Eo. by rewrite list_lookup_insert_eq. }
  assert (Hsnap' : snapshot_tiers st' (tiers w)
                   = obj_assign (snapshot_tiers st (tiers w)) tier ws).
  { rewrite (snapshot_tiers_set st st' (tiers w) tier (S (S n))); [|done|done|].
    - by rewrite Hwl'.
    - intros l Hin. apply (Hvals sid w); [done|by left]. }
  pose proof (settled_members st Hsett sid w Hw) as Hplain.
  split.
  - intros sid0 w0. rewrite Ew. intros Hw0.
    destruct (decide (sid0 = sid)) as [->|Hne].
    + rewrite Hw in Hw0. injection Hw0 as <-. rewrite HA', Hwsc.
      apply NoDup_app. split; [by apply (Hd sid)|]. split.
      * intros x Hx Hin. apply list_elem_of_fmap in Hin as (y & -> & Hy).
        by apply (Hdisj y).
      * by apply (NoDup_fmap_2 Some).
    + destruct (Hrec sid0 w0 Hne Hw0) as (-> & _). by apply (Hd sid0).
  - intros sid0 w0. rewrite Ew. intros Hw0.
    destruct (decide (sid0 = sid)) as [->|Hne].
    + rewrite Hw in Hw0. injection Hw0 as <-. rewrite Hsnap', HA'.
      pose proof (Hu sid w Hw) as Hun0. fold A in Hun0.
      unfold obj_assign. destruct (String.eqb_spec tier "__proto__") as [->|Hnp].
      * assert (Hpt' : proto_tier st' (tiers w) = ws).
        { unfold proto_tier. rewrite Epr. cbn. by rewrite lookup_insert_eq. }
        rewrite Hpt'. rewrite <- Hun0.
        rewrite (proto_tier_not_drawn st (tiers w) Hplain Hdrawn). by rewrite app_nil_r.
      * assert (Hpeq : protos st' !! tiers w = protos st !! tiers w).
        { by rewrite Epr. }
        rewrite (Hptier sid w Hw Hpeq). rewrite obj_set_concat.
        -- rewrite <- Hun0. rewrite <- !app_assoc.
           apply Permutation_app; [done|]. apply Permutation_app_comm.
        -- intros v0. unfold snapshot_tiers. rewrite obj_get_map.
           unfold tier_drawn in Hdrawn.
           destruct (obj_get (object_at st (tiers w)) tier) as [l0|]; [|done].
           intros [= <-]. apply Nat.ltb_ge in Hdrawn.
           destruct (array_at st l0); [done|cbn in Hdrawn; lia].
    + destruct (Hrec sid0 w0 Hne Hw0) as (-> & _ & -> & _ & ->). by apply (Hu sid0).
  - intros sid0 w0 l. rewrite Ew. intros Hw0 Hin.
    destruct (decide (sid0 = sid)) as [->|Hne].
    + rewrite Hw in Hw0. injection Hw0 as <-.
      assert (Hcases : l = S (S n)
                       \/ l ∈ (object_at st (tiers w)).*2 \/ protos st !! tiers w = Some l).
      { destruct Hin as [Hin|Hin].
        - rewrite Hobj' in Hin. apply obj_assign_values in Hin as [->|Hin]; auto.
        - rewrite Epr in Hin. destruct (String.eqb tier "__proto__"); [|auto].
          rewrite lookup_insert_eq in Hin. injection Hin as <-. by left. }
      destruct Hcases as [->|Hin0].
      * split; [lia|]. apply (fresh_array_fixed true st); [done|done|done|lia].
      * destruct (Ht sid w l Hw Hin0) as [Hlt Hnot]. split; [lia|].
        intros Hm. by apply Hnot, Hmay.
    + destruct (Hrec sid0 w0 Hne Hw0) as (_ & Hobj & _ & Hpeq & _).
      rewrite Hobj, Hpeq in Hin.
      destruct (Ht sid0 w0 l Hw0 Hin) as [Hlt Hnot]. split; [lia|].
      intros Hm. by apply Hnot, Hmay.
  - intros sid0 sid1 w0 w1 Hne. rewrite Ew. by apply Hap.
Qed.

Lemma step_tidy st r :
  wf st -> rosters_ok st -> settled st -> tidy st -> is_draw r = false ->
  tidy (step st r).
Proof.
  intros Hwf Hros Hsett Htidy Hr. unfold step. rewrite requestListener_state.
  destruct r as [nowId now name sh|now sid user|now sid seed
                |now sid nw tc|now sid tier count|now sid users]; cbn [handler].
  - destruct (createSession_cases st nowId now name sh) as [Hc|[Hname Hsh]].
    { by rewrite Hc. }
    destruct (wf_last st Hwf) as [lastBlock Hlast].
    destruct (createSession_run st nowId now name sh lastBlock Hname Hsh Hlast)
      as (b & -> & _).
    cbn [snd]. apply (tidy_step st _ Hwf Htidy);
      cbn [arrays objects participants winners protos].
    + rewrite length_app. lia.
    + intros l Hl _. by rewrite lookup_app_l.
    + intros t Ht. by rewrite lookup_app_l.
    + done.
    + intros s p [[_ <-]|[_ H]]%lookup_insert_Some; [right; lia|left; eauto].
    + intros s w [[<- <-]|[_ H]]%lookup_insert_Some; [right|by left].
      cbn [all tiers]. split; [lia|]. split; [lia|].
      unfold array_at, object_at. cbn [arrays objects].
      rewrite lookup_snoc2_1, list_lookup_middle by done.
      split; [done|]. split; [done|]. split.
      { destruct (protos st !! length (objects st)) eqn:Hpr; [|done].
        assert (length (objects st) < length (objects st))%nat; [|lia].
        apply (settled_protos st Hsett). by eexists. }
      intros s' w' Hne. by rewrite lookup_insert_ne.
  - destruct (enter_cases st now sid user Hwf)
      as [(res & -> & Hst)|(session & p & lastBlock & Hsid & Hu & Hs & Hp & Hlt & Hlast)];
      [done|].
    destruct (enter_run st now sid user session p lastBlock Hsid Hu Hs Hp Hlt Hlast)
      as [[_ ->]|[Hnew (b & -> & _)]]; [done|].
    cbn [snd]. apply (tidy_step st _ Hwf Htidy);
      cbn [arrays objects participants winners protos].
    + by rewrite length_insert.
    + intros l Hl Hnot. rewrite list_lookup_insert_ne; [done|].
      intros <-. apply Hnot. eauto.
    + done.
    + done.
    + eauto.
    + auto.
  - destruct (revealSeed_cases st now sid seed Hwf)
      as [(s & m & -> & Hst)|(session & lastBlock & Hsid & Hseed & Hs & Heq & Hlast)];
      [done|].
    destruct (revealSeed_run st now sid seed session lastBlock Hsid Hseed Hs Heq Hlast)
      as (b & -> & _).
    cbn [snd]. apply (tidy_step st _ Hwf Htidy);
      cbn [arrays objects participants winners protos]; eauto.
  - discriminate.
  - by apply drawTier_tidy.
  - destruct (importParticipants_cases st now sid users Hwf)
      as [(res & st2 & -> & Hun & Hst)
         |(session & p & lastBlock & Hsid & Hs & Hp & Hlt & Hlast)];
      [by apply (tidy_unchanged st)|].
    destruct (importParticipants_run st now sid users session p lastBlock
                Hsid Hs Hp Hlt Hlast) as (more & -> & _).
    cbn [snd]. apply (tidy_step st _ Hwf Htidy);
      cbn [arrays objects participants winners protos].
    + rewrite !length_insert, length_app. lia.
    + intros l Hl Hnot. rewrite list_lookup_insert_ne by lia.
      rewrite list_lookup_insert_ne.
      * by rewrite lookup_app_l.
      * intros <-. apply Hnot. eauto.
    + done.
    + done.
    + eauto.
    + auto.
Qed.

Lemma initial_state_tidy now0 : tidy (initial_state now0).
Proof.
  assert (Hw : winners (initial_state now0) = ∅) by reflexivity.
  split; intros *; [| | |intros _]; intros H; by rewrite Hw, lookup_empty in H.
Qed.

Lemma run_tidy now0 rs :
  forallb (fun r => negb (is_draw r)) rs = true -> tidy (run now0 rs).
Proof.
  unfold run. induction rs as [|r rs IH] using rev_ind; intros Hall.
  - apply initial_state_tidy.
  - rewrite forallb_app in Hall. apply andb_true_iff in Hall as [Hrs Hr].
    cbn in Hr. rewrite andb_true_r in Hr. apply negb_true_iff in Hr.
    rewrite foldl_app. cbn [foldl].
    apply step_tidy; [apply run_wf|apply run_rosters|apply run_settled|by apply IH|done].
Qed.

(** Without a tier draw for the name [__proto__], and without /api/draw,
    every tier object keeps the prototype it was made with. *)
Lemma step_protos st r :
  wf st -> is_draw r = false -> names_proto r = false -> protos (step st r) = protos st.
Proof.
  intros Hwf Hr Hn. unfold step. rewrite requestListener_state.
  destruct r as [nowId now name sh|now sid user|now sid seed
                |now sid nw tc|now sid tier count|now sid users]; cbn [handler].
  - destruct (createSession_cases st nowId now name sh) as [Hc|[Hname Hsh]].
    { by rewrite Hc. }
    destruct (wf_last st Hwf) as [lastBlock Hlast].
    by destruct (createSession_run st nowId now name sh lastBlock Hname Hsh Hlast)
      as (b & -> & _).
  - destruct (enter_cases st now sid user Hwf)
      as [(res & -> & Hst)|(session & p & lastBlock & Hsid & Hu & Hs & Hp & Hlt & Hlast)];
      [done|].
    by destruct (enter_run st now sid user session p lastBlock Hsid Hu Hs Hp Hlt Hlast)
      as [[_ ->]|[Hnew (b & -> & _)]].
  - destruct (revealSeed_cases st now sid seed Hwf)
      as [(s & m & -> & Hst)|(session & lastBlock & Hsid & Hseed & Hs & Heq & Hlast)];
      [done|].
    by destruct (revealSeed_run st now sid seed session lastBlock Hsid Hseed Hs Heq Hlast)
      as (b & -> & _).
  - discriminate.
  - destruct (drawTier_cases st now sid tier count Hwf)
      as [(s & m & st2 & -> & Hst & Hun)
         |(session & seed & w & lastBlock & Hsid & Htier & Hs & Hseed & Hw & Hdrawn
           & Hlast & Hrem)].
    { by destruct Hun as (_ & _ & _ & _ & _ & PR' & _). }
    pose proof (wf_winners st Hwf sid w Hw) as [Hall Htiers].
    destruct (drawTier_run_full st now sid tier count session seed w lastBlock
                Hsid Htier Hs Hseed Hw Hdrawn Hlast Hrem Hall Htiers)
      as (st' & b & -> & _ & _ & _ & _ & _ & _ & _ & _ & _ & Epr).
    cbn [names_proto] in Hn. by rewrite Hn in Epr.
  - destruct (importParticipants_cases st now sid users Hwf)
      as [(res & st2 & -> & Hun & Hst)
         |(session & p & lastBlock & Hsid & Hs & Hp & Hlt & Hlast)].
    { by destruct Hun as (_ & _ & _ & _ & _ & PR' & _). }
    by destruct (importParticipants_run st now sid users session p lastBlock
                   Hsid Hs Hp Hlt Hlast) as (more & -> & _).
Qed.

Lemma run_protos now0 rs :
  forallb (fun r => negb (is_draw r)) rs = true ->
  forallb (fun r => negb (names_proto r)) rs = true ->
  protos (run now0 rs) = ∅.
Proof.
  unfold run. induction rs as [|r rs IH] using rev_ind; intros Hd Hn; [done|].
  rewrite forallb_app in Hd, Hn.
  apply andb_true_iff in Hd as [Hd Hr]. apply andb_true_iff in Hn as [Hn Hp].
  cbn in Hr, Hp. rewrite andb_true_r in Hr, Hp. apply negb_true_iff in Hr, Hp.
  rewrite foldl_app. cbn [foldl].
  rewrite step_protos; [by apply IH|apply run_wf|done|done].
Qed.

(** X18.  As long as no [/api/draw] request is made, nobody wins twice: after
    any sequence of session creations, enrolments, imports, reveals and tier
    draws from a fresh start, the [all] list of every session has no
    duplicates and holds exactly the members of its tier lists and of the
    list drawn for a tier named [__proto__], which is the prototype of
    [tiers] and not one of its members.  When no tier draw names
    [__proto__], [all] holds exactly the members of the tier lists, so that
    no participant is in two tiers. *)
Theorem tier_draws_no_double_winners (now0 : Z) (rs : list Request) (sid : string) :
  forallb (fun r => negb (is_draw r)) rs = true ->
  NoDup (allWinners_of (run now0 rs) sid)
  /\ concat (tierWinners_of (run now0 rs) sid).*2 ++ protoWinners_of (run now0 rs) sid
     ≡ₚ allWinners_of (run now0 rs) sid
  /\ (forallb (fun r => negb (names_proto r)) rs = true ->
      concat (tierWinners_of (run now0 rs) sid).*2 ≡ₚ allWinners_of (run now0 rs) sid).
Proof.
  intros Hrs. pose proof (run_tidy now0 rs Hrs) as [Hd Hu _ _].
  assert (Hgen : NoDup (allWinners_of (run now0 rs) sid)
                 /\ concat (tierWinners_of (run now0 rs) sid).*2
                      ++ protoWinners_of (run now0 rs) sid
                    ≡ₚ allWinners_of (run now0 rs) sid).
  { unfold allWinners_of, tierWinners_of, protoWinners_of.
    destruct (winners (run now0 rs) !! sid) as [w|] eqn:Hw.
    - split; [by apply (Hd sid)|by apply (Hu sid)].
    - split; [apply NoDup_nil_2|done]. }
  destruct Hgen as [Hnd Hun]. split; [done|]. split; [done|].
  intros Hn. rewrite <- Hun.
  unfold protoWinners_of, proto_tier. rewrite (run_protos now0 rs Hrs Hn).
  destruct (winners (run now0 rs) !! sid); by rewrite ?lookup_empty, app_nil_r.
Qed.

Lemma tier_draws_no_double_winners_witness :
  NoDup (allWinners_of
           (run 1000 (revealed ++ [DrawTier 2006 "2000" "first" (Some 1);
                                   DrawTier 2007 "2000" "second" (Some 1)])) "2000")
  /\ concat (tierWinners_of
               (run 1000 (revealed ++ [DrawTier 2006 "2000" "first" (Some 1);
                                       DrawTier 2007 "2000" "second" (Some 1)])) "2000").*2
       ++ protoWinners_of
            (run 1000 (revealed ++ [DrawTier 2006 "2000" "first" (Some 1);
                                    DrawTier 2007 "2000" "second" (Some 1)])) "2000"
     ≡ₚ allWinners_of
          (run 1000 (revealed ++ [DrawTier 2006 "2000" "first" (Some 1);
                                  DrawTier 2007 "2000" "second" (Some 1)])) "2000"
  /\ (forallb (fun r => negb (names_proto r))
        (revealed ++ [DrawTier 2006 "2000" "first" (Some 1);
                      DrawTier 2007 "2000" "second" (Some 1)]) = true ->
      concat (tierWinners_of
                (run 1000 (revealed ++ [DrawTier 2006 "2000" "first" (Some 1);
                                        DrawTier 2007 "2000" "second" (Some 1)])) "2000").*2
      ≡ₚ allWinners_of
           (run 1000 (revealed ++ [DrawTier 2006 "2000" "first" (Some 1);
                                   DrawTier 2007 "2000" "second" (Some 1)])) "2000").
Proof.
  apply (tier_draws_no_double_winners 1000
           (revealed ++ [DrawTier 2006 "2000" "first" (Some 1);
                         DrawTier 2007 "2000" "second" (Some 1)]) "2000").
  reflexivity.
Defined.

(** ** A seed from the gateway *)

Lemma generateSeed_pair random :
  length random = 32%nat ->
  (generateSeed random).1 <> ""
  /\ (generateSeed random).2 = sha256_hex (generateSeed random).1.
Proof.
  intros Hlen. cbn [generateSeed fst snd]. split; [|done].
  apply to_hex_nonempty. by destruct random.
Qed.

Lemma getTianxuanSeed_pair outcome random :
  length random = 32%nat ->
  (getTianxuanSeed outcome random).1 <> ""
  /\ (getTianxuanSeed outcome random).2 = sha256_hex (getTianxuanSeed outcome random).1.
Proof.
  intros Hlen. pose proof (generateSeed_pair random Hlen) as Hgen.
  unfold getTianxuanSeed.
  repeat match goal with
         | |- context [match ?x with _ => _ end] => destruct x eqn:?; try exact Hgen
         end.
  all: cbn [fst snd]; split; [|done].
  all: match goal with
       | H : _ && _ = true |- _ => apply andb_true_iff in H as [H _]
       end.
  all: cbn [js_truthy] in *; by apply truthy_true_iff.
Qed.

(** X19.  Whatever the gateway answers (an error, a body that is no JSON, or
    any JSON value), the pair [getTianxuanSeed] resolves with is a
    commitment that opens: the hash is the SHA-256 of the seed, the seed is
    not empty, and in every state the server reaches [createSession] with
    the hash succeeds and [revealSeed] with the seed is then accepted. *)
Theorem tianxuan_seed_commits_and_reveals
    (st : State) (outcome : RpcOutcome) (random : bytes)
    (nowId now now' : Z) (name : string) :
  reachable st ->
  name <> "" ->
  length random = 32%nat ->
  (getTianxuanSeed outcome random).1 <> ""
  /\ (getTianxuanSeed outcome random).2 = sha256_hex (getTianxuanSeed outcome random).1
  /\ exists st1 st2 b,
       requestListener (CreateSession nowId now name (getTianxuanSeed outcome random).2) st
       = (SessionCreated (pretty nowId), st1)
       /\ requestListener (RevealSeed now' (pretty nowId) (getTianxuanSeed outcome random).1) st1
          = (Revealed, st2)
       /\ sessions st2 !! pretty nowId
          = Some (mkSession (pretty nowId) name (getTianxuanSeed outcome random).2
                    (Some (getTianxuanSeed outcome random).1) false)
       /\ chain st2 = chain st1 ++ [b]
       /\ data b = SEED_REVEALED (pretty nowId) (getTianxuanSeed outcome random).1.
Proof.
  intros Hwf%reachable_wf Hname Hlen.
  destruct (getTianxuanSeed_pair outcome random Hlen) as [Hne Hhash].
  split; [done|]. split; [done|].
  rewrite Hhash. by apply commit_then_reveal.
Qed.

Lemma tianxuan_seed_commits_and_reveals_witness :
  (getTianxuanSeed (RpcEnd (Some (JObj [("result", JObj [("seed", JNum (QArith_base.Qmake 0 1));
                                                          ("random", JStr "c0ffee")])])))
     (replicate 32 7)).1 <> ""
  /\ (getTianxuanSeed (RpcEnd (Some (JObj [("result", JObj [("seed", JNum (QArith_base.Qmake 0 1));
                                                             ("random", JStr "c0ffee")])])))
        (replicate 32 7)).2
     = sha256_hex
         (getTianxuanSeed (RpcEnd (Some (JObj [("result", JObj [("seed", JNum (QArith_base.Qmake 0 1));
                                                                 ("random", JStr "c0ffee")])])))
            (replicate 32 7)).1
  /\ exists st1 st2 b,
       requestListener
         (CreateSession 3000 3001 "gala"
            (getTianxuanSeed
               (RpcEnd (Some (JObj [("result", JObj [("seed", JNum (QArith_base.Qmake 0 1));
                                                     ("random", JStr "c0ffee")])])))
               (replicate 32 7)).2) (run 1000 enrolled)
       = (SessionCreated (pretty 3000), st1)
       /\ requestListener
            (RevealSeed 3002 (pretty 3000)
               (getTianxuanSeed
                  (RpcEnd (Some (JObj [("result", JObj [("seed", JNum (QArith_base.Qmake 0 1));
                                                        ("random", JStr "c0ffee")])])))
                  (replicate 32 7)).1) st1
          = (Revealed, st2)
       /\ sessions st2 !! pretty 3000
          = Some (mkSession (pretty 3000) "gala"
                    (getTianxuanSeed
                       (RpcEnd (Some (JObj [("result", JObj [("seed", JNum (QArith_base.Qmake 0 1));
                                                             ("random", JStr "c0ffee")])])))
                       (replicate 32 7)).2
                    (Some (getTianxuanSeed
                             (RpcEnd (Some (JObj [("result", JObj [("seed", JNum (QArith_base.Qmake 0 1));
                                                                   ("random", JStr "c0ffee")])])))
                             (replicate 32 7)).1) false)
       /\ chain st2 = chain st1 ++ [b]
       /\ data b = SEED_REVEALED (pretty 3000)
                     (getTianxuanSeed
                        (RpcEnd (Some (JObj [("result", JObj [("seed", JNum (QArith_base.Qmake 0 1));
                                                              ("random", JStr "c0ffee")])])))
                        (replicate 32 7)).1.
Proof.
  apply (tianxuan_seed_commits_and_reveals (run 1000 enrolled)
           (RpcEnd (Some (JObj [("result", JObj [("seed", JNum (QArith_base.Qmake 0 1));
                                                 ("random", JStr "c0ffee")])])))
           (replicate 32 7) 3000 3001 3002 "gala").
  - exists 1000, enrolled. reflexivity.
  - discriminate.
  - reflexivity.
Defined.
